(** * zprocess: message-passing substrate for a tree of worker processes

    A shallow embedding of [zprocess/__init__.py] and the properties its
    specification states about it.  Python objects are an inductive type,
    exceptions are a result type, sockets and thread-local storage are
    explicit state, and the blocking loops are either functions over the
    behaviour of the peer or step relations. *)

From Stdlib Require Import ZArith List String Ascii Bool Lia.
From Stdlib Require Import DecimalString DecimalZ DecimalPos.
From stdpp Require Import base option list gmap strings.

Local Open Scope string_scope.
Local Open Scope Z_scope.

(** ** Python values and exceptions *)

(** The exception classes the module raises or lets through.
    [TimeoutError] is the module's own subclass of [zmq.ZMQError]. *)
Inductive exn : Type :=
| TypeError
| ValueError
| UnicodeDecodeError
| AssertionError
| AttributeError
| IndexError
| RuntimeError (msg : string)
| ZMQError (msg : string)
| TimeoutError (msg : string)
| Again
| ContextTerminated
| UserException (name : string).

Inductive result (A : Type) : Type :=
| Ok (a : A)
| Raise (e : exn).
Arguments Ok {A} a.
Arguments Raise {A} e.

Definition bind {A B} (r : result A) (k : A -> result B) : result B :=
  match r with
  | Ok a => k a
  | Raise e => Raise e
  end.

(** The objects that travel through the module.  A [bytes] object is its
    byte string; a text string ([str], [unicode] under Python 2) is kept as
    its UTF-8 encoding, so that [encode('utf8')] keeps the bytes and
    [decode('utf8')] checks them. *)
#[warnings="-register-all"]
Inductive pyval : Type :=
| PNone
| PBytes (b : string)
| PStr (s : string)
| PInt (n : Z)
| PList (l : list pyval)
| PExc (e : exn).

Definition is_none (v : pyval) : bool :=
  match v with PNone => true | _ => false end.

(** [isinstance(v, bytes)] *)
Definition is_bytes (v : pyval) : bool :=
  match v with PBytes _ => true | _ => false end.

(** [isinstance(v, str)], with [str = unicode] under Python 2 *)
Definition is_str (v : pyval) : bool :=
  match v with PStr _ => true | _ => false end.

(** [isinstance(v, Exception)] *)
Definition is_exception (v : pyval) : bool :=
  match v with PExc _ => true | _ => false end.

(** *** UTF-8 *)

Definition byte_in (lo hi : N) (c : ascii) : bool :=
  let n := N_of_ascii c in ((lo <=? n) && (n <=? hi))%N.

Definition str1 (a : ascii) : string := String a "".
Definition str2 (a b : ascii) : string := String a (str1 b).
Definition str3 (a b c : ascii) : string := String a (str2 b c).
Definition str4 (a b c d : ascii) : string := String a (str3 b c d).

(** Range of the second byte of a three-byte and of a four-byte sequence. *)
Definition second3 (a b : ascii) : bool :=
  if byte_in 224 224 a then byte_in 160 191 b
  else if byte_in 237 237 a then byte_in 128 159 b
  else byte_in 128 191 b.

Definition second4 (a b : ascii) : bool :=
  if byte_in 240 240 a then byte_in 144 191 b
  else if byte_in 244 244 a then byte_in 128 143 b
  else byte_in 128 191 b.

(** The code points of a byte string, each as its own encoding; [None] when
    the bytes are not well-formed UTF-8. *)
Fixpoint utf8_chars (s : string) : option (list string) :=
  match s with
  | EmptyString => Some []
  | String a r =>
      if byte_in 0 127 a then cons (str1 a) <$> utf8_chars r
      else if byte_in 194 223 a then
        match r with
        | String b r1 =>
            if byte_in 128 191 b then cons (str2 a b) <$> utf8_chars r1
            else None
        | _ => None
        end
      else if byte_in 224 239 a then
        match r with
        | String b (String c r2) =>
            if second3 a b && byte_in 128 191 c
            then cons (str3 a b c) <$> utf8_chars r2
            else None
        | _ => None
        end
      else if byte_in 240 244 a then
        match r with
        | String b (String c (String d r3)) =>
            if second4 a b && byte_in 128 191 c && byte_in 128 191 d
            then cons (str4 a b c d) <$> utf8_chars r3
            else None
        | _ => None
        end
      else None
  end.

(** A byte string of ASCII characters only. *)
Definition is_ascii (s : string) : bool :=
  forallb (byte_in 0 127) (list_ascii_of_string s).

(** [b.decode('utf8')] *)
Definition decode_utf8 (b : string) : result string :=
  match utf8_chars b with
  | Some _ => Ok b
  | None => Raise UnicodeDecodeError
  end.

(** [s.encode('utf8')] *)
Definition encode_utf8 (s : string) : string := s.

(** Iterating over an object: a list yields its items, a text string its
    characters, a bytes object its bytes (integers under Python 3, one-byte
    strings under Python 2); the others are not iterable and iterating
    them raises [TypeError]. *)
Definition py_iter (PY2 : bool) (v : pyval) : result (list pyval) :=
  match v with
  | PList l => Ok l
  | PStr s =>
      match utf8_chars s with
      | Some cs => Ok (PStr <$> cs)
      | None => Ok (PStr <$> (str1 <$> list_ascii_of_string s))
      end
  | PBytes b =>
      Ok ((fun a => if PY2 then PBytes (str1 a)
                    else PInt (Z.of_N (N_of_ascii a)))
            <$> list_ascii_of_string b)
  | _ => Raise TypeError
  end.

(** ** Payload validation *)

Inductive wire_kind : Type := Raw | Text | Multipart | Pyobj.

(** The name under which the code dispatches on a wire kind. *)
Definition kind_name (k : wire_kind) : string :=
  match k with
  | Raw => "raw"
  | Text => "string"
  | Multipart => "multipart"
  | Pyobj => "pyobj"
  end.

Definition _typecheck_or_convert_data (PY2 : bool) (data : pyval)
    (send_type : string) : result pyval :=
  let data :=
    if is_none data && (String.eqb send_type "raw" || String.eqb send_type "multipart")
    then PBytes "" else data in
  let data :=
    if String.eqb send_type "multipart" && is_bytes data
    then PList [data] else data in
  if String.eqb send_type "raw" then
    if negb (is_bytes data) then Raise TypeError else Ok data
  else if String.eqb send_type "string" then
    bind (if PY2 && is_bytes data
          then match data with
               | PBytes b => bind (decode_utf8 b) (fun s => Ok (PStr s))
               | _ => Ok data
               end
          else Ok data)
      (fun data => if negb (is_str data) then Raise TypeError else Ok data)
  else if String.eqb send_type "multipart" then
    bind (py_iter PY2 data)
      (fun parts => if negb (forallb is_bytes parts) then Raise TypeError
                    else Ok data)
  else if negb (String.eqb send_type "pyobj") then Raise ValueError
  else Ok data.


(** ** Printing and parsing *)

(** [str(n)] and [int(s)] on integers.  [int] is kept to the plain decimal
    strings that [str] produces. *)
Definition str_of_int (n : Z) : string := NilZero.string_of_int (Z.to_int n).

Definition int_of_str (s : string) : result Z :=
  match NilZero.int_of_string s with
  | Some d => Ok (Z.of_int d)
  | None => Raise ValueError
  end.

Section Runtime.

(** What the interpreter and the libraries supply: the major version of
    Python, name resolution, the printed form of a traceback, and the
    printed form of the objects whose [str] the module never looks into. *)
Variable PY2 : bool.
Variable gethostbyname : string -> string.
Variable format_exc : exn -> string.
Variable repr_other : pyval -> string.

(** [str(v)] *)
Definition py_str (v : pyval) : string :=
  match v with
  | PNone => "None"
  | PStr s => s
  | PInt n => str_of_int n
  | PExc (ZMQError m) => m
  | PExc (TimeoutError m) => m
  | PExc (RuntimeError m) => m
  | _ => repr_other v
  end.

(** ** Request/reply server *)

(** What the accept loop does, in order. *)
Inductive server_event : Type :=
| SRecv (request : pyval)
| SRaiseInThread (e : exn)
| SSend (response : pyval)
| SClose.

Inductive loop_status : Type :=
| InRecv            (* blocked in [recv], waiting for the next request *)
| Returned          (* [mainloop] returned *)
| Died (e : exn).   (* an exception left [mainloop] *)

Record ZMQServer : Type := {
  server_type : string;
  server_port : Z;
  handler : pyval -> result pyval;
}.

(** The reply built in the [except Exception] branch of [mainloop]. *)
Definition error_response (type : string) (e : exn) : pyval :=
  let exception_string := format_exc e in
  let response_data :=
    PExc (ZMQError
      ("The server had an unhandled exception whilst processing the request:"
         ++ String "010" (py_str (PStr exception_string)))) in
  if String.eqb type "raw" then PBytes (encode_utf8 (py_str response_data))
  else if String.eqb type "multipart"
       then PList [PBytes (encode_utf8 (py_str response_data))]
  else if String.eqb type "string" then PStr (py_str response_data)
  else response_data.

(** What [self.send(response_data)] raises for a payload the validation
    has let through.  [send_multipart] sends every frame but the last and
    then the last, which it takes by index: a sequence without frames (the
    empty list, and the empty text string, which the validation lets
    through since it has no item that is not bytes) raises [IndexError].
    The other send methods take every payload of their protocol. *)
Definition no_frames (response_data : pyval) : bool :=
  match response_data with
  | PList [] => true
  | PStr "" => true
  | _ => false
  end.

Definition send_raises (type : string) (response_data : pyval) : option exn :=
  if String.eqb type "multipart" && no_frames response_data
  then Some IndexError else None.

(** [ZMQServer.mainloop], run against the outcomes of its successive
    [recv] calls.  When the list is used up the loop is blocked in
    [recv].  The send is outside the [try]: an exception it raises leaves
    the loop, no reply sent. *)
Fixpoint mainloop (self : ZMQServer) (incoming : list (result pyval))
    : list server_event * loop_status :=
  match incoming with
  | [] => ([], InRecv)
  | Raise ContextTerminated :: _ => ([SClose], Returned)
  | Raise e :: _ => ([], Died e)
  | Ok request_data :: rest =>
      let attempt :=
        bind (handler self request_data)
          (fun response_data =>
             _typecheck_or_convert_data PY2 response_data (server_type self)) in
      let '(signalled, response_data) :=
        match attempt with
        | Ok response_data => ([], response_data)
        | Raise e => ([SRaiseInThread e], error_response (server_type self) e)
        end in
      match send_raises (server_type self) response_data with
      | Some e => (SRecv request_data :: signalled, Died e)
      | None =>
          let '(later, status) := mainloop self rest in
          (SRecv request_data
             :: (signalled ++ SSend response_data :: later)%list,
           status)
      end
  end.

(** ** Request/reply and push clients *)

(** The sockets of the process: how many were created, where each one is
    connected, and every payload handed to a socket's send method. *)
Record sockets : Type := {
  created : nat;
  connected : gmap nat (string * Z);
  sent : list (nat * pyval);
}.

(** The attributes of a [threading.local] object, for one thread.  [send],
    [recv] and the poller are bound to the socket that was current when
    they were set. *)
Record local : Type := {
  host : option string;
  port : option Z;
  sock : option nat;
  poller : option nat;
  send : option nat;
  recv : option nat;
}.

Definition no_attributes : local :=
  {| host := None; port := None; sock := None; poller := None;
     send := None; recv := None |}.

(** [del self.local.sock] *)
Definition del_sock (l : local) : local :=
  {| host := host l; port := port l; sock := None; poller := poller l;
     send := send l; recv := recv l |}.

Record ZMQGet : Type := {
  get_type : string;
  get_local : gmap nat local;
}.

(** What the far end does with one request: the send itself may fail
    (whatever makes it raise is given here), and a reply, if there is one,
    is ready [delay] milliseconds after the send and is what [recv] gives
    (or raises). *)
Record exchange : Type := {
  send_error : option exn;
  reply : option (Z * result pyval);
}.

(** [poller.poll(ms)]: is a reply there when the poll returns?  With a
    limit of [ms] milliseconds the poll returns when the reply comes or
    when the limit is reached; a negative [ms] is no limit, and the poll
    then returns when the reply comes, however late.  (With no limit and
    no reply ever it does not return at all; the calls below are given a
    limit wherever they are said to time out.) *)
Definition poll (ms : Z) (x : exchange) : bool :=
  match reply x with
  | Some (delay, _) => (ms <? 0) || (delay <=? ms)
  | None => false
  end.

Definition known_type (type : string) : bool :=
  String.eqb type "raw" || String.eqb type "string"
  || String.eqb type "multipart" || String.eqb type "pyobj".

(** [ZMQGet.new_socket]: every attribute is assigned before the protocol
    is looked at, so an unknown protocol raises with the socket in place. *)
Definition new_socket (type : string) (h : string) (p : Z) (w : sockets)
    : result unit * local * sockets :=
  let s := created w in
  let l := {| host := Some (gethostbyname h); port := Some p;
              sock := Some s; poller := Some s;
              send := None; recv := None |} in
  let w := {| created := S s;
              connected := <[s := (gethostbyname h, p)]> (connected w);
              sent := sent w |} in
  if known_type type
  then (Ok tt, {| host := host l; port := port l; sock := sock l;
                  poller := poller l; send := Some s; recv := Some s |}, w)
  else (Raise ValueError, l, w).

(** The test that opens [__call__]: no socket yet, or another target. *)
Definition needs_new_socket (l : local) (h : string) (p : Z) : bool :=
  match sock l with
  | None => true
  | Some _ =>
      negb (bool_decide (host l = Some (gethostbyname h)))
      || negb (bool_decide (port l = Some p))
  end.

(** The body of the [try] block of [ZMQGet.__call__], after the send. *)
Definition await_reply (timeout : Z) (x : exchange) : result pyval :=
  if poll timeout x then
    match reply x with
    | Some (_, Ok response) =>
        match response with
        | PExc e => Raise e
        | _ => Ok response
        end
    | Some (_, Raise e) => Raise e
    | None => Raise (TimeoutError "No response from server: timed out")
    end
  else Raise (TimeoutError "No response from server: timed out").

(** [ZMQGet.__call__] as run by thread [tid].  [timeout] is in
    milliseconds: it is the value the code passes to [poll]. *)
Definition ZMQGet_call (self : ZMQGet) (tid : nat) (p : Z) (h : string)
    (data : pyval) (timeout : Z) (x : exchange) (w : sockets)
    : result pyval * ZMQGet * sockets :=
  let l := default no_attributes (get_local self !! tid) in
  let '(made, l, w) :=
    if needs_new_socket l h p then new_socket (get_type self) h p w
    else (Ok tt, l, w) in
  let store l := {| get_type := get_type self;
                    get_local := <[tid := l]> (get_local self) |} in
  match made with
  | Raise e => (Raise e, store l, w)
  | Ok _ =>
      match _typecheck_or_convert_data PY2 data (get_type self) with
      | Raise e => (Raise e, store l, w)
      | Ok data =>
          match send_error x, send l with
          | Some e, _ => (Raise e, store (del_sock l), w)
          | None, None => (Raise AttributeError, store (del_sock l), w)
          | None, Some s =>
              let w := {| created := created w; connected := connected w;
                          sent := (sent w ++ [(s, data)])%list |} in
              match await_reply timeout x with
              | Ok response => (Ok response, store l, w)
              | Raise e => (Raise e, store (del_sock l), w)
              end
          end
      end
  end.

Record ZMQPush : Type := {
  push_type : string;
  push_local : gmap nat local;
}.

(** [ZMQPush.new_socket]: only three protocols set [send]; no error is
    raised for another one. *)
Definition push_new_socket (type : string) (h : string) (p : Z) (w : sockets)
    : local * sockets :=
  let s := created w in
  let bound :=
    if String.eqb type "pyobj" || String.eqb type "multipart"
       || String.eqb type "raw"
    then Some s else None in
  ({| host := Some (gethostbyname h); port := Some p; sock := Some s;
      poller := None; send := bound; recv := bound |},
   {| created := S s;
      connected := <[s := (gethostbyname h, p)]> (connected w);
      sent := sent w |}).

(** [ZMQPush.__call__] as run by thread [tid]. *)
Definition ZMQPush_call (self : ZMQPush) (tid : nat) (p : Z) (h : string)
    (data : pyval) (send_error : option exn) (w : sockets)
    : result unit * ZMQPush * sockets :=
  let l := default no_attributes (push_local self !! tid) in
  let '(l, w) :=
    if needs_new_socket l h p then push_new_socket (push_type self) h p w
    else (l, w) in
  let store l := {| push_type := push_type self;
                    push_local := <[tid := l]> (push_local self) |} in
  match _typecheck_or_convert_data PY2 data (push_type self) with
  | Raise e => (Raise e, store l, w)
  | Ok data =>
      match send_error, send l with
      | Some e, _ => (Raise e, store (del_sock l), w)
      | None, None => (Raise AttributeError, store (del_sock l), w)
      | None, Some s =>
          (Ok tt, store l,
           {| created := created w; connected := connected w;
              sent := (sent w ++ [(s, data)])%list |})
      end
  end.

(** ** Heartbeat client *)

(** What the relay does with one beat: the send may fail, the echo may
    never come, or [msg] comes back [delay] milliseconds after the send. *)
Inductive beat : Type :=
| SendFails (e : exn)
| NoEcho
| Echo (delay : Z) (msg : string).

Inductive signal : Type := SIGTERM.

Inductive heartbeat_event : Type :=
| HSleep (ms : Z)
| HSend (msg : string)
| HPoll (ms : Z)
| HRecv (msg : string)
| HStderr (text : string)
| HAcquire (lock : nat)
| HKill (pid : Z) (sig : signal).

Inductive loop_exit : Type :=
| Running             (* the beats are used up, the loop goes on *)
| Break
| Escaped (e : exn).

Inductive heartbeat_status : Type :=
| Beating                 (* still inside the loop *)
| WaitingForLock          (* out of the loop, blocked on the kill lock *)
| Killed                  (* the signal was sent *)
| ThreadDied (e : exn).   (* an exception ended the thread *)

Record HeartbeatClient : Type := {
  hb_lock : option nat;
  hb_server_port : Z;
}.

(** The [while True] loop of [HeartbeatClient.mainloop]. *)
Fixpoint heartbeat_loop (pid : string) (beats : list beat)
    : list heartbeat_event * loop_exit :=
  match beats with
  | [] => ([], Running)
  | SendFails e :: _ => ([HSleep 1000], Escaped e)
  | NoEcho :: _ => ([HSleep 1000; HSend pid; HPoll 1000], Break)
  | Echo delay msg :: rest =>
      if negb (delay <=? 1000)
      then ([HSleep 1000; HSend pid; HPoll 1000], Break)
      else if negb (String.eqb msg pid)
      then ([HSleep 1000; HSend pid; HPoll 1000; HRecv msg], Break)
      else
        let '(later, exit) := heartbeat_loop pid rest in
        (HSleep 1000 :: HSend pid :: HPoll 1000 :: HRecv msg :: later, exit)
  end.

(** [HeartbeatClient.mainloop] in process [getpid].  [held] says whether
    another thread holds the kill lock when the client comes to it. *)
Definition heartbeat_mainloop (self : HeartbeatClient) (getpid : Z)
    (held : bool) (beats : list beat)
    : list heartbeat_event * heartbeat_status :=
  let pid := encode_utf8 (str_of_int getpid) in
  match heartbeat_loop pid beats with
  | (trace, Running) => (trace, Beating)
  | (trace, Escaped e) => (trace, ThreadDied e)
  | (trace, Break) =>
      let trace :=
        (trace ++ [HStderr (String.append "Heartbeat failure" (String "010" ""))])%list in
      match hb_lock self with
      | Some lock =>
          if held then (trace, WaitingForLock)
          else ((trace ++ [HAcquire lock; HKill getpid SIGTERM])%list, Killed)
      | None => ((trace ++ [HKill getpid SIGTERM])%list, Killed)
      end
  end.

(** [HeartbeatClient.create_instance]: the instance of the process is
    made once, always with a lock of its own ([fresh_lock]). *)
Definition HeartbeatClient_create_instance (instance : option HeartbeatClient)
    (server_port : Z) (fresh_lock : nat) : HeartbeatClient :=
  match instance with
  | None => {| hb_lock := Some fresh_lock; hb_server_port := server_port |}
  | Some c => c
  end.

(** ** Locked queue pair *)

(** The sockets and locks of a [ReadQueue].  [to_self_sock] is connected to
    the endpoint [sock] is bound to: what is sent on it travels
    ([to_self_wire]) and then waits in [sock] like any other object. *)
Record ReadQueue : Type := {
  sock_inbox : list pyval;
  to_self_wire : list pyval;
  socklock : option nat;
  to_self_sock_lock : option nat;
}.

(** Where a thread is inside [get] or [put]. *)
Inductive position : Type :=
| Get_enter (timeout : option Z)
| Get_poll (timeout : Z)
| Get_recv
| Get_leave (r : result pyval)
| Put_enter (obj : pyval)
| Put_send (obj : pyval)
| Put_leave
| Finished (r : result pyval).

(** One step of thread [tid]; [None] when the thread cannot move. *)
Definition thread_step (tid : nat) (at_ : position) (q : ReadQueue)
    : option (position * ReadQueue) :=
  match at_ with
  | Get_enter timeout =>
      match socklock q with
      | Some _ => None
      | None =>
          Some (match timeout with
                | Some t => Get_poll t
                | None => Get_recv
                end,
                {| sock_inbox := sock_inbox q; to_self_wire := to_self_wire q;
                   socklock := Some tid;
                   to_self_sock_lock := to_self_sock_lock q |})
      end
  | Get_poll _ =>
      match sock_inbox q with
      | [] => None
      | _ :: _ => Some (Get_recv, q)
      end
  | Get_recv =>
      match sock_inbox q with
      | [] => None
      | obj :: rest =>
          Some (Get_leave (Ok obj),
                {| sock_inbox := rest; to_self_wire := to_self_wire q;
                   socklock := socklock q;
                   to_self_sock_lock := to_self_sock_lock q |})
      end
  | Get_leave r =>
      Some (Finished r,
            {| sock_inbox := sock_inbox q; to_self_wire := to_self_wire q;
               socklock := None;
               to_self_sock_lock := to_self_sock_lock q |})
  | Put_enter obj =>
      match to_self_sock_lock q with
      | Some _ => None
      | None =>
          Some (Put_send obj,
                {| sock_inbox := sock_inbox q; to_self_wire := to_self_wire q;
                   socklock := socklock q; to_self_sock_lock := Some tid |})
      end
  | Put_send obj =>
      Some (Put_leave,
            {| sock_inbox := sock_inbox q;
               to_self_wire := (to_self_wire q ++ [obj])%list;
               socklock := socklock q;
               to_self_sock_lock := to_self_sock_lock q |})
  | Put_leave =>
      Some (Finished (Ok PNone),
            {| sock_inbox := sock_inbox q; to_self_wire := to_self_wire q;
               socklock := socklock q; to_self_sock_lock := None |})
  | Finished _ => None
  end.

(** The poll of a [get] with a timeout runs out: nothing has come.  A
    negative timeout is no limit for [sock.poll], which then never runs
    out. *)
Definition poll_expires (at_ : position) (q : ReadQueue) : option position :=
  match at_, sock_inbox q with
  | Get_poll timeout, [] =>
      if 0 <=? timeout then Some (Get_leave (Raise (TimeoutError "")))
      else None
  | _, _ => None
  end.

(** The oldest object sent on [to_self_sock] reaches [sock]. *)
Definition deliver (q : ReadQueue) : option ReadQueue :=
  match to_self_wire q with
  | [] => None
  | obj :: rest =>
      Some {| sock_inbox := (sock_inbox q ++ [obj])%list; to_self_wire := rest;
              socklock := socklock q;
              to_self_sock_lock := to_self_sock_lock q |}
  end.

Inductive action : Type :=
| Run (tid : nat)
| Expire (tid : nat)
| Deliver
| FromPeer (obj : pyval).

Definition queue_state : Type := gmap nat position * ReadQueue.

Definition act (a : action) (c : queue_state) : option queue_state :=
  let '(threads, q) := c in
  match a with
  | Run tid =>
      at_ ← threads !! tid;
      '(at_, q) ← thread_step tid at_ q;
      Some (<[tid := at_]> threads, q)
  | Expire tid =>
      at_ ← threads !! tid;
      at_ ← poll_expires at_ q;
      Some (<[tid := at_]> threads, q)
  | Deliver => q ← deliver q; Some (threads, q)
  | FromPeer obj =>
      Some (threads,
            {| sock_inbox := (sock_inbox q ++ [obj])%list;
               to_self_wire := to_self_wire q;
               socklock := socklock q;
               to_self_sock_lock := to_self_sock_lock q |})
  end.

(** A schedule: actions one after the other, each of them possible. *)
Fixpoint run (schedule : list action) (c : queue_state) : option queue_state :=
  match schedule with
  | [] => Some c
  | a :: rest => c ← act a c; run rest c
  end.

(** ** Event broker and events *)

(** The module globals about the broker: [Broker.instance] is kept as the
    pair of ports of the broker this process runs. *)
Record process : Type := {
  we_are_the_top_process : bool;
  Broker_instance : option (Z * Z);
  Broker_server_ports : option (Z * Z);
}.

Definition top_level_process : process :=
  {| we_are_the_top_process := true; Broker_instance := None;
     Broker_server_ports := None |}.

(** [Broker.create_instance]; [fresh] are the ports a new broker would
    bind. *)
Definition Broker_create_instance (fresh : Z * Z) (g : process)
    : option (Z * Z) * process :=
  match we_are_the_top_process g, Broker_instance g with
  | true, None =>
      (Some fresh,
       {| we_are_the_top_process := true; Broker_instance := Some fresh;
          Broker_server_ports := Some fresh |})
  | _, _ => (Broker_server_ports g, g)
  end.

Definition Broker_set_server_ports (sub_port pub_port : Z) (g : process)
    : process :=
  {| we_are_the_top_process := we_are_the_top_process g;
     Broker_instance := Broker_instance g;
     Broker_server_ports := Some (sub_port, pub_port) |}.

(** The three frames of a message on the bus.  The third frame is kept as
    the object it pickles. *)
Record message : Type := {
  name_frame : string;
  id_frame : string;
  data_frame : pyval;
}.

(** The broker side of an event's sockets: the clock (milliseconds), the
    messages the broker has for the subscriber in their order, each with
    the time it reaches the socket, and what was published. *)
Record bus : Type := {
  now : Z;
  arrivals : list (Z * message);
  published : list message;
}.

Record Event : Type := {
  event_name : pyval;
  event_type : string;
  can_wait : bool;
  can_post : bool;
  sub : option Z;     (* the SUB socket, connected to the broker's pub port *)
  pub : option Z;     (* the PUB socket, connected to the broker's sub port *)
}.

Definition type_in (type : string) (allowed : list string) : bool :=
  existsb (String.eqb type) allowed.

(** [Event.__init__].  The name is kept as it is given.  An event that can
    wait subscribes with it: [setsockopt(zmq.SUBSCRIBE, name)] takes a
    bytes object and raises [TypeError] for a text string or anything
    else. *)
Definition Event_init (name : pyval) (type : string) (fresh : Z * Z)
    (g : process) : result Event * process :=
  let '(_, g) := Broker_create_instance fresh g in
  match Broker_server_ports g with
  | None => (Raise TypeError, g)
  | Some (broker_sub_port, broker_pub_port) =>
      if negb (type_in type ["wait"; "post"; "both"])
      then (Raise ValueError, g)
      else
        let can_wait := type_in type ["wait"; "both"] in
        let can_post := type_in type ["post"; "both"] in
        if can_wait && negb (is_bytes name) then (Raise TypeError, g)
        else
          (Ok {| event_name := name; event_type := type;
                 can_wait := can_wait; can_post := can_post;
                 sub := if can_wait then Some broker_pub_port else None;
                 pub := if can_post then Some broker_sub_port else None |}, g)
  end.

(** [name.encode('utf8')] for the object an event is named with.  A text
    string has the method.  A bytes object has it under Python 2 only,
    where it is a [str] and is decoded as ASCII first; under Python 3 it
    has none, and neither have the other objects. *)
Definition encode_name (name : pyval) : result string :=
  match name with
  | PStr s => Ok (encode_utf8 s)
  | PBytes b =>
      if PY2 then if is_ascii b then Ok b else Raise UnicodeDecodeError
      else Raise AttributeError
  | _ => Raise AttributeError
  end.

(** [text == name] for a decoded frame and the object an event is named
    with.  A text string equals the same text string; under Python 2 it
    equals the byte string of the same ASCII characters; under Python 3 it
    equals no bytes object. *)
Definition text_equals (text : string) (name : pyval) : bool :=
  match name with
  | PStr s => String.eqb text s
  | PBytes b => PY2 && is_ascii b && String.eqb text b
  | _ => false
  end.

(** The frames [Event.post] sends. *)
Definition posted (self : Event) (id : pyval) (data : pyval) : result message :=
  bind (encode_name (event_name self)) (fun name =>
  Ok {| name_frame := name;
        id_frame := encode_utf8 (py_str id);
        data_frame := data |}).

(** [Event.post] *)
Definition Event_post (self : Event) (id : pyval) (data : pyval) (b : bus)
    : result unit * bus :=
  if negb (can_post self) then (Raise ValueError, b)
  else
    match posted self id data with
    | Raise e => (Raise e, b)
    | Ok m =>
        (Ok tt,
         {| now := now b; arrivals := arrivals b;
            published := (published b ++ [m])%list |})
    end.

(** What both loops of [wait] do with a received message: decode, check
    the name, compare the id.  [Ok None] is a message for another id.
    The [assert] is executed, as it is unless Python runs with [-O]. *)
Definition examine (self : Event) (id : string) (m : message)
    : result (option pyval) :=
  bind (decode_utf8 (name_frame m)) (fun name =>
  bind (decode_utf8 (id_frame m)) (fun event_id =>
  let data := data_frame m in
  if negb (text_equals name (event_name self)) then Raise AssertionError
  else if String.eqb event_id id then Ok (Some data)
  else Ok None)).

Inductive outcome : Type :=
| Returns (data : pyval)
| Raises (e : exn)
| NotFound          (* the first loop ended by its [break] *)
| BlocksForever.    (* in [recv] with nothing ever to come *)

(** The first loop of [wait]: what is already there, without waiting.
    The event is taken to be used by one thread, so that [sublock] is
    free, and a pass of the loop to take no time: the clock moves only
    while a poll waits. *)
Fixpoint drain (self : Event) (id : string) (clock : Z)
    (inbox : list (Z * message)) : outcome * list (Z * message) :=
  match inbox with
  | [] => (NotFound, [])
  | (t, m) :: rest =>
      if negb (t <=? clock) then (NotFound, inbox)
      else
        match examine self id m with
        | Raise e => (Raises e, rest)
        | Ok (Some data) => (Returns data, rest)
        | Ok None => drain self id clock rest
        end
  end.

Definition timed_out : exn := TimeoutError "No event received: timed out".

(** The second loop of [wait], with [deadline = start_time + timeout]. *)
Fixpoint await (self : Event) (id : string) (deadline : option Z) (clock : Z)
    (inbox : list (Z * message)) : outcome * Z * list (Z * message) :=
  match inbox with
  | [] =>
      match deadline with
      | None => (BlocksForever, clock, [])
      | Some d =>
          if negb (clock <? d) then (Raises timed_out, clock, [])
          else (Raises timed_out, clock + Z.max 0 (d - clock), [])
      end
  | (t, m) :: rest =>
      let received :=
        match examine self id m with
        | Raise e => (Raises e, Z.max clock t, rest)
        | Ok (Some data) => (Returns data, Z.max clock t, rest)
        | Ok None => await self id deadline (Z.max clock t) rest
        end in
      match deadline with
      | None => received
      | Some d =>
          if negb (clock <? d) then (Raises timed_out, clock, inbox)
          else
            let poll_timeout := Z.max 0 (d - clock) in
            if negb (t <=? clock + poll_timeout)
            then (Raises timed_out, clock + poll_timeout, inbox)
            else received
      end
  end.

(** [Event.wait]; [timeout] is in milliseconds. *)
Definition Event_wait (self : Event) (id : pyval) (timeout : option Z)
    (b : bus) : outcome * bus :=
  let id := py_str id in
  if negb (can_wait self) then (Raises ValueError, b)
  else
    match drain self id (now b) (arrivals b) with
    | (NotFound, inbox) =>
        let start_time := now b in
        let '(r, clock, inbox) :=
          await self id (Z.add start_time <$> timeout) start_time inbox in
        (r, {| now := clock; arrivals := inbox; published := published b |})
    | (r, inbox) =>
        (r, {| now := now b; arrivals := inbox; published := published b |})
    end.

(** ** Spawning *)

(** The command line [subprocess_with_queues] gives to [Popen]. *)
Definition child_command (executable path : string)
    (port_from_child heartbeat_server_port output_redirection_port
     broker_sub_port broker_pub_port : Z)
    (zlock_process_identifier_prefix : string) : list string :=
  [executable; "-u"; path; str_of_int port_from_child;
   str_of_int heartbeat_server_port; str_of_int output_redirection_port;
   str_of_int broker_sub_port; str_of_int broker_pub_port;
   zlock_process_identifier_prefix].

(** [sys.argv] in the interpreter started with that command line: the
    interpreter keeps the script and what follows it. *)
Definition sys_argv (command : list string) : list string :=
  match command with
  | _ :: "-u" :: script_and_args => script_and_args
  | _ :: script_and_args => script_and_args
  | [] => []
  end.

Record parent_connection : Type := {
  port_to_parent : Z;
  port_to_heartbeat_server : Z;
  output_redirection_port : Z;
  broker_sub_port : Z;
  broker_pub_port : Z;
  zlock_process_identifier_prefix : string;
}.

Definition argv_item (argv : list string) (i : nat) : result string :=
  match argv !! i with
  | Some s => Ok s
  | None => Raise IndexError
  end.

(** The reading of [sys.argv] that opens [setup_connection_with_parent]. *)
Definition read_argv (argv : list string) : result parent_connection :=
  bind (bind (argv_item argv 1) int_of_str) (fun a1 =>
  bind (bind (argv_item argv 2) int_of_str) (fun a2 =>
  bind (bind (argv_item argv 3) int_of_str) (fun a3 =>
  bind (bind (argv_item argv 4) int_of_str) (fun a4 =>
  bind (bind (argv_item argv 5) int_of_str) (fun a5 =>
  bind (argv_item argv 6) (fun a6 =>
  Ok {| port_to_parent := a1; port_to_heartbeat_server := a2;
        output_redirection_port := a3; broker_sub_port := a4;
        broker_pub_port := a5;
        zlock_process_identifier_prefix := a6 |})))))).

(** [if output_redirection_port:], the test that installs the output
    interceptors. *)
Definition redirects_output (c : parent_connection) : bool :=
  negb (output_redirection_port c =? 0).

End Runtime.

(** * Vocabulary of the properties *)

(** ** Validation *)

(** The two conversions the specification documents: a null payload is
    empty bytes for the raw and multipart kinds, and bare bytes are wrapped
    into a one-element list for the multipart kind. *)
Definition documented_conversion (k : wire_kind) (data : pyval) : pyval :=
  let data :=
    match k, data with
    | (Raw | Multipart), PNone => PBytes ""
    | _, _ => data
    end in
  match k, data with
  | Multipart, PBytes _ => PList [data]
  | _, _ => data
  end.

(** The type a payload must have for a kind: bytes, a text string, an
    iterable of bytes objects, anything. *)
Definition right_type (PY2 : bool) (k : wire_kind) (v : pyval) : bool :=
  match k with
  | Raw => is_bytes v
  | Text => is_str v
  | Multipart =>
      match py_iter PY2 v with
      | Ok parts => forallb is_bytes parts
      | Raise _ => false
      end
  | Pyobj => true
  end.

(** Validation as the specification words it: the documented conversions
    and nothing else, then a type error for a payload of the wrong type. *)
Definition validate (PY2 : bool) (k : wire_kind) (data : pyval) : result pyval :=
  let data := documented_conversion k data in
  if right_type PY2 k data then Ok data else Raise TypeError.

(** Under Python 2 the text kind has a conversion of its own: bytes are
    decoded as UTF-8. *)
Definition validate_py2_text (data : pyval) : result pyval :=
  match data with
  | PBytes b => bind (decode_utf8 b) (fun s => Ok (PStr s))
  | _ => validate true Text data
  end.

(** What one call may add to the log of sends: nothing, or the validated
    payload on one socket. *)
Definition sends_only (before after : list (nat * pyval)) (validated : result pyval)
    : Prop :=
  match validated with
  | Raise _ => after = before
  | Ok d => after = before \/ exists s, after = (before ++ [(s, d)])%list
  end.

(** ** Server and clients *)

(** The text of the error reply. *)
Definition error_text (format_exc : exn -> string) (e : exn) : string :=
  "The server had an unhandled exception whilst processing the request:"
    ++ String "010" (format_exc e).

(** The socket thread [tid] has cached in a client, if any. *)
Definition cached_sock (self : ZMQGet) (tid : nat) : option nat :=
  (get_local self !! tid) ≫= sock.

(** Whenever a thread has a socket, its [send] is bound.  [new_socket]
    establishes this for the four wire kinds. *)
Definition bound (self : ZMQGet) (tid : nat) : bool :=
  match get_local self !! tid with
  | Some l =>
      match sock l, send l with
      | Some _, None => false
      | _, _ => true
      end
  | None => true
  end.

(** The connection [new_socket] opens in [w]. *)
Definition reconnected (gethostbyname : string -> string) (h : string) (p : Z)
    (w : sockets) (payload : list (nat * pyval)) : sockets :=
  {| created := S (created w);
     connected := <[created w := (gethostbyname h, p)]> (connected w);
     sent := (sent w ++ payload)%list |}.

(** A process that has not created any socket yet. *)
Definition no_sockets : sockets :=
  {| created := 0; connected := ∅; sent := [] |}.

(** ** Heartbeat *)

(** An echo that comes within the second and is the bytes sent. *)
Definition echoed (pid : string) (b : beat) : bool :=
  match b with
  | Echo delay msg => (delay <=? 1000) && String.eqb msg pid
  | _ => false
  end.

(** No echo within the second, or other bytes than the ones sent. *)
Definition missed (pid : string) (b : beat) : bool :=
  match b with
  | NoEcho => true
  | Echo delay msg => negb ((delay <=? 1000) && String.eqb msg pid)
  | SendFails _ => false
  end.

(** The events of a cycle whose echo is right. *)
Definition cycle (pid : string) : list heartbeat_event :=
  [HSleep 1000; HSend pid; HPoll 1000; HRecv pid].

(** The events of the cycle whose echo is missed. *)
Definition last_cycle (pid : string) (b : beat) : list heartbeat_event :=
  match b with
  | Echo delay msg =>
      if delay <=? 1000
      then [HSleep 1000; HSend pid; HPoll 1000; HRecv msg]
      else [HSleep 1000; HSend pid; HPoll 1000]
  | _ => [HSleep 1000; HSend pid; HPoll 1000]
  end.

(** How the client ends once it has left the loop. *)
Definition ending (self : HeartbeatClient) (getpid : Z) (held : bool)
    : list heartbeat_event * heartbeat_status :=
  match hb_lock self with
  | Some lock =>
      if held then ([], WaitingForLock)
      else ([HAcquire lock; HKill getpid SIGTERM], Killed)
  | None => ([HKill getpid SIGTERM], Killed)
  end.

(** The event is the sending of a signal. *)
Definition is_kill (ev : heartbeat_event) : bool :=
  match ev with HKill _ _ => true | _ => false end.

(** ** Queues *)


(** The same queue with another state of the primary socket and of its
    lock. *)
Definition with_primary (inbox : list pyval) (lock : option nat)
    (q : ReadQueue) : ReadQueue :=
  {| sock_inbox := inbox; to_self_wire := to_self_wire q;
     socklock := lock; to_self_sock_lock := to_self_sock_lock q |}.

(** ** Events *)

(** A broker can be reached from the process: it runs one, it may create
    one, or it was told the ports of the one of its parent. *)
Definition broker_known (g : process) : bool :=
  match Broker_server_ports g with
  | Some _ => true
  | None =>
      match we_are_the_top_process g, Broker_instance g with
      | true, None => true
      | _, _ => false
      end
  end.

(** A byte string that is the encoding of a text string. *)
Definition is_text (s : string) : bool :=
  match utf8_chars s with Some _ => true | None => false end.

(** A message of the event named [n] as [post] makes them: the name frame
    is [n] and the id frame is UTF-8. *)
Definition of_event (n : string) (m : message) : bool :=
  String.eqb (name_frame m) n && is_text (id_frame m).

(** The clock after receiving, one after the other, messages that reach
    the socket at the given times. *)
Definition reached (clock : Z) (received : list (Z * message)) : Z :=
  fold_left (fun c tm => Z.max c tm.1) received clock.

(** A message of the event named [n] with another id than the one waited
    for. *)
Definition passed_over (n : string) (id : string) (tm : Z * message) : Prop :=
  of_event n tm.2 = true /\ id_frame tm.2 <> id.

(** Nothing more is there yet. *)
Definition nothing_before (clock : Z) (inbox : list (Z * message)) : Prop :=
  match inbox with
  | [] => True
  | (t, _) :: _ => clock < t
  end.

(** An event named with the bytes object [b"done"], made in mode "both"
    against a broker on ports 6000 and 6001. *)
Definition event_done : Event :=
  {| event_name := PBytes "done"; event_type := "both"; can_wait := true;
     can_post := true; sub := Some 6001; pub := Some 6000 |}.

(** The message of the event "done" with id [id] and data [data]. *)
Definition done_message (id : string) (data : pyval) : message :=
  {| name_frame := "done"; id_frame := id; data_frame := data |}.

(** The ids whose [str] is the same under both Pythons and never fails:
    [None], integers and text strings. *)
Definition plain_id (id : pyval) : bool :=
  match id with
  | PNone | PInt _ => true
  | PStr s => is_text s
  | _ => false
  end.

(** * More of the module *)

(** ** Server: construction and the example handler *)

(** [ZMQServer.__init__]: the protocol is looked at after the socket is
    bound; the server exists, and its accept loop runs, only for one of the
    four protocols. *)
Definition ZMQServer_init (port : Z) (type : string)
    (handle : pyval -> result pyval) : result ZMQServer :=
  if known_type type
  then Ok {| server_type := type; server_port := port; handler := handle |}
  else Raise ValueError.

(** [ZMQServer.handler] as the class has it, before a subclass overrides
    it. *)
Definition ZMQServer_handler (repr_other : pyval -> string)
    (request_data : pyval) : result pyval :=
  Ok (PStr (String.append "This is an example ZMQServer. Your request was "
              (String.append (py_str repr_other request_data) "."))).

(** The requests received and the replies sent in a trace of the accept
    loop. *)
Definition received (trace : list server_event) : list pyval :=
  trace ≫= fun ev => match ev with SRecv r => [r] | _ => [] end.

Definition replied (trace : list server_event) : list pyval :=
  trace ≫= fun ev => match ev with SSend r => [r] | _ => [] end.

(** A trace that is a sequence of turns: a receive, possibly an exception
    raised in a thread, one send. *)
Fixpoint alternates (trace : list server_event) : bool :=
  match trace with
  | [] => true
  | SRecv _ :: SSend _ :: rest => alternates rest
  | SRecv _ :: SRaiseInThread _ :: SSend _ :: rest => alternates rest
  | _ => false
  end.

(** The handler answers [request] with a sequence without frames on a
    server of the multipart protocol. *)
Definition empty_reply (self : ZMQServer) (request : pyval) : bool :=
  String.eqb (server_type self) "multipart"
  && match handler self request with
     | Ok response_data => no_frames response_data
     | Raise _ => false
     end.

(** ** Clients: the state of the cached sockets *)

(** The attributes [new_socket] sets for socket [s]. *)
Definition fresh_local (gethostbyname : string -> string) (h : string) (p : Z)
    (s : nat) : local :=
  {| host := Some (gethostbyname h); port := Some p; sock := Some s;
     poller := Some s; send := Some s; recv := Some s |}.

(** The client of protocol [k] in which thread [tid] has the attributes
    [l]. *)
Definition store_local (k : wire_kind) (locals : gmap nat local) (tid : nat)
    (l : local) : ZMQGet :=
  {| get_type := kind_name k; get_local := <[tid := l]> locals |}.

(** The same sockets with more payloads sent. *)
Definition with_sent (w : sockets) (payload : list (nat * pyval)) : sockets :=
  {| created := created w; connected := connected w;
     sent := (sent w ++ payload)%list |}.

(** The state of the sockets a client has cached: the socket of a thread
    is the one its [send] is bound to, it was created, it is connected to
    the host and port recorded with it, and no other thread has it. *)
Definition per_thread_sockets (self : ZMQGet) (w : sockets) : Prop :=
  forall tid l s,
    get_local self !! tid = Some l -> sock l = Some s ->
    send l = Some s
    /\ (s < created w)%nat
    /\ (exists h p, host l = Some h /\ port l = Some p
                    /\ connected w !! s = Some (h, p))
    /\ forall tid' l', tid' <> tid -> get_local self !! tid' = Some l' ->
                       sock l' <> Some s.

(** The socket thread [tid] has cached in a push client, if any. *)
Definition push_sock (self : ZMQPush) (tid : nat) : option nat :=
  (push_local self !! tid) ≫= sock.

(** The attributes [ZMQPush.new_socket] sets for socket [s] and one of the
    protocols it knows. *)
Definition fresh_push_local (gethostbyname : string -> string) (h : string)
    (p : Z) (s : nat) : local :=
  {| host := Some (gethostbyname h); port := Some p; sock := Some s;
     poller := None; send := Some s; recv := Some s |}.

(** The protocols [ZMQPush.new_socket] binds [send] for. *)
Definition push_kind (k : wire_kind) : bool :=
  match k with
  | Pyobj | Multipart | Raw => true
  | Text => false
  end.

(** ** Queues: critical sections and objects under way *)

(** The positions in which a thread holds the lock of [put], and the lock
    of [get]. *)
Definition inside_put (at_ : position) : bool :=
  match at_ with
  | Put_send _ | Put_leave => true
  | _ => false
  end.

Definition inside_get (at_ : position) : bool :=
  match at_ with
  | Get_poll _ | Get_recv | Get_leave _ => true
  | _ => false
  end.

(** Each lock is held by the thread that is inside the section it guards,
    and by no other. *)
Definition locks_owned (c : queue_state) : Prop :=
  forall tid,
    (to_self_sock_lock c.2 = Some tid <->
     exists at_, c.1 !! tid = Some at_ /\ inside_put at_ = true)
    /\ (socklock c.2 = Some tid <->
        exists at_, c.1 !! tid = Some at_ /\ inside_get at_ = true).

(** The object a thread inside [put] has not sent yet. *)
Definition to_send (at_ : position) : list pyval :=
  match at_ with
  | Put_enter obj | Put_send obj => [obj]
  | _ => []
  end.

(** The objects the threads have still to send. *)
Definition pending (threads : gmap nat position) : list pyval :=
  (map_to_list threads).*2 ≫= to_send.

(** A thread that is inside [put] or has returned. *)
Definition putting (at_ : position) : bool :=
  match at_ with
  | Put_enter _ | Put_send _ | Put_leave | Finished _ => true
  | _ => false
  end.

(** Every thread is inside [put] or has returned. *)
Definition all_putting (threads : gmap nat position) : Prop :=
  forall tid at_, threads !! tid = Some at_ -> putting at_ = true.

(** The objects that come from the peer in a schedule. *)
Definition from_peer (schedule : list action) : list pyval :=
  schedule ≫= fun a => match a with FromPeer obj => [obj] | _ => [] end.

(** How a step moves a thread in or out of a section and what it does to
    the lock of the section: nothing, acquire it free, release it. *)
Definition lock_step (inside : position -> bool) (tid : nat)
    (at_ at' : position) (lock lock' : option nat) : Prop :=
  (inside at' = inside at_ /\ lock' = lock)
  \/ (inside at_ = false /\ inside at' = true /\ lock = None
      /\ lock' = Some tid)
  \/ (inside at_ = true /\ inside at' = false /\ lock' = None).

(** ** Events: what a wait has taken *)

(** What a loop of [wait] has taken from the stream when it ends with
    result [r] and leaves [rest]: messages for other ids, and then the
    message it returns the data of, or the message it failed on. *)
Definition taken (PY2 : bool) (self : Event) (id : string)
    (inbox rest : list (Z * message)) (r : outcome) : Prop :=
  exists skipped,
    Forall (fun tm => id_frame tm.2 <> id) skipped
    /\ match r with
       | Returns v =>
           exists t m, inbox = (skipped ++ (t, m) :: rest)%list
                       /\ id_frame m = id /\ data_frame m = v
                       /\ text_equals PY2 (name_frame m) (event_name self)
                          = true
       | Raises e =>
           (e = timed_out /\ inbox = (skipped ++ rest)%list)
           \/ exists t m, inbox = (skipped ++ (t, m) :: rest)%list
                          /\ examine PY2 self id m = Raise e
       | _ => inbox = (skipped ++ rest)%list
       end.

(** ** Output interceptor *)

(** A text stream of the process: a real one, or an interceptor standing
    in for the stream it has found under its name. *)
Inductive stream : Type :=
| RealStream (name : string)
| Intercepted (streamname : string) (real_stream : stream)
    (local_object : nat) (port : Z).

Record OutputInterceptor : Type := {
  streamname : string;
  real_stream : stream;
  oi_local : nat;
  oi_port : Z;
}.

Definition as_stream (i : OutputInterceptor) : stream :=
  Intercepted (streamname i) (real_stream i) (oi_local i) (oi_port i).

(** The stream attributes of [sys], the class attribute
    [threadlocals_by_port] (with the entries whose local object an
    interceptor still holds), and, for each local object, the [sock]
    attribute of each thread. *)
Record interceptors : Type := {
  sys_streams : gmap string stream;
  threadlocals_by_port : gmap Z nat;
  thread_socks : gmap nat (gmap nat nat);
  local_objects : nat;
}.

(** [OutputInterceptor.__init__] *)
Definition OutputInterceptor_init (port : Z) (name : string)
    (st : interceptors) : result OutputInterceptor * interceptors :=
  match sys_streams st !! name with
  | None => (Raise AttributeError, st)
  | Some real =>
      let '(l, st) :=
        match threadlocals_by_port st !! port with
        | Some l => (l, st)
        | None =>
            (local_objects st,
             {| sys_streams := sys_streams st;
                threadlocals_by_port :=
                  <[port := local_objects st]> (threadlocals_by_port st);
                thread_socks := <[local_objects st := ∅]> (thread_socks st);
                local_objects := S (local_objects st) |})
        end in
      (Ok {| streamname := name; real_stream := real; oi_local := l;
             oi_port := port |}, st)
  end.

(** [connect] and [disconnect] *)
Definition OutputInterceptor_connect (self : OutputInterceptor)
    (st : interceptors) : interceptors :=
  {| sys_streams := <[streamname self := as_stream self]> (sys_streams st);
     threadlocals_by_port := threadlocals_by_port st;
     thread_socks := thread_socks st;
     local_objects := local_objects st |}.

Definition OutputInterceptor_disconnect (self : OutputInterceptor)
    (st : interceptors) : interceptors :=
  {| sys_streams := <[streamname self := real_stream self]> (sys_streams st);
     threadlocals_by_port := threadlocals_by_port st;
     thread_socks := thread_socks st;
     local_objects := local_objects st |}.

(** The second frame [write] sends for [s]: text is encoded, anything else
    goes as it is. *)
Definition written (s : pyval) : pyval :=
  match s with
  | PStr t => PBytes (encode_utf8 t)
  | _ => s
  end.

(** [OutputInterceptor.write] as run by thread [tid], with [new_socket]
    when the thread has no socket in the local object.  [send_multipart]
    takes bytes frames: for an [s] that is neither text nor bytes it
    raises [TypeError] and sends nothing, the socket being made all the
    same. *)
Definition OutputInterceptor_write (self : OutputInterceptor) (tid : nat)
    (s : pyval) (st : interceptors) (w : sockets)
    : result unit * interceptors * sockets :=
  let socks := default ∅ (thread_socks st !! oi_local self) in
  let '(sk, st, w) :=
    match socks !! tid with
    | Some sk => (sk, st, w)
    | None =>
        (created w,
         {| sys_streams := sys_streams st;
            threadlocals_by_port := threadlocals_by_port st;
            thread_socks :=
              <[oi_local self := <[tid := created w]> socks]> (thread_socks st);
            local_objects := local_objects st |},
         {| created := S (created w);
            connected := <[created w := ("127.0.0.1", oi_port self)]>
                           (connected w);
            sent := sent w |})
    end in
  if is_bytes (written s)
  then
    (Ok tt, st,
     {| created := created w; connected := connected w;
        sent := (sent w ++ [(sk, PList [PBytes (encode_utf8 (streamname self));
                                        written s])])%list |})
  else (Raise TypeError, st, w).

(** The four lines of [setup_connection_with_parent] that put the
    interceptors in place. *)
Definition install_interceptors (port : Z) (st : interceptors)
    : result (OutputInterceptor * OutputInterceptor) * interceptors :=
  match OutputInterceptor_init port "stdout" st with
  | (Raise e, st) => (Raise e, st)
  | (Ok stdout, st) =>
      match OutputInterceptor_init port "stderr" st with
      | (Raise e, st) => (Raise e, st)
      | (Ok stderr, st) =>
          (Ok (stdout, stderr),
           OutputInterceptor_connect stderr (OutputInterceptor_connect stdout st))
      end
  end.

(** A process with its two real streams and no interceptor yet. *)
Definition real_streams : interceptors :=
  {| sys_streams := {[ "stdout" := RealStream "stdout";
                       "stderr" := RealStream "stderr" ]};
     threadlocals_by_port := ∅; thread_socks := ∅; local_objects := 0 |}.

(** ** Spawning: the two sides of the handshake *)

(** [s.endswith(suffix)] *)
Fixpoint ends_with (s suffix : string) : bool :=
  String.eqb s suffix
  || match s with
     | EmptyString => false
     | String _ r => ends_with r suffix
     end.

(** The name [setup_connection_with_parent] gives to
    [set_client_process_name], if it calls it: [prefix] is the last
    argument of the command line and [current] the identifier the process
    has so far. *)
Definition inherited_process_name (prefix current : string) : option string :=
  if negb (String.eqb prefix "") then
    let prefix :=
      if negb (ends_with prefix "sub") then String.append prefix "sub"
      else prefix in
    if String.eqb current "" then Some prefix else None
  else None.

(** [HeartbeatServer.create_instance]: the instance is kept as its port;
    [fresh] is the port a new relay would bind. *)
Definition HeartbeatServer_create_instance (fresh : Z) (instance : option Z)
    : Z * option Z :=
  match instance with
  | None => (fresh, Some fresh)
  | Some port => (port, Some port)
  end.

(** ['tcp://127.0.0.1:%s' % port] *)
Definition local_address (port : string) : string :=
  String.append "tcp://127.0.0.1:" port.

(** What the parent has once the child has reported. *)
Record spawned : Type := {
  command : list string;
  to_child : string;
  from_child : Z;
}.

(** [subprocess_with_queues].  [port_from_child], [fresh_broker] and
    [fresh_heartbeat] are the ports the binds would give, [zlock] is the
    identifier prefix of the lock module when it is loaded, and [report]
    is what the child sends, with the time it takes in milliseconds. *)
Definition subprocess_with_queues (executable path : string)
    (output_redirection_port port_from_child : Z) (fresh_broker : Z * Z)
    (fresh_heartbeat : Z) (zlock : option string)
    (report : option (Z * string)) (g : process) (heartbeat : option Z)
    : result spawned * process * option Z :=
  let '(ports, g) := Broker_create_instance fresh_broker g in
  match ports with
  | None => (Raise TypeError, g, heartbeat)
  | Some (broker_sub_port, broker_pub_port) =>
      let '(heartbeat_server_port, heartbeat) :=
        HeartbeatServer_create_instance fresh_heartbeat heartbeat in
      let prefix := default "" zlock in
      let child :=
        child_command executable path port_from_child heartbeat_server_port
          output_redirection_port broker_sub_port broker_pub_port prefix in
      match report with
      | None =>
          (Raise (RuntimeError
                    "child process did not connect within the timeout."),
           g, heartbeat)
      | Some (delay, bytes) =>
          if negb (delay <=? 15000)
          then (Raise (RuntimeError
                         "child process did not connect within the timeout."),
                g, heartbeat)
          else
            match decode_utf8 bytes with
            | Raise e => (Raise e, g, heartbeat)
            | Ok port_to_child =>
                (Ok {| command := child;
                       to_child := local_address port_to_child;
                       from_child := port_from_child |}, g, heartbeat)
            end
      end
  end.

(** What the child has after [setup_connection_with_parent]. *)
Record connected_child : Type := {
  arguments : parent_connection;
  to_parent : string;
  reported : string;
  from_parent : Z;
  process_name : option string;
  heartbeat_client : HeartbeatClient;
}.

(** [setup_connection_with_parent] in a process started with [argv].
    [port_from_parent] is the port the bind would give, [current] the
    lock identifier the process has, [client] the heartbeat client of
    the process if it has one and [fresh_lock] the lock a new one would
    get. *)
Definition setup_connection_with_parent (argv : list string)
    (port_from_parent : Z) (current : string) (client : option HeartbeatClient)
    (fresh_lock : nat) (g : process) : result connected_child * process :=
  let g := {| we_are_the_top_process := false;
              Broker_instance := Broker_instance g;
              Broker_server_ports := Broker_server_ports g |} in
  match read_argv argv with
  | Raise e => (Raise e, g)
  | Ok c =>
      (Ok {| arguments := c;
             to_parent := local_address (str_of_int (port_to_parent c));
             reported := encode_utf8 (str_of_int port_from_parent);
             from_parent := port_from_parent;
             process_name :=
               inherited_process_name (zlock_process_identifier_prefix c)
                 current;
             heartbeat_client :=
               HeartbeatClient_create_instance client
                 (port_to_heartbeat_server c) fresh_lock |},
       Broker_set_server_ports (broker_sub_port c) (broker_pub_port c) g)
  end.

(** ** Starting a process class *)

(** The module file [Process.start] names to the child.  [basepath] and
    [extension] are what [os.path.splitext] gives for the file of the
    module, and [file_exists] is [os.path.exists]; the exception is the
    [NotImplementedError] of Python, given by its name. *)
Definition module_file_for_child (file_exists : string -> bool)
    (basepath extension : string) : result string :=
  let module_file := String.append basepath extension in
  let module_file :=
    if String.eqb extension ".pyc" then String.append basepath ".py"
    else module_file in
  let module_file :=
    if negb (file_exists module_file) then String.append basepath ".pyw"
    else module_file in
  if negb (file_exists module_file)
  then Raise (UserException "NotImplementedError")
  else Ok module_file.

(** * Properties *)

(** ** Printing and parsing integers *)

Lemma int_of_str_of_int (n : Z) : int_of_str (str_of_int n) = Ok n.
Proof.
  unfold int_of_str, str_of_int.
  rewrite NilZero.isi.
  - by rewrite DecimalZ.of_to.
  - destruct n as [|p|p]; simpl; try discriminate.
    intros [= H]. by apply DecimalPos.Unsigned.to_uint_nonnil in H.
  - destruct n as [|p|p]; simpl; try discriminate.
    intros [= H]. by apply DecimalPos.Unsigned.to_uint_nonnil in H.
Qed.

(** The decimal form of an integer is text. *)
Lemma string_of_uint_text (d : Decimal.uint) :
  is_text (NilEmpty.string_of_uint d) = true.
Proof.
  unfold is_text. induction d; cbn [NilEmpty.string_of_uint utf8_chars];
    try done;
    match goal with
    | |- context [byte_in 0 127 ?c] =>
        change (byte_in 0 127 c) with true; cbn iota
    end;
    by destruct (utf8_chars (NilEmpty.string_of_uint d)).
Qed.

Lemma str_of_int_is_text (n : Z) : is_text (str_of_int n) = true.
Proof.
  unfold str_of_int, NilZero.string_of_int, NilZero.string_of_uint.
  destruct (Z.to_int n) as [d|d]; [destruct d|];
    try apply string_of_uint_text; try done.
  unfold is_text. cbn [utf8_chars].
  change (byte_in 0 127 "-") with true. cbn iota.
  assert (is_text match d with
                  | Decimal.Nil => "0"
                  | _ => NilEmpty.string_of_uint d
                  end = true) as Hd
    by (destruct d; try apply string_of_uint_text; done).
  unfold is_text in Hd.
  by destruct (utf8_chars _).
Qed.

Lemma str_of_int_text (n : Z) : decode_utf8 (str_of_int n) = Ok (str_of_int n).
Proof.
  pose proof (str_of_int_is_text n) as H.
  unfold decode_utf8, is_text in *. by destruct (utf8_chars (str_of_int n)).
Qed.

(** A byte string of ASCII characters is the encoding of a text. *)
Lemma is_ascii_text (s : string) : is_ascii s = true -> is_text s = true.
Proof.
  unfold is_ascii, is_text. induction s as [|a s IH]; [done|].
  cbn [list_ascii_of_string forallb utf8_chars].
  intros H. apply andb_prop in H as [-> H]. specialize (IH H).
  by destruct (utf8_chars s).
Qed.

Lemma is_text_decode (s : string) : is_text s = true -> decode_utf8 s = Ok s.
Proof. unfold is_text, decode_utf8. by destruct (utf8_chars s). Qed.

(** ** Spawn argument vector *)

(** C7: the command line the parent builds and the reading of [sys.argv]
    in the child agree position by position: the child gets back the
    parent's receive port, the heartbeat relay port, the output
    redirection port (redirecting exactly when it is not 0), the broker's
    fan-in and fan-out ports and the lock identifier prefix, in that
    order. *)
Theorem spawn_arguments_agree (executable path : string)
    (port_from_child heartbeat_port redirection_port sub_port pub_port : Z)
    (prefix : string) :
  let connection :=
    {| port_to_parent := port_from_child;
       port_to_heartbeat_server := heartbeat_port;
       output_redirection_port := redirection_port;
       broker_sub_port := sub_port;
       broker_pub_port := pub_port;
       zlock_process_identifier_prefix := prefix |} in
  read_argv
    (sys_argv
       (child_command executable path port_from_child heartbeat_port
          redirection_port sub_port pub_port prefix))
  = Ok connection
  /\ redirects_output connection = negb (redirection_port =? 0).
Proof.
  split; [|reflexivity].
  unfold child_command, sys_argv, read_argv, argv_item; simpl.
  by rewrite !int_of_str_of_int.
Qed.

(** ** Payload validation *)

Lemma py_iter_raises (PY2 : bool) (v : pyval) (e : exn) :
  py_iter PY2 v = Raise e -> e = TypeError.
Proof. destruct v; cbn; try congruence. by case_match. Qed.

Lemma multipart_check (PY2 : bool) (v : pyval) :
  bind (py_iter PY2 v)
    (fun parts => if negb (forallb is_bytes parts) then Raise TypeError
                  else Ok v)
  = if right_type PY2 Multipart v then Ok v else Raise TypeError.
Proof.
  unfold right_type.
  destruct (py_iter PY2 v) as [parts|e] eqn:E; cbn.
  - by destruct (forallb is_bytes parts).
  - by rewrite (py_iter_raises _ _ _ E).
Qed.

Lemma typecheck_multipart (PY2 : bool) (data : pyval) :
  _typecheck_or_convert_data PY2 data "multipart" = validate PY2 Multipart data.
Proof.
  unfold _typecheck_or_convert_data, validate.
  change (String.eqb "multipart" "raw") with false.
  change (String.eqb "multipart" "string") with false.
  change (String.eqb "multipart" "multipart") with true.
  cbv iota. rewrite orb_true_r, andb_true_r, andb_true_l.
  rewrite multipart_check.
  by destruct data.
Qed.

Lemma typecheck_python3 (k : wire_kind) (data : pyval) :
  _typecheck_or_convert_data false data (kind_name k) = validate false k data.
Proof.
  destruct k; [| |apply typecheck_multipart|]; by destruct data.
Qed.

Lemma typecheck_python2 (k : wire_kind) (data : pyval) :
  _typecheck_or_convert_data true data (kind_name k) =
  match k with
  | Text => validate_py2_text data
  | _ => validate true k data
  end.
Proof.
  destruct k; [| |apply typecheck_multipart|]; destruct data; try reflexivity.
  cbn. by destruct (decode_utf8 b).
Qed.

(** The object kind takes every payload as it is. *)
Lemma typecheck_pyobj (PY2 : bool) (data : pyval) :
  _typecheck_or_convert_data PY2 data "pyobj" = Ok data.
Proof. by destruct data. Qed.

(** An unknown protocol name is refused whatever the payload. *)
Lemma typecheck_unknown_type (PY2 : bool) (data : pyval) (type : string) :
  known_type type = false ->
  _typecheck_or_convert_data PY2 data type = Raise ValueError.
Proof.
  unfold known_type, _typecheck_or_convert_data.
  intros H. repeat (apply orb_false_elim in H as [H ?]).
  by repeat match goal with E : String.eqb _ _ = false |- _ => rewrite E; clear E end;
     rewrite ?andb_false_r, ?andb_false_l; cbn.
Qed.

Lemma get_validates_first (PY2 : bool) (gethostbyname : string -> string)
    (self : ZMQGet) (tid : nat) (p : Z) (h : string) (data : pyval)
    (timeout : Z) (x : exchange) (w : sockets) :
  let '(r, _, w') := ZMQGet_call PY2 gethostbyname self tid p h data timeout x w in
  sends_only (sent w) (sent w') (_typecheck_or_convert_data PY2 data (get_type self))
  /\ (known_type (get_type self) = true ->
      forall e, _typecheck_or_convert_data PY2 data (get_type self) = Raise e ->
                r = Raise e).
Proof.
  unfold ZMQGet_call, new_socket, sends_only.
  destruct (known_type (get_type self)) eqn:K.
  - destruct (_typecheck_or_convert_data PY2 data (get_type self)) eqn:T;
      repeat case_match; simplify_eq/=; split; eauto; congruence.
  - rewrite (typecheck_unknown_type _ _ _ K).
    repeat case_match; simplify_eq/=; split; eauto; congruence.
Qed.

Lemma push_validates_first (PY2 : bool) (gethostbyname : string -> string)
    (self : ZMQPush) (tid : nat) (p : Z) (h : string) (data : pyval)
    (failure : option exn) (w : sockets) :
  let '(r, _, w') := ZMQPush_call PY2 gethostbyname self tid p h data failure w in
  sends_only (sent w) (sent w') (_typecheck_or_convert_data PY2 data (push_type self))
  /\ forall e, _typecheck_or_convert_data PY2 data (push_type self) = Raise e ->
               r = Raise e.
Proof.
  unfold ZMQPush_call, push_new_socket, sends_only.
  destruct (_typecheck_or_convert_data PY2 data (push_type self)) eqn:T;
    repeat case_match; simplify_eq/=; split; eauto; congruence.
Qed.

Example typecheck_raw_none (PY2 : bool) :
  _typecheck_or_convert_data PY2 PNone "raw" = Ok (PBytes "").
Proof. reflexivity. Qed.

Example typecheck_raw_text (PY2 : bool) :
  _typecheck_or_convert_data PY2 (PStr "abc") "raw" = Raise TypeError.
Proof. reflexivity. Qed.

Example typecheck_multipart_bytes (PY2 : bool) :
  _typecheck_or_convert_data PY2 (PBytes "ab") "multipart"
  = Ok (PList [PBytes "ab"]).
Proof. reflexivity. Qed.

Example typecheck_multipart_none (PY2 : bool) :
  _typecheck_or_convert_data PY2 PNone "multipart" = Ok (PList [PBytes ""]).
Proof. reflexivity. Qed.

Example typecheck_multipart_int (PY2 : bool) :
  _typecheck_or_convert_data PY2 (PInt 5) "multipart" = Raise TypeError.
Proof. reflexivity. Qed.

Example typecheck_multipart_mixed (PY2 : bool) :
  _typecheck_or_convert_data PY2 (PList [PBytes "a"; PStr "b"]) "multipart"
  = Raise TypeError.
Proof. reflexivity. Qed.

Example typecheck_string_bytes_python3 :
  _typecheck_or_convert_data false (PBytes "ab") "string" = Raise TypeError.
Proof. reflexivity. Qed.

Example typecheck_string_bytes_python2_invalid :
  _typecheck_or_convert_data true (PBytes (String "255" "")) "string"
  = Raise UnicodeDecodeError.
Proof. reflexivity. Qed.

Example utf8_chars_two_bytes :
  utf8_chars (String "195" (String "169" "a"))
  = Some [String "195" (String "169" ""); "a"].
Proof. reflexivity. Qed.

Example utf8_chars_overlong :
  utf8_chars (String "192" (String "128" "")) = None.
Proof. reflexivity. Qed.

(** The multipart check is on the items: an iterable without items passes,
    also an empty text string. *)
Example typecheck_multipart_empty_text (PY2 : bool) :
  _typecheck_or_convert_data PY2 (PStr "") "multipart" = Ok (PStr "").
Proof. reflexivity. Qed.

(** C3, as amended: validation comes before any send, a payload of the
    wrong type raises a type error and nothing is converted, but for null
    to empty bytes (raw, multipart), bare bytes wrapped into a one-element
    list (multipart) and, under Python 2 only, bytes decoded as UTF-8 for
    the text kind. *)
Theorem validation_before_send (PY2 : bool) (gethostbyname : string -> string)
    (k : wire_kind) (data : pyval) :
  _typecheck_or_convert_data PY2 data (kind_name k) =
    (if PY2 then
       match k with
       | Text => validate_py2_text data
       | _ => validate true k data
       end
     else validate false k data)
  /\ (forall locals tid p h timeout x w,
        let self := {| get_type := kind_name k; get_local := locals |} in
        let '(r, _, w') :=
          ZMQGet_call PY2 gethostbyname self tid p h data timeout x w in
        sends_only (sent w) (sent w')
          (_typecheck_or_convert_data PY2 data (kind_name k))
        /\ forall e, _typecheck_or_convert_data PY2 data (kind_name k) = Raise e ->
                     r = Raise e)
  /\ (forall locals tid p h failure w,
        let self := {| push_type := kind_name k; push_local := locals |} in
        let '(r, _, w') :=
          ZMQPush_call PY2 gethostbyname self tid p h data failure w in
        sends_only (sent w) (sent w')
          (_typecheck_or_convert_data PY2 data (kind_name k))
        /\ forall e, _typecheck_or_convert_data PY2 data (kind_name k) = Raise e ->
                     r = Raise e).
Proof.
  split; [|split].
  - destruct PY2; [apply typecheck_python2 | apply typecheck_python3].
  - intros locals tid p h timeout x w self.
    pose proof (get_validates_first PY2 gethostbyname self tid p h data
                  timeout x w) as H.
    destruct (ZMQGet_call _ _ _ _ _ _ _ _ _ _) as [[r self'] w'].
    destruct H as [H1 H2]. split; [exact H1|].
    apply H2. by destruct k.
  - intros locals tid p h failure w self.
    pose proof (push_validates_first PY2 gethostbyname self tid p h data
                  failure w) as H.
    by destruct (ZMQPush_call _ _ _ _ _ _ _ _ _) as [[r self'] w'].
Qed.

(** C3, as stated, fails under Python 2: bytes given to the text kind are
    neither refused nor left as they are. *)
Lemma validation_python2_decodes :
  validate true Text (PBytes "a") = Raise TypeError
  /\ _typecheck_or_convert_data true (PBytes "a") (kind_name Text) = Ok (PStr "a")
  /\ _typecheck_or_convert_data true (PBytes "a") (kind_name Text)
     <> validate true Text (PBytes "a").
Proof. repeat split. discriminate. Qed.

(** ** Server: a handler that raises *)

(** The error reply has the form of its wire kind and carries the
    description of the failure. *)
Lemma error_response_kind (format_exc : exn -> string)
    (repr_other : pyval -> string) (k : wire_kind) (e : exn) :
  error_response format_exc repr_other (kind_name k) e =
  match k with
  | Raw => PBytes (error_text format_exc e)
  | Text => PStr (error_text format_exc e)
  | Multipart => PList [PBytes (error_text format_exc e)]
  | Pyobj => PExc (ZMQError (error_text format_exc e))
  end.
Proof. by destruct k. Qed.

Lemma error_response_valid (PY2 : bool) (format_exc : exn -> string)
    (repr_other : pyval -> string) (k : wire_kind) (e : exn) :
  _typecheck_or_convert_data PY2
    (error_response format_exc repr_other (kind_name k) e) (kind_name k)
  = Ok (error_response format_exc repr_other (kind_name k) e).
Proof. rewrite error_response_kind. by destruct k, PY2. Qed.

(** The error reply always has a frame: its send does not fail on it. *)
Lemma error_response_sendable (format_exc : exn -> string)
    (repr_other : pyval -> string) (type : string) (e : exn) :
  send_raises type (error_response format_exc repr_other type e) = None.
Proof.
  unfold send_raises, error_response.
  destruct (String.eqb_spec type "multipart") as [->|]; [|done].
  reflexivity.
Qed.

(** One turn of the accept loop on a request the handler fails on. *)
Lemma mainloop_handler_raises (PY2 : bool) (format_exc : exn -> string)
    (repr_other : pyval -> string) (self : ZMQServer) (request : pyval)
    (e : exn) (rest : list (result pyval)) :
  handler self request = Raise e ->
  mainloop PY2 format_exc repr_other self (Ok request :: rest) =
  (SRecv request :: SRaiseInThread e
     :: SSend (error_response format_exc repr_other (server_type self) e)
     :: (mainloop PY2 format_exc repr_other self rest).1,
   (mainloop PY2 format_exc repr_other self rest).2).
Proof.
  intros H. cbn [mainloop]. rewrite H. cbn [bind].
  rewrite error_response_sendable. cbn.
  by destruct (mainloop PY2 format_exc repr_other self rest).
Qed.

(** C5: for every wire kind, when the handler raises on a request, the
    server signals the exception in a thread of its own, sends exactly one
    reply, which is a valid payload of the configured kind and carries the
    description of the error, and goes on with the following requests. *)
Theorem server_replies_when_handler_raises (PY2 : bool)
    (format_exc : exn -> string) (repr_other : pyval -> string)
    (k : wire_kind) (port : Z) (handle : pyval -> result pyval)
    (request : pyval) (e : exn) (rest : list (result pyval)) :
  handle request = Raise e ->
  let self := {| server_type := kind_name k; server_port := port;
                 handler := handle |} in
  let reply :=
    match k with
    | Raw => PBytes (error_text format_exc e)
    | Text => PStr (error_text format_exc e)
    | Multipart => PList [PBytes (error_text format_exc e)]
    | Pyobj => PExc (ZMQError (error_text format_exc e))
    end in
  mainloop PY2 format_exc repr_other self (Ok request :: rest) =
    (SRecv request :: SRaiseInThread e :: SSend reply
       :: (mainloop PY2 format_exc repr_other self rest).1,
     (mainloop PY2 format_exc repr_other self rest).2)
  /\ _typecheck_or_convert_data PY2 reply (kind_name k) = Ok reply.
Proof.
  intros H self reply. split.
  - rewrite (mainloop_handler_raises _ _ _ self request e rest H).
    unfold reply. by rewrite <- (error_response_kind _ repr_other).
  - unfold reply. rewrite <- (error_response_kind _ repr_other).
    apply error_response_valid.
Qed.

(** An instance: a raw server whose handler fails on every request answers
    two requests in a row and waits for the third. *)
Lemma server_replies_when_handler_raises_witness :
  let handle := fun _ : pyval => Raise (A := pyval) (UserException "Boom") in
  let self := {| server_type := "raw"; server_port := 7000; handler := handle |} in
  handle PNone = Raise (UserException "Boom")
  /\ (mainloop false (fun _ => "tb") (fun _ => "") self [Ok PNone; Ok (PInt 1)]).2
     = InRecv.
Proof.
  intros handle self. split; [reflexivity|].
  pose proof (server_replies_when_handler_raises false (fun _ => "tb")
                (fun _ => "") Raw 7000 handle PNone (UserException "Boom")
                [Ok (PInt 1)] eq_refl) as [H _].
  change (kind_name Raw) with "raw" in H. fold self in H.
  rewrite H. reflexivity.
Defined.

(** ** Request/reply client: failures and reconnection *)

Lemma await_reply_silent (timeout : Z) (x : exchange) :
  poll timeout x = false ->
  await_reply timeout x = Raise (TimeoutError "No response from server: timed out").
Proof. unfold await_reply. by intros ->. Qed.

(** With a negative timeout the poll has no limit: a reply is received
    however late it is ready. *)
Lemma await_reply_no_limit (timeout delay : Z) (x : exchange) (v : pyval) :
  timeout < 0 -> reply x = Some (delay, Ok v) -> is_exception v = false ->
  await_reply timeout x = Ok v.
Proof.
  unfold await_reply, poll. intros Ht -> Hv.
  rewrite (proj2 (Z.ltb_lt _ _) Ht). by destruct v.
Qed.

(** A poll with a limit finds nothing when no reply comes or when the
    reply comes after the limit. *)
Lemma poll_late (timeout : Z) (x : exchange) :
  0 <= timeout ->
  (forall delay r, reply x = Some (delay, r) -> timeout < delay) ->
  poll timeout x = false.
Proof.
  intros T L. unfold poll. destruct (reply x) as [[delay r]|]; [|done].
  specialize (L delay r eq_refl).
  apply orb_false_intro; [apply Z.ltb_ge|apply Z.leb_gt]; lia.
Qed.

Lemma await_reply_value (timeout delay : Z) (x : exchange) (v : pyval) :
  reply x = Some (delay, Ok v) -> delay <= timeout -> is_exception v = false ->
  await_reply timeout x = Ok v.
Proof.
  unfold await_reply, poll. intros -> Hd Hv.
  rewrite (proj2 (Z.leb_le _ _) Hd), orb_true_r. by destruct v.
Qed.

Lemma await_reply_exception (timeout delay : Z) (x : exchange) (e : exn) :
  reply x = Some (delay, Ok (PExc e)) -> delay <= timeout ->
  await_reply timeout x = Raise e.
Proof.
  unfold await_reply, poll. intros -> Hd.
  by rewrite (proj2 (Z.leb_le _ _) Hd), orb_true_r.
Qed.

Section Client.

Variable PY2 : bool.
Variable gethostbyname : string -> string.

Local Abbreviation call := (ZMQGet_call PY2 gethostbyname).

(** A call that fails after validation leaves the thread without
    socket. *)
Lemma failed_call_discards (self self1 : ZMQGet) (tid : nat) (p : Z)
    (h : string) (data d : pyval) (timeout : Z) (x : exchange)
    (w w1 : sockets) (e : exn) :
  _typecheck_or_convert_data PY2 data (get_type self) = Ok d ->
  call self tid p h data timeout x w = (Raise e, self1, w1) ->
  get_type self1 = get_type self /\ cached_sock self1 tid = None.
Proof.
  intros T. unfold ZMQGet_call, new_socket, cached_sock.
  destruct (known_type (get_type self)) eqn:K.
  - rewrite T. repeat case_match; simplify_eq/=; intros [= <- <- <-]; cbn;
      by rewrite lookup_insert_eq.
  - by rewrite (typecheck_unknown_type _ _ _ K) in T.
Qed.

(** A call by a thread without socket opens a new connection first. *)
Lemma call_without_socket (k : wire_kind) (locals : gmap nat local)
    (tid : nat) (p : Z) (h : string) (data d : pyval) (timeout : Z)
    (x : exchange) (w : sockets) :
  let self := {| get_type := kind_name k; get_local := locals |} in
  cached_sock self tid = None ->
  _typecheck_or_convert_data PY2 data (kind_name k) = Ok d ->
  send_error x = None ->
  exists self1,
    call self tid p h data timeout x w =
      (await_reply timeout x, self1,
       reconnected gethostbyname h p w [(created w, d)])
    /\ get_type self1 = kind_name k
    /\ cached_sock self1 tid =
       match await_reply timeout x with
       | Ok _ => Some (created w)
       | Raise _ => None
       end
    /\ bound self1 tid = true.
Proof.
  intros self C T S.
  unfold ZMQGet_call, new_socket, cached_sock, bound, reconnected in *.
  cbn [get_type get_local self] in *.
  assert (needs_new_socket gethostbyname
            (default no_attributes (locals !! tid)) h p = true) as ->.
  { unfold needs_new_socket. destruct (locals !! tid) as [l|]; cbn in *;
      by rewrite ?C. }
  assert (known_type (kind_name k) = true) as -> by by destruct k.
  rewrite T, S. cbn.
  destruct (await_reply timeout x); eexists; (split; [reflexivity|]); cbn;
    by rewrite lookup_insert_eq.
Qed.

(** C2: for every wire kind, a [get] with a timeout that is not negative,
    whose request was sent and to which no reply comes within the timeout
    (none at all, or one that is ready later), fails with the timeout
    error and leaves the calling thread without socket; the next [get] of
    that thread to the same host and port opens a new connection, sends on
    it, and returns the reply when one comes in time. *)
Theorem get_timeout_discards_and_reconnects (k : wire_kind)
    (locals : gmap nat local) (tid : nat) (p : Z) (h : string)
    (data d : pyval) (timeout : Z) (x : exchange) (w : sockets) :
  let self := {| get_type := kind_name k; get_local := locals |} in
  bound self tid = true ->
  _typecheck_or_convert_data PY2 data (kind_name k) = Ok d ->
  send_error x = None ->
  0 <= timeout ->
  (forall delay r, reply x = Some (delay, r) -> timeout < delay) ->
  exists self1 w1,
    call self tid p h data timeout x w =
      (Raise (TimeoutError "No response from server: timed out"), self1, w1)
    /\ cached_sock self1 tid = None
    /\ forall data2 d2 timeout2 delay response,
         _typecheck_or_convert_data PY2 data2 (kind_name k) = Ok d2 ->
         is_exception response = false ->
         0 <= delay <= timeout2 ->
         let x2 := {| send_error := None;
                      reply := Some (delay, Ok response) |} in
         exists self2,
           call self1 tid p h data2 timeout2 x2 w1 =
             (Ok response, self2,
              reconnected gethostbyname h p w1 [(created w1, d2)])
           /\ cached_sock self2 tid = Some (created w1).
Proof.
  intros self B T S Hl Late. pose proof (poll_late timeout x Hl Late) as P.
  destruct (call self tid p h data timeout x w) as [[r self1] w1] eqn:E.
  assert (r = Raise (TimeoutError "No response from server: timed out")) as ->.
  { revert E. unfold ZMQGet_call, new_socket, bound in *.
    cbn [get_type get_local self] in *.
    assert (known_type (kind_name k) = true) as -> by by destruct k.
    rewrite T, S, (await_reply_silent _ _ P).
    unfold needs_new_socket.
    destruct (locals !! tid) as [[ho po [so|] pl [se|] re]|]; cbn in *;
      try discriminate B;
      repeat case_match; simplify_eq/=; by intros [= <- <- <-]. }
  exists self1, w1. split; [done|].
  destruct (failed_call_discards self self1 tid p h data d timeout x w w1 _ T E)
    as [Ty C].
  split; [done|].
  intros data2 d2 timeout2 delay response T2 V [_ D] x2.
  destruct self1 as [type1 locals1]. cbn in Ty. subst type1.
  destruct (call_without_socket k locals1 tid p h data2 d2 timeout2 x2 w1
              C T2 eq_refl) as (self2 & E2 & _ & C2 & _).
  rewrite (await_reply_value timeout2 delay x2 response eq_refl D V) in E2, C2.
  by exists self2.
Qed.

(** C9: for the object kind, a reply that comes in time and is an
    exception value is raised in the caller and the calling thread is left
    without socket, so that its next call to the same host and port opens
    a new connection first. *)
Theorem get_exception_reply_discards (locals : gmap nat local) (tid : nat)
    (p : Z) (h : string) (data : pyval) (timeout delay : Z) (x : exchange)
    (w : sockets) (e : exn) :
  let self := {| get_type := kind_name Pyobj; get_local := locals |} in
  bound self tid = true ->
  send_error x = None ->
  reply x = Some (delay, Ok (PExc e)) ->
  delay <= timeout ->
  exists self1 w1,
    call self tid p h data timeout x w = (Raise e, self1, w1)
    /\ cached_sock self1 tid = None
    /\ forall data2 timeout2 x2,
         send_error x2 = None ->
         exists self2,
           call self1 tid p h data2 timeout2 x2 w1 =
             (await_reply timeout2 x2, self2,
              reconnected gethostbyname h p w1 [(created w1, data2)]).
Proof.
  intros self B S R D.
  destruct (call self tid p h data timeout x w) as [[r self1] w1] eqn:E.
  assert (r = Raise e) as ->.
  { revert E. unfold ZMQGet_call, new_socket, bound in *.
    cbn [get_type get_local self kind_name] in *.
    rewrite typecheck_pyobj.
    change (known_type "pyobj") with true.
    rewrite S, (await_reply_exception _ _ _ _ R D).
    unfold needs_new_socket.
    destruct (locals !! tid) as [[ho po [so|] pl [se|] re]|]; cbn in *;
      try discriminate B;
      repeat case_match; simplify_eq/=; by intros [= <- <- <-]. }
  exists self1, w1. split; [done|].
  destruct (failed_call_discards self self1 tid p h data data timeout x w w1 _
              (typecheck_pyobj _ _) E) as [Ty C].
  split; [done|].
  intros data2 timeout2 x2 S2.
  destruct self1 as [type1 locals1]. cbn in Ty. subst type1.
  destruct (call_without_socket Pyobj locals1 tid p h data2 data2 timeout2 x2
              w1 C (typecheck_pyobj _ _) S2) as (self2 & E2 & _).
  by exists self2.
Qed.

End Client.

(** [bound] holds of a new client and is kept by every call of a client of
    one of the four wire kinds. *)
Lemma bound_initially (type : string) (tid : nat) :
  bound {| get_type := type; get_local := ∅ |} tid = true.
Proof. unfold bound. cbn. by rewrite lookup_empty. Qed.

Lemma call_keeps_bound (PY2 : bool) (gethostbyname : string -> string)
    (k : wire_kind) (locals : gmap nat local) (tid : nat) (p : Z) (h : string)
    (data : pyval) (timeout : Z) (x : exchange) (w : sockets) :
  let self := {| get_type := kind_name k; get_local := locals |} in
  bound self tid = true ->
  bound (ZMQGet_call PY2 gethostbyname self tid p h data timeout x w).1.2 tid
  = true.
Proof.
  intros self B.
  assert (exists r l w',
             ZMQGet_call PY2 gethostbyname self tid p h data timeout x w
             = (r, {| get_type := kind_name k;
                      get_local := <[tid := l]> locals |}, w')
             /\ (is_Some (sock l) -> is_Some (send l))) as (r & l & w' & -> & H).
  { unfold ZMQGet_call, new_socket, bound, needs_new_socket in *.
    cbn [get_type get_local self] in *.
    assert (known_type (kind_name k) = true) as -> by by destruct k.
    destruct (locals !! tid) as [[ho po [so|] pl [se|] re]|]; cbn in *;
      try discriminate B;
      repeat case_match; simplify_eq/=;
      eexists _, _, _; (split; [reflexivity|]); cbn; eauto;
      by intros [? [=]]. }
  unfold bound. cbn. rewrite lookup_insert_eq.
  destruct (sock l), (send l); try done.
  by destruct H as [? [=]].
Qed.

(** An instance: a text request to a server that answers after five
    seconds, with a timeout of one second. *)
Lemma get_timeout_discards_and_reconnects_witness :
  exists self1 w1,
    ZMQGet_call false (fun h => h) {| get_type := "string"; get_local := ∅ |}
      0%nat 5555 "localhost" (PStr "ping") 1000
      {| send_error := None; reply := Some (5000, Ok (PStr "pong")) |}
      no_sockets
    = (Raise (TimeoutError "No response from server: timed out"), self1, w1)
    /\ cached_sock self1 0 = None.
Proof.
  destruct (get_timeout_discards_and_reconnects false (fun h => h) Text ∅
              0%nat 5555 "localhost" (PStr "ping") (PStr "ping") 1000
              {| send_error := None; reply := Some (5000, Ok (PStr "pong")) |}
              no_sockets (bound_initially _ _) eq_refl eq_refl
              ltac:(lia) ltac:(intros delay r [= <- <-]; lia))
    as (self1 & w1 & E & C & _).
  by exists self1, w1.
Defined.

(** An instance: an object request answered at once by an exception. *)
Lemma get_exception_reply_discards_witness :
  exists self1 w1,
    ZMQGet_call false (fun h => h) {| get_type := "pyobj"; get_local := ∅ |}
      0%nat 5555 "localhost" (PInt 3) 1000
      {| send_error := None;
         reply := Some (20, Ok (PExc (ZMQError "refused"))) |}
      no_sockets
    = (Raise (ZMQError "refused"), self1, w1)
    /\ cached_sock self1 0 = None.
Proof.
  destruct (get_exception_reply_discards false (fun h => h) ∅
              0%nat 5555 "localhost" (PInt 3) 1000 20
              {| send_error := None;
                 reply := Some (20, Ok (PExc (ZMQError "refused"))) |}
              no_sockets (ZMQError "refused") (bound_initially _ _) eq_refl
              eq_refl ltac:(lia))
    as (self1 & w1 & E & C & _).
  by exists self1, w1.
Defined.

(** ** Heartbeat client *)

Lemma heartbeat_loop_echoed (pid : string) (good rest : list beat) :
  forallb (echoed pid) good = true ->
  heartbeat_loop pid (good ++ rest) =
  ((good ≫= fun _ => cycle pid) ++ (heartbeat_loop pid rest).1,
   (heartbeat_loop pid rest).2)%list.
Proof.
  induction good as [|b good IH]; cbn [forallb]; intros H.
  - cbn. by destruct (heartbeat_loop pid rest).
  - apply andb_prop in H as [Hb Hg]. specialize (IH Hg).
    destruct b as [e| |delay msg]; try discriminate Hb.
    cbn in Hb. apply andb_prop in Hb as [Hd Hm].
    apply String.eqb_eq in Hm as ->.
    cbn [app heartbeat_loop]. rewrite Hd, String.eqb_refl, IH. by cbn.
Qed.

Lemma heartbeat_loop_missed (pid : string) (bad : beat) (rest : list beat) :
  missed pid bad = true ->
  heartbeat_loop pid (bad :: rest) = (last_cycle pid bad, Break).
Proof.
  destruct bad as [e| |delay msg]; cbn; try done.
  destruct (delay <=? 1000); cbn; [|done].
  by intros ->.
Qed.

(** A send that raises ends the thread: the exception leaves the loop and
    no signal is sent. *)
Lemma heartbeat_send_raises (self : HeartbeatClient) (getpid : Z) (held : bool)
    (good rest : list beat) (e : exn) :
  forallb (echoed (str_of_int getpid)) good = true ->
  heartbeat_mainloop self getpid held (good ++ SendFails e :: rest) =
  (((good ≫= fun _ => cycle (str_of_int getpid)) ++ [HSleep 1000])%list,
   ThreadDied e).
Proof.
  intros H. unfold heartbeat_mainloop, encode_utf8.
  by rewrite (heartbeat_loop_echoed _ _ _ H).
Qed.

(** C1, as amended: each cycle sleeps one second, sends the process id and
    polls one second for the echo; while every echo comes in time and is
    the bytes sent the loop goes on and no signal is sent; at the first
    cycle whose echo is late, missing or different the client writes
    "Heartbeat failure" and sends SIGTERM to its own process: after
    acquiring its kill lock when it has one (waiting for it while another
    thread holds it), and at once when its lock is [None]. *)
Theorem heartbeat_kills_on_first_miss (self : HeartbeatClient) (getpid : Z)
    (held : bool) (good : list beat) (bad : beat) (rest : list beat) :
  let pid := str_of_int getpid in
  forallb (echoed pid) good = true ->
  missed pid bad = true ->
  heartbeat_mainloop self getpid held good =
    (good ≫= fun _ => cycle pid, Beating)
  /\ existsb is_kill (good ≫= fun _ => cycle pid) = false
  /\ heartbeat_mainloop self getpid held (good ++ bad :: rest) =
       (((good ≫= fun _ => cycle pid) ++ last_cycle pid bad
           ++ [HStderr (String.append "Heartbeat failure" (String "010" ""))]
           ++ (ending self getpid held).1)%list,
        (ending self getpid held).2).
Proof.
  intros pid G B. split; [|split].
  - unfold heartbeat_mainloop, encode_utf8. fold pid.
    rewrite <- (app_nil_r good) at 1.
    rewrite (heartbeat_loop_echoed _ _ _ G). cbn. by rewrite app_nil_r.
  - clear. induction good as [|b good IH]; [done|]. exact IH.
  - unfold heartbeat_mainloop, encode_utf8, ending. fold pid.
    rewrite (heartbeat_loop_echoed _ _ _ G), (heartbeat_loop_missed _ _ _ B).
    cbn [fst snd].
    destruct (hb_lock self) as [lock|]; [destruct held|]; cbn [fst snd];
      by rewrite <- ?app_assoc, ?app_nil_r.
Qed.

(** An instance: two echoes, then silence, in process 42 with lock 7. *)
Lemma heartbeat_kills_on_first_miss_witness :
  heartbeat_mainloop {| hb_lock := Some 7%nat; hb_server_port := 5000 |} 42
    false [Echo 3 "42"; Echo 1000 "42"; NoEcho] =
  ([HSleep 1000; HSend "42"; HPoll 1000; HRecv "42";
    HSleep 1000; HSend "42"; HPoll 1000; HRecv "42";
    HSleep 1000; HSend "42"; HPoll 1000;
    HStderr (String.append "Heartbeat failure" (String "010" ""));
    HAcquire 7; HKill 42 SIGTERM], Killed).
Proof.
  exact (proj2 (proj2
    (heartbeat_kills_on_first_miss
       {| hb_lock := Some 7%nat; hb_server_port := 5000 |} 42 false
       [Echo 3 "42"; Echo 1000 "42"] NoEcho [] eq_refl eq_refl))).
Defined.

(** C1, as stated, fails: a client whose lock is [None] sends the signal
    without acquiring any lock, and a send that raises ends the thread
    without any signal. *)
Lemma heartbeat_without_lock_or_kill :
  heartbeat_mainloop {| hb_lock := None; hb_server_port := 5000 |} 42 false
    [NoEcho]
  = ([HSleep 1000; HSend "42"; HPoll 1000;
      HStderr (String.append "Heartbeat failure" (String "010" ""));
      HKill 42 SIGTERM], Killed)
  /\ heartbeat_mainloop {| hb_lock := Some 7%nat; hb_server_port := 5000 |} 42
       false [SendFails Again]
     = ([HSleep 1000], ThreadDied Again).
Proof. split; reflexivity. Qed.

(** ** Read/write channel *)



Section Unblocking.

Variables (getter putter : nat) (obj : pyval).
Variable threads : gmap nat position.
Variable q : ReadQueue.

Hypothesis distinct : getter ≠ putter.
Hypothesis getter_in_recv : threads !! getter = Some Get_recv.
Hypothesis putter_at_put : threads !! putter = Some (Put_enter obj).
Hypothesis getter_holds_socklock : socklock q = Some getter.
Hypothesis nothing_to_receive : sock_inbox q = [] /\ to_self_wire q = [].
Hypothesis put_lock_free : to_self_sock_lock q = None.




End Unblocking.




(** ** Events: modes *)

Lemma type_in_spec (type : string) (allowed : list string) :
  type_in type allowed = true <-> In type allowed.
Proof.
  unfold type_in. rewrite existsb_exists. split.
  - intros (s & Hs & E). apply String.eqb_eq in E. by subst.
  - intros H. exists type. by rewrite String.eqb_refl.
Qed.

Lemma Event_init_modes (name : pyval) (type : string) (fresh : Z * Z)
    (g : process) :
  broker_known g = true ->
  exists ports g',
    Event_init name type fresh g =
      (if type_in type ["wait"; "post"; "both"]
       then if type_in type ["wait"; "both"] && negb (is_bytes name)
            then Raise TypeError
            else Ok {| event_name := name; event_type := type;
                       can_wait := type_in type ["wait"; "both"];
                       can_post := type_in type ["post"; "both"];
                       sub := if type_in type ["wait"; "both"]
                              then Some ports.2 else None;
                       pub := if type_in type ["post"; "both"]
                              then Some ports.1 else None |}
       else Raise ValueError, g')
    /\ Broker_server_ports g' = Some ports.
Proof.
  unfold broker_known, Event_init, Broker_create_instance.
  destruct g as [top inst ports]; cbn -[type_in].
  destruct ports as [[s p]|], top, inst; try discriminate; intros _;
    cbn -[type_in]; try (destruct fresh as [fs fp]);
    eexists (_, _), _;
    (split; [destruct (type_in type ["wait"; "post"; "both"]);
               [destruct (type_in type ["wait"; "both"]
                          && negb (is_bytes name))|];
               reflexivity
            |reflexivity]).
Qed.

(** C10: [post] on an event made in wait-only mode and [wait] on an event
    made in post-only mode raise [ValueError] and leave the bus as it
    was: nothing is published, nothing is received, the clock does not
    move; and making an event with a mode that is none of "wait", "post",
    "both" raises [ValueError].  An event is made in post-only mode with
    any name, and in wait-only mode with a name that is a bytes object. *)
Theorem event_modes_enforced (name : pyval) (fresh : Z * Z) (g : process) :
  broker_known g = true ->
  (forall ev g' id data b,
     Event_init name "wait" fresh g = (Ok ev, g') ->
     forall PY2 repr_other,
       Event_post PY2 repr_other ev id data b = (Raise ValueError, b))
  /\ (forall ev g' id timeout b,
        Event_init name "post" fresh g = (Ok ev, g') ->
        forall PY2 repr_other,
          Event_wait PY2 repr_other ev id timeout b = (Raises ValueError, b))
  /\ (is_bytes name = true ->
      exists ev g', Event_init name "wait" fresh g = (Ok ev, g'))
  /\ (exists ev g', Event_init name "post" fresh g = (Ok ev, g'))
  /\ (forall type,
        ~ In type ["wait"; "post"; "both"] ->
        (Event_init name type fresh g).1 = Raise ValueError).
Proof.
  intros K. repeat split.
  - intros ev g' id data b E PY2 repr_other.
    destruct (Event_init_modes name "wait" fresh g K) as (ports & g1 & E1 & _).
    rewrite E1 in E. cbn in E. destruct (is_bytes name); [|done].
    by injection E as <- <-.
  - intros ev g' id timeout b E PY2 repr_other.
    destruct (Event_init_modes name "post" fresh g K) as (ports & g1 & E1 & _).
    rewrite E1 in E. cbn in E. by injection E as <- <-.
  - intros B.
    destruct (Event_init_modes name "wait" fresh g K) as (ports & g1 & E1 & _).
    rewrite E1. cbn. rewrite B. cbn. eauto.
  - destruct (Event_init_modes name "post" fresh g K) as (ports & g1 & E1 & _).
    rewrite E1. cbn. eauto.
  - intros type H.
    destruct (Event_init_modes name type fresh g K) as (ports & g1 & E1 & _).
    rewrite E1.
    destruct (type_in type ["wait"; "post"; "both"]) eqn:T; [|done].
    by apply type_in_spec in T.
Qed.

(** An instance: in the top-level process before any broker exists, the
    mode "read" is refused. *)
Lemma event_modes_enforced_witness :
  (Event_init (PBytes "done") "read" (6000, 6001) top_level_process).1
  = Raise ValueError.
Proof.
  destruct (event_modes_enforced (PBytes "done") (6000, 6001)
              top_level_process eq_refl)
    as (_ & _ & _ & _ & H).
  apply H. cbn. intros [H1|[H1|[H1|[]]]]; discriminate H1.
Defined.

(** An event that can wait has a bytes object for its name: the
    constructor has raised for any other. *)
Lemma Event_init_bytes (name : pyval) (type : string) (fresh : Z * Z)
    (g g' : process) (self : Event) :
  Event_init name type fresh g = (Ok self, g') ->
  event_name self = name
  /\ (can_wait self = true -> is_bytes name = true).
Proof.
  unfold Event_init. destruct (Broker_create_instance fresh g) as [ports g1].
  destruct (Broker_server_ports g1) as [[s p]|]; [|done].
  destruct (negb (type_in type ["wait"; "post"; "both"])); [done|].
  destruct (type_in type ["wait"; "both"]) eqn:W; cbn [andb].
  - destruct (is_bytes name); cbn [negb]; [|done]. by intros [= <- <-].
  - by intros [= <- <-].
Qed.

(** ** Events: waiting *)

Lemma reached_ge (received : list (Z * message)) (clock : Z) :
  clock <= reached clock received.
Proof.
  revert clock. induction received as [|tm l IH]; intros clock; cbn; [lia|].
  specialize (IH (Z.max clock tm.1)). unfold reached in IH. lia.
Qed.

Lemma reached_buffered (received : list (Z * message)) (clock : Z) :
  Forall (fun tm => tm.1 <= clock) received -> reached clock received = clock.
Proof.
  induction 1 as [|tm l H _ IH]; cbn; [done|].
  by replace (Z.max clock tm.1) with clock by lia.
Qed.

Lemma reached_before (received : list (Z * message)) (clock d : Z) :
  clock < d -> Forall (fun tm => tm.1 < d) received ->
  reached clock received < d.
Proof.
  intros C H. revert clock C.
  induction H as [|tm l H _ IH]; intros clock C; cbn; [done|].
  apply IH. lia.
Qed.

Lemma reached_app (l1 l2 : list (Z * message)) (clock : Z) :
  reached clock (l1 ++ l2) = reached (reached clock l1) l2.
Proof. apply fold_left_app. Qed.

Lemma nothing_before_le (c1 c2 : Z) (inbox : list (Z * message)) :
  c1 <= c2 -> nothing_before c2 inbox -> nothing_before c1 inbox.
Proof. destruct inbox as [|[t m] rest]; cbn; [done|lia]. Qed.

(** The messages already there are a prefix of the stream. *)
Lemma buffered_prefix (clock : Z) (l : list (Z * message)) :
  exists l1 l2, l = (l1 ++ l2)%list
                /\ Forall (fun tm => tm.1 <= clock) l1
                /\ nothing_before clock l2.
Proof.
  induction l as [|[t m] l (l1 & l2 & -> & F & N)].
  - by exists [], [].
  - destruct (Z.le_gt_cases t clock) as [H|H].
    + exists ((t, m) :: l1), l2. repeat split; [|done]. by constructor.
    + exists [], ((t, m) :: l1 ++ l2)%list. repeat split; [done|]. cbn. lia.
Qed.

(** *** Under Python 2, with a byte string of ASCII characters for name *)

Section Waiting.

Variable self : Event.
Variable n : string.
Variable id : string.

Hypothesis named : event_name self = PBytes n.
Hypothesis ascii : is_ascii n = true.

Lemma examine_of_event (m : message) :
  of_event n m = true ->
  examine true self id m =
  Ok (if String.eqb (id_frame m) id then Some (data_frame m) else None).
Proof.
  unfold of_event, examine. intros H. apply andb_prop in H as [N I].
  apply String.eqb_eq in N.
  rewrite N, (is_text_decode n (is_ascii_text n ascii)), (is_text_decode _ I).
  cbn [bind]. rewrite named. unfold text_equals.
  rewrite ascii, String.eqb_refl. cbn.
  by destruct (String.eqb (id_frame m) id).
Qed.

(** The subscription is by prefix: a message whose name is another one
    fails the assertion, under either Python. *)
Lemma examine_other_name (PY2 : bool) (m : message) :
  is_text (name_frame m) = true -> is_text (id_frame m) = true ->
  name_frame m <> n ->
  examine PY2 self id m = Raise AssertionError.
Proof.
  unfold examine. intros Tn Ti N.
  rewrite (is_text_decode _ Tn), (is_text_decode _ Ti). cbn [bind].
  rewrite named. unfold text_equals.
  apply String.eqb_neq in N as ->. by rewrite andb_false_r.
Qed.

Lemma examine_passed_over (tm : Z * message) :
  passed_over n id tm -> examine true self id (snd tm) = Ok None.
Proof.
  intros [W N]. rewrite (examine_of_event _ W).
  by apply String.eqb_neq in N as ->.
Qed.

(** *** The first loop *)

Lemma drain_buffered (clock : Z) (skipped rest : list (Z * message)) :
  Forall (passed_over n id) skipped ->
  Forall (fun tm => tm.1 <= clock) skipped ->
  drain true self id clock (skipped ++ rest) = drain true self id clock rest.
Proof.
  induction 1 as [|[t m] l P _ IH]; intros B; [done|].
  apply Forall_cons in B as [Bt Bl].
  cbn [app drain]. cbn in Bt.
  rewrite (proj2 (Z.leb_le _ _) Bt). cbn [negb].
  pose proof (examine_passed_over (t, m) P) as E. cbn in E. rewrite E.
  by apply IH.
Qed.

Lemma drain_match (clock t : Z) (m : message) (rest : list (Z * message)) :
  t <= clock -> of_event n m = true -> id_frame m = id ->
  drain true self id clock ((t, m) :: rest) = (Returns (data_frame m), rest).
Proof.
  intros B W I. cbn [drain]. rewrite (proj2 (Z.leb_le _ _) B). cbn [negb].
  by rewrite (examine_of_event _ W), I, String.eqb_refl.
Qed.

(** *** The second loop *)

Lemma await_passed_over (d clock : Z) (skipped rest : list (Z * message)) :
  clock < d ->
  Forall (passed_over n id) skipped ->
  Forall (fun tm => tm.1 < d) skipped ->
  await true self id (Some d) clock (skipped ++ rest) =
  await true self id (Some d) (reached clock skipped) rest.
Proof.
  intros C P. revert clock C.
  induction P as [|[t m] l P _ IH]; intros clock C B; [done|].
  apply Forall_cons in B as [Bt Bl]. cbn in Bt.
  cbn [app await reached fold_left fst].
  rewrite (proj2 (Z.ltb_lt _ _) C). cbn [negb].
  replace (t <=? clock + Z.max 0 (d - clock)) with true
    by (symmetry; apply Z.leb_le; lia).
  cbn [negb].
  pose proof (examine_passed_over (t, m) P) as E. cbn in E. rewrite E.
  apply IH; [lia|done].
Qed.

Lemma await_match (d clock t : Z) (m : message) (rest : list (Z * message)) :
  clock < d -> t < d -> of_event n m = true -> id_frame m = id ->
  await true self id (Some d) clock ((t, m) :: rest) =
  (Returns (data_frame m), Z.max clock t, rest).
Proof.
  intros C B W I. cbn [await].
  rewrite (proj2 (Z.ltb_lt _ _) C). cbn [negb].
  replace (t <=? clock + Z.max 0 (d - clock)) with true
    by (symmetry; apply Z.leb_le; lia).
  cbn [negb]. by rewrite (examine_of_event _ W), I, String.eqb_refl.
Qed.

End Waiting.

(** *** Under either Python *)

Lemma drain_nothing (PY2 : bool) (self : Event) (id : string) (clock : Z)
    (inbox : list (Z * message)) :
  nothing_before clock inbox ->
  drain PY2 self id clock inbox = (NotFound, inbox).
Proof.
  destruct inbox as [|[t m] rest]; [done|]. cbn. intros H.
  by rewrite (proj2 (Z.leb_gt _ _) H).
Qed.

Lemma await_deadline (PY2 : bool) (self : Event) (id : string) (d clock : Z)
    (inbox : list (Z * message)) :
  clock <= d -> nothing_before d inbox ->
  await PY2 self id (Some d) clock inbox = (Raises timed_out, d, inbox).
Proof.
  intros C N. destruct (Z.ltb_spec clock d) as [L|L].
  - destruct inbox as [|[t m] rest]; cbn [await];
      rewrite (proj2 (Z.ltb_lt _ _) L); cbn [negb].
    + do 2 f_equal. lia.
    + cbn in N.
      replace (t <=? clock + Z.max 0 (d - clock)) with false
        by (symmetry; apply Z.leb_gt; lia).
      cbn [negb]. do 2 f_equal. lia.
  - assert (clock = d) as -> by lia.
    destruct inbox as [|[t m] rest]; cbn [await];
      by rewrite Z.ltb_irrefl.
Qed.

(** What the assertion on the name lets through: the frame is the text
    the event is named with, or, under Python 2, the byte string of ASCII
    characters it is named with. *)
Lemma text_equals_spec (PY2 : bool) (text : string) (name : pyval) :
  text_equals PY2 text name = true ->
  name = PStr text
  \/ (PY2 = true /\ name = PBytes text /\ is_ascii text = true).
Proof.
  destruct name as [|b|s| | |]; try done; cbn.
  - intros H. apply andb_prop in H as [H E]. apply andb_prop in H as [P A].
    apply String.eqb_eq in E as ->. by right.
  - intros E. apply String.eqb_eq in E as ->. by left.
Qed.

Section Sound.

Variable PY2 : bool.
Variable self : Event.
Variable id : string.

Lemma examine_found (m : message) (v : pyval) :
  examine PY2 self id m = Ok (Some v) ->
  id_frame m = id /\ data_frame m = v
  /\ text_equals PY2 (name_frame m) (event_name self) = true.
Proof.
  unfold examine, decode_utf8.
  destruct (utf8_chars (name_frame m)); [|done].
  destruct (utf8_chars (id_frame m)); [|done]. cbn.
  destruct (text_equals PY2 (name_frame m) (event_name self)); [|done]. cbn.
  destruct (String.eqb_spec (id_frame m) id); [|done].
  by intros [= <-].
Qed.

Lemma examine_other (m : message) :
  examine PY2 self id m = Ok None -> id_frame m <> id.
Proof.
  unfold examine, decode_utf8.
  destruct (utf8_chars (name_frame m)); [|done].
  destruct (utf8_chars (id_frame m)); [|done]. cbn.
  destruct (text_equals PY2 (name_frame m) (event_name self)); [|done]. cbn.
  by destruct (String.eqb_spec (id_frame m) id).
Qed.

Lemma taken_cons (tm : Z * message) (inbox rest : list (Z * message))
    (r : outcome) :
  id_frame tm.2 <> id -> taken PY2 self id inbox rest r ->
  taken PY2 self id (tm :: inbox) rest r.
Proof.
  intros N (skipped & F & H). exists (tm :: skipped). split; [by constructor|].
  destruct r; cbn.
  - destruct H as (t & m & -> & H). by exists t, m.
  - destruct H as [[-> ->]|(t & m & -> & H)]; [by left|right]. by exists t, m.
  - by rewrite H.
  - by rewrite H.
Qed.

Lemma taken_app (l inbox rest : list (Z * message)) (r : outcome) :
  Forall (fun tm => id_frame tm.2 <> id) l ->
  taken PY2 self id inbox rest r -> taken PY2 self id (l ++ inbox) rest r.
Proof.
  induction 1 as [|tm l N _ IH]; [done|]. intros T. cbn.
  apply taken_cons; [done|]. by apply IH.
Qed.

Lemma drain_taken (clock : Z) (inbox rest : list (Z * message)) (r : outcome) :
  drain PY2 self id clock inbox = (r, rest) ->
  taken PY2 self id inbox rest r /\ r <> BlocksForever.
Proof.
  revert r rest. induction inbox as [|[t m] inbox IH]; intros r rest; cbn.
  - intros [= <- <-]. by split; [exists []|].
  - destruct (t <=? clock); cbn.
    + destruct (examine PY2 self id m) as [[v|]|e] eqn:E.
      * intros [= <- <-]. apply examine_found in E as (I & D & N).
        split; [|done]. exists []. split; [done|].
        by exists t, m.
      * intros H. destruct (IH r rest H) as (T & B).
        split; [|done].
        apply taken_cons; [|done]. by apply examine_other.
      * intros [= <- <-]. split; [|done]. exists [].
        split; [done|]. right. by exists t, m.
    + intros [= <- <-]. by split; [exists []|].
Qed.

Lemma await_taken (deadline : option Z) (clock clock' : Z)
    (inbox rest : list (Z * message)) (r : outcome) :
  await PY2 self id deadline clock inbox = (r, clock', rest) ->
  taken PY2 self id inbox rest r
  /\ r <> NotFound
  /\ clock <= clock'
  /\ forall d, deadline = Some d -> r <> BlocksForever /\ clock' <= Z.max clock d.
Proof.
  revert clock clock' r rest.
  induction inbox as [|[t m] inbox IH]; intros clock clock' r rest.
  - cbn. destruct deadline as [d|].
    + destruct (clock <? d) eqn:C; cbn; intros [= <- <- <-];
        (split; [exists []; split; [done|by left]|]);
        (split; [done|]); (split; [lia|]); intros d' [= <-];
        (split; [done|lia]).
    + intros [= <- <- <-]. split; [by exists []|].
      split; [done|]. split; [lia|]. by intros d [=].
  - cbn [await].
    assert (forall r0 c0 rest0,
              match examine PY2 self id m with
              | Ok (Some data) => (Returns data, Z.max clock t, inbox)
              | Ok None => await PY2 self id deadline (Z.max clock t) inbox
              | Raise e => (Raises e, Z.max clock t, inbox)
              end = (r0, c0, rest0) ->
              taken PY2 self id ((t, m) :: inbox) rest0 r0 /\ r0 <> NotFound
              /\ clock <= c0
              /\ forall d, deadline = Some d -> t <= d ->
                           r0 <> BlocksForever /\ c0 <= Z.max clock d) as Rec.
    { intros r0 c0 rest0.
      destruct (examine PY2 self id m) as [[v|]|e] eqn:E.
      - intros [= <- <- <-]. apply examine_found in E as (I & D & N).
        split; [exists []; split; [done|by exists t, m]|].
        split; [done|]. split; [lia|]. intros d _ Ht. split; [done|lia].
      - intros H. destruct (IH _ _ _ _ H) as (T & N & C & B).
        split; [apply taken_cons; [by apply examine_other|done]|].
        split; [done|]. split; [lia|]. intros d Hd Ht.
        destruct (B d Hd) as [B1 B2]. split; [done|lia].
      - intros [= <- <- <-].
        split; [exists []; split; [done|right; by exists t, m]|].
        split; [done|]. split; [lia|]. intros d _ Ht. split; [done|lia]. }
    destruct deadline as [d|].
    + destruct (clock <? d) eqn:C; cbn [negb].
      * apply Z.ltb_lt in C.
        destruct (t <=? clock + Z.max 0 (d - clock)) eqn:P; cbn [negb].
        -- apply Z.leb_le in P. intros H.
           destruct (Rec _ _ _ H) as (T & N & Cl & B).
           split; [done|]. split; [done|]. split; [done|].
           intros d' [= <-]. apply B; [done|lia].
        -- intros [= <- <- <-].
           split; [exists []; split; [done|by left]|].
           split; [done|]. split; [lia|]. intros d' [= <-].
           split; [done|lia].
      * intros [= <- <- <-].
        split; [exists []; split; [done|by left]|].
        split; [done|]. split; [lia|]. intros d' [= <-]. split; [done|lia].
    + intros H. destruct (Rec _ _ _ H) as (T & N & Cl & B).
      split; [done|]. split; [done|]. split; [done|]. by intros d [=].
Qed.

End Sound.

(** What a whole [wait] has taken from the stream. *)
Lemma wait_taken (PY2 : bool) (repr_other : pyval -> string) (self : Event)
    (wid : pyval) (timeout : option Z) (b b' : bus) (r : outcome) :
  can_wait self = true ->
  Event_wait PY2 repr_other self wid timeout b = (r, b') ->
  taken PY2 self (py_str repr_other wid) (arrivals b) (arrivals b') r
  /\ published b' = published b
  /\ now b <= now b'.
Proof.
  intros W. unfold Event_wait. rewrite W. cbn [negb].
  destruct (drain PY2 self (py_str repr_other wid) (now b) (arrivals b))
    as [r1 inbox1] eqn:D.
  destruct (drain_taken _ _ _ _ _ _ _ D) as [T1 B1].
  destruct r1; try done.
  - intros [= <- <-]. cbn. repeat split; done || lia.
  - intros [= <- <-]. cbn. repeat split; done || lia.
  - destruct (await PY2 self (py_str repr_other wid) _ (now b) inbox1)
      as [[r2 clock2] inbox2] eqn:A.
    intros [= <- <-]. cbn.
    destruct (await_taken _ _ _ _ _ _ _ _ _ A) as (T2 & _ & C & _).
    destruct T1 as (skipped1 & F1 & ->).
    split; [by apply taken_app|]. by split.
Qed.

Section Wait.

Variable repr_other : pyval -> string.
Variable self : Event.
Variable n : string.
Variable wid : pyval.
Variable b : bus.

Hypothesis waits : can_wait self = true.
Hypothesis named : event_name self = PBytes n.
Hypothesis ascii : is_ascii n = true.

Local Abbreviation id := (py_str repr_other wid).
Local Abbreviation wait := (Event_wait true repr_other self wid).

(** A matching message already there is returned by the first loop. *)
Lemma wait_buffered (skipped rest : list (Z * message)) (t : Z) (m : message)
    (timeout : option Z) :
  arrivals b = (skipped ++ (t, m) :: rest)%list ->
  Forall (passed_over n id) skipped ->
  Forall (fun tm => tm.1 <= now b) skipped ->
  t <= now b -> of_event n m = true -> id_frame m = id ->
  wait timeout b =
  (Returns (data_frame m),
   {| now := now b; arrivals := rest; published := published b |}).
Proof.
  intros A P B Bt W I. unfold Event_wait. rewrite waits, A. cbn [negb].
  rewrite (drain_buffered self n id named ascii (now b) skipped _ P B).
  by rewrite (drain_match self n id named ascii (now b) t m rest Bt W I).
Qed.

(** A matching message that comes before the deadline is returned. *)
Lemma wait_in_time (skipped rest : list (Z * message)) (t : Z) (m : message)
    (T : Z) :
  arrivals b = (skipped ++ (t, m) :: rest)%list ->
  Forall (passed_over n id) skipped ->
  Forall (fun tm => tm.1 < now b + T) skipped ->
  t < now b + T -> of_event n m = true -> id_frame m = id ->
  wait (Some T) b =
  (Returns (data_frame m),
   {| now := reached (now b) (skipped ++ [(t, m)]); arrivals := rest;
      published := published b |}).
Proof.
  intros A P B Bt W I.
  destruct (buffered_prefix (now b) skipped) as (l1 & l2 & -> & F1 & N2).
  apply Forall_app in P as [P1 P2]. apply Forall_app in B as [B1 B2].
  unfold Event_wait. rewrite waits, A. cbn [negb fmap option_fmap option_map].
  rewrite <- !app_assoc.
  rewrite (drain_buffered self n id named ascii (now b) l1 _ P1 F1).
  rewrite !reached_app, (reached_buffered l1 _ F1).
  destruct l2 as [|[t2 m2] l2].
  - cbn [app reached fold_left fst].
    destruct (Z.le_gt_cases t (now b)) as [L|L].
    + rewrite (drain_match self n id named ascii (now b) t m rest L W I).
      by replace (Z.max (now b) t) with (now b) by lia.
    + rewrite (drain_nothing true self id (now b) ((t, m) :: rest))
        by (cbn; lia).
      by rewrite (await_match self n id named ascii (now b + T) (now b) t m rest)
        by (lia || done).
  - cbn in N2. apply Forall_cons in B2 as B2'. destruct B2' as [Bt2 _].
    cbn in Bt2.
    rewrite (drain_nothing true self id (now b)
               (((t2, m2) :: l2) ++ (t, m) :: rest))
      by (cbn; lia).
    rewrite (await_passed_over self n id named ascii (now b + T) (now b)
               ((t2, m2) :: l2))
      by (lia || done).
    assert (reached (now b) ((t2, m2) :: l2) < now b + T)
      by (apply reached_before; [lia|done]).
    by rewrite (await_match self n id named ascii (now b + T) _ t m rest)
      by (lia || done).
Qed.

(** With no matching message by the deadline, the wait ends at the
    deadline with the timeout error. *)
Lemma wait_times_out (skipped rest : list (Z * message)) (T : Z) :
  0 <= T ->
  arrivals b = (skipped ++ rest)%list ->
  Forall (passed_over n id) skipped ->
  Forall (fun tm => tm.1 < now b + T) skipped ->
  nothing_before (now b + T) rest ->
  wait (Some T) b =
  (Raises timed_out,
   {| now := now b + T; arrivals := rest; published := published b |}).
Proof.
  intros HT A P B N.
  destruct (buffered_prefix (now b) skipped) as (l1 & l2 & -> & F1 & N2).
  apply Forall_app in P as [P1 P2]. apply Forall_app in B as [B1 B2].
  unfold Event_wait. rewrite waits, A. cbn [negb fmap option_fmap option_map].
  rewrite <- !app_assoc.
  rewrite (drain_buffered self n id named ascii (now b) l1 _ P1 F1).
  destruct l2 as [|[t2 m2] l2].
  - cbn [app].
    rewrite (drain_nothing true self id (now b) rest)
      by (apply (nothing_before_le _ (now b + T)); [lia|done]).
    by rewrite (await_deadline true self id (now b + T) (now b) rest)
      by (lia || done).
  - cbn in N2. apply Forall_cons in B2 as B2'. destruct B2' as [Bt2 _].
    cbn in Bt2.
    rewrite (drain_nothing true self id (now b) (((t2, m2) :: l2) ++ rest))
      by (cbn; lia).
    rewrite (await_passed_over self n id named ascii (now b + T) (now b)
               ((t2, m2) :: l2))
      by (lia || done).
    assert (reached (now b) ((t2, m2) :: l2) < now b + T)
      by (apply reached_before; [lia|done]).
    by rewrite (await_deadline true self id (now b + T) _ rest)
      by (lia || done).
Qed.

End Wait.

(** *** Under Python 3 *)

Section Python3.

Variable self : Event.

Hypothesis bytes_name : is_bytes (event_name self) = true.

(** No text equals the name of the event. *)
Lemma text_equals_python3 (text : string) :
  text_equals false text (event_name self) = false.
Proof. by destruct (event_name self). Qed.

(** Every message the event receives fails the assertion. *)
Lemma examine_python3 (id : string) (m : message) :
  is_text (name_frame m) = true -> is_text (id_frame m) = true ->
  examine false self id m = Raise AssertionError.
Proof.
  unfold examine. intros Tn Ti.
  rewrite (is_text_decode _ Tn), (is_text_decode _ Ti). cbn [bind].
  by rewrite text_equals_python3.
Qed.

End Python3.

(** C4, as stated, fails under Python 3.  An event the constructor has
    made returns no data from any wait, whatever is in the stream and
    whatever the timeout; and when a message is already there, be it the
    message waited for, the wait ends in the first loop with
    [AssertionError], the message consumed: the name of an event that can
    wait is a bytes object, and the decoded name frame is text. *)
Theorem wait_fails_the_assertion (repr_other : pyval -> string)
    (name : pyval) (type : string) (fresh : Z * Z) (g g' : process)
    (self : Event) (wid : pyval) (timeout : option Z) (b : bus) :
  Event_init name type fresh g = (Ok self, g') ->
  (forall v, (Event_wait false repr_other self wid timeout b).1 <> Returns v)
  /\ (can_wait self = true ->
      forall t m rest,
        arrivals b = (t, m) :: rest -> t <= now b ->
        is_text (name_frame m) = true -> is_text (id_frame m) = true ->
        Event_wait false repr_other self wid timeout b =
        (Raises AssertionError,
         {| now := now b; arrivals := rest; published := published b |})).
Proof.
  intros I. destruct (Event_init_bytes _ _ _ _ _ _ I) as [<- B]. split.
  - intros v H. destruct (can_wait self) eqn:W.
    + destruct (Event_wait false repr_other self wid timeout b) as [r b'] eqn:E.
      cbn in H. subst r.
      destruct (wait_taken _ _ _ _ _ _ _ _ W E)
        as ((skipped & _ & t & m & _ & _ & _ & N) & _).
      by rewrite (text_equals_python3 self (B eq_refl)) in N.
    + revert H. unfold Event_wait. by rewrite W.
  - intros W t m rest A Bt Tn Ti. unfold Event_wait. rewrite W, A.
    cbn [negb drain]. rewrite (proj2 (Z.leb_le _ _) Bt). cbn [negb].
    by rewrite (examine_python3 self (B W) _ _ Tn Ti).
Qed.

(** The failing input: under Python 3, an event made with the name
    [b"done"] in mode "wait", and a wait for "c" when the message
    [b"done", b"c", 7] is already there. *)
Lemma wait_fails_the_assertion_witness :
  exists self g',
    Event_init (PBytes "done") "wait" (6000, 6001) top_level_process
    = (Ok self, g')
    /\ Event_wait false (fun _ => "") self (PStr "c") None
         {| now := 100; arrivals := [(20, done_message "c" (PInt 7))];
            published := [] |}
       = (Raises AssertionError,
          {| now := 100; arrivals := []; published := [] |}).
Proof.
  destruct (Event_init (PBytes "done") "wait" (6000, 6001) top_level_process)
    as [[self|e] g'] eqn:I; [|by vm_compute in I].
  exists self, g'. split; [done|].
  destruct (wait_fails_the_assertion (fun _ => "") _ _ _ _ _ self (PStr "c")
              None
              {| now := 100; arrivals := [(20, done_message "c" (PInt 7))];
                 published := [] |} I) as [_ H].
  apply (H ltac:(by vm_compute in I; injection I as <- <-) 20
           (done_message "c" (PInt 7)) [] eq_refl ltac:(cbn; lia)
           eq_refl eq_refl).
Defined.

(** With a text name the constructor itself raises, under either
    Python. *)
Example wait_event_with_text_name :
  (Event_init (PStr "done") "wait" (6000, 6001) top_level_process).1
  = Raise TypeError.
Proof. reflexivity. Qed.

(** Under Python 2 the same wait returns the data. *)
Example wait_on_python2 :
  Event_wait true (fun _ => "") event_done (PStr "c") None
    {| now := 100; arrivals := [(20, done_message "c" (PInt 7))];
       published := [] |}
  = (Returns (PInt 7), {| now := 100; arrivals := []; published := [] |}).
Proof. reflexivity. Qed.

(** The three cases of the specification, under Python 2. *)
Example post_then_wait :
  let ev := event_done in
  let '(_, b) := Event_post true (fun _ => "") ev (PStr "a") (PInt 5)
                   {| now := 0; arrivals := []; published := [] |} in
  Event_wait true (fun _ => "") ev (PStr "a") (Some 1000)
    {| now := 0; arrivals := (fun m => (3, m)) <$> published b;
       published := [] |}
  = (Returns (PInt 5), {| now := 3; arrivals := []; published := [] |}).
Proof. reflexivity. Qed.

Example wait_without_post :
  Event_wait true (fun _ => "") event_done (PStr "b") (Some 100)
    {| now := 0; arrivals := []; published := [] |}
  = (Raises timed_out, {| now := 100; arrivals := []; published := [] |}).
Proof. reflexivity. Qed.

Example wait_forever :
  (Event_wait true (fun _ => "") event_done (PStr "b") None
     {| now := 0; arrivals := []; published := [] |}).1 = BlocksForever.
Proof. reflexivity. Qed.

(** ** Events: which wait a post satisfies *)

Lemma plain_id_text (repr_other : pyval -> string) (id : pyval) :
  plain_id id = true -> is_text (py_str repr_other id) = true.
Proof.
  destruct id as [| |s|k| |]; try done. intros _. apply str_of_int_is_text.
Qed.

(** C6, as amended: under Python 2 and for an event named with a byte
    string of ASCII characters, where [post] and [wait] work, a posted
    message that has reached a waiter of the same event name satisfies its
    wait exactly when [str] of the id posted and [str] of the id waited
    for are the same string; the wait then returns the data posted.  The
    ids are [None], integers or text strings.  Under either Python, a
    wait that this message satisfies is a wait for an id with the same
    [str], and returns the data posted. *)
Theorem wait_matches_str_of_id (repr_other : pyval -> string)
    (poster waiter : Event) (n : string) (pid wid data : pyval) (b0 b : bus)
    (t : Z) (timeout : option Z) :
  can_post poster = true ->
  can_wait waiter = true ->
  event_name poster = PBytes n ->
  event_name waiter = PBytes n ->
  is_ascii n = true ->
  plain_id pid = true ->
  plain_id wid = true ->
  let m := {| name_frame := n; id_frame := py_str repr_other pid;
              data_frame := data |} in
  arrivals b = [(t, m)] ->
  t <= now b ->
  Event_post true repr_other poster pid data b0 =
    (Ok tt, {| now := now b0; arrivals := arrivals b0;
               published := (published b0 ++ [m])%list |})
  /\ ((exists v, (Event_wait true repr_other waiter wid timeout b).1 = Returns v)
      <-> py_str repr_other pid = py_str repr_other wid)
  /\ (py_str repr_other pid = py_str repr_other wid ->
      Event_wait true repr_other waiter wid timeout b =
      (Returns data,
       {| now := now b; arrivals := []; published := published b |}))
  /\ (forall PY2 v,
        (Event_wait PY2 repr_other waiter wid timeout b).1 = Returns v ->
        py_str repr_other pid = py_str repr_other wid /\ v = data).
Proof.
  intros Cp Cw Np Nw As Pp Pw m A B.
  assert (of_event n m = true) as W.
  { unfold of_event, m. cbn.
    by rewrite String.eqb_refl, (plain_id_text repr_other pid Pp). }
  assert (py_str repr_other pid = py_str repr_other wid ->
          Event_wait true repr_other waiter wid timeout b =
          (Returns data,
           {| now := now b; arrivals := []; published := published b |})) as Hm.
  { intros E.
    by rewrite (wait_buffered repr_other waiter n wid b Cw Nw As [] [] t m
                  timeout A (Forall_nil_2 _) (Forall_nil_2 _) B W E). }
  split; [|split; [split|split; [done|]]].
  - unfold Event_post, posted, encode_name. by rewrite Cp, Np, As.
  - intros [v Hv].
    destruct (String.eqb_spec (py_str repr_other pid) (py_str repr_other wid))
      as [E|E]; [done|exfalso].
    revert Hv. unfold Event_wait. rewrite Cw, A. cbn [negb drain].
    rewrite (proj2 (Z.leb_le _ _) B). cbn [negb].
    rewrite (examine_of_event waiter n _ Nw As _ W).
    change (id_frame m) with (py_str repr_other pid).
    apply String.eqb_neq in E as ->.
    destruct timeout as [T|]; cbn; [|done].
    by destruct (now b <? now b + T).
  - intros E. rewrite (Hm E). by exists data.
  - intros PY2 v Hv.
    destruct (Event_wait PY2 repr_other waiter wid timeout b) as [r b'] eqn:E.
    cbn in Hv. subst r.
    destruct (wait_taken _ _ _ _ _ _ _ _ Cw E)
      as ((skipped & _ & t' & m' & L & I & D & _) & _).
    rewrite A in L. destruct skipped as [|tm [|tm' skipped]]; try done.
    injection L as _ <- _. by split.
Qed.

(** An instance: "go" posted and waited for. *)
Lemma wait_matches_str_of_id_witness :
  Event_wait true (fun _ => "") event_done (PStr "go") (Some 1000)
    {| now := 5; arrivals := [(5, done_message "go" (PInt 7))];
       published := [] |}
  = (Returns (PInt 7), {| now := 5; arrivals := []; published := [] |}).
Proof.
  refine (proj1 (proj2 (proj2
    (wait_matches_str_of_id (fun _ => "") event_done event_done "done"
       (PStr "go") (PStr "go") (PInt 7)
       {| now := 0; arrivals := []; published := [] |}
       {| now := 5; arrivals := _; published := [] |} 5 (Some 1000)
       eq_refl eq_refl eq_refl eq_refl eq_refl eq_refl eq_refl eq_refl _)))
    eq_refl).
  cbn. lia.
Defined.

(** C6, as stated, fails: the integer 1 and the text "1" are different
    values, and under Python 2 what is posted with the one satisfies a
    wait for the other. *)
Lemma wait_matches_unequal_ids :
  PInt 1 <> PStr "1"
  /\ Event_post true (fun _ => "") event_done (PInt 1) (PInt 7)
       {| now := 0; arrivals := []; published := [] |}
     = (Ok tt, {| now := 0; arrivals := [];
                  published := [done_message "1" (PInt 7)] |})
  /\ Event_wait true (fun _ => "") event_done (PStr "1") (Some 1000)
       {| now := 5; arrivals := [(5, done_message "1" (PInt 7))];
          published := [] |}
     = (Returns (PInt 7), {| now := 5; arrivals := []; published := [] |}).
Proof. split; [discriminate|split; reflexivity]. Qed.

(** Under Python 3 an event that can wait cannot post: its name is a
    bytes object, which has no [encode]; and what an event named with
    text posts fails the assertion of the waiter. *)
Example post_on_python3 :
  Event_post false (fun _ => "") event_done (PStr "c") (PInt 7)
    {| now := 0; arrivals := []; published := [] |}
  = (Raise AttributeError, {| now := 0; arrivals := []; published := [] |})
  /\ Event_post false (fun _ => "")
       {| event_name := PStr "done"; event_type := "post"; can_wait := false;
          can_post := true; sub := None; pub := Some 6000 |}
       (PStr "c") (PInt 7) {| now := 0; arrivals := []; published := [] |}
     = (Ok tt, {| now := 0; arrivals := [];
                  published := [done_message "c" (PInt 7)] |}).
Proof. split; reflexivity. Qed.

(** * Further properties *)

(** ** Validation and the server *)

Lemma known_type_kind (type : string) :
  known_type type = true -> exists k, type = kind_name k.
Proof.
  unfold known_type. intros H.
  repeat (apply orb_prop in H as [H|H]); apply String.eqb_eq in H as ->;
    [by exists Raw | by exists Text | by exists Multipart | by exists Pyobj].
Qed.

Lemma validate_idempotent (PY2 : bool) (k : wire_kind) (data d : pyval) :
  validate PY2 k data = Ok d -> validate PY2 k d = Ok d.
Proof.
  unfold validate.
  destruct (right_type PY2 k (documented_conversion k data)) eqn:R; [|done].
  intros [= <-].
  assert (documented_conversion k (documented_conversion k data)
          = documented_conversion k data) as E.
  { destruct k, data; try reflexivity; by cbn in R. }
  by rewrite E, R.
Qed.

Lemma typecheck_idempotent (PY2 : bool) (k : wire_kind) (data d : pyval) :
  _typecheck_or_convert_data PY2 data (kind_name k) = Ok d ->
  _typecheck_or_convert_data PY2 d (kind_name k) = Ok d.
Proof.
  destruct PY2.
  - rewrite !typecheck_python2. destruct k; try apply validate_idempotent.
    destruct data as [|b|s|n|l|e]; try (by intros [= <-]).
    cbn. destruct (decode_utf8 b); [|done]. by intros [= <-].
  - rewrite !typecheck_python3. apply validate_idempotent.
Qed.

(** X1: a payload that validation has let through, converted or not, goes
    through validation for the same protocol unchanged. *)
Theorem validated_payload_stays_valid (PY2 : bool) (data d : pyval)
    (send_type : string) :
  _typecheck_or_convert_data PY2 data send_type = Ok d ->
  _typecheck_or_convert_data PY2 d send_type = Ok d.
Proof.
  intros H. destruct (known_type send_type) eqn:K.
  - destruct (known_type_kind _ K) as [k ->]. by eapply typecheck_idempotent.
  - by rewrite (typecheck_unknown_type _ _ _ K) in H.
Qed.

Lemma validated_payload_stays_valid_witness :
  _typecheck_or_convert_data false (PList [PBytes "a"; PBytes "b"]) "multipart"
  = Ok (PList [PBytes "a"; PBytes "b"]).
Proof.
  exact (validated_payload_stays_valid false (PList [PBytes "a"; PBytes "b"])
           (PList [PBytes "a"; PBytes "b"]) "multipart" eq_refl).
Defined.

Section Server.

Variable PY2 : bool.
Variable format_exc : exn -> string.
Variable repr_other : pyval -> string.

Local Abbreviation loop := (mainloop PY2 format_exc repr_other).

(** The validation changes nothing in whether a payload has frames. *)
Lemma validated_frames (type : string) (data d : pyval) :
  _typecheck_or_convert_data PY2 data type = Ok d ->
  send_raises type d =
  if String.eqb type "multipart" && no_frames data
  then Some IndexError else None.
Proof.
  unfold send_raises.
  destruct (String.eqb_spec type "multipart") as [->|]; [|done].
  change "multipart" with (kind_name Multipart). rewrite typecheck_multipart.
  unfold validate.
  destruct (right_type PY2 Multipart (documented_conversion Multipart data));
    [|done].
  intros [= <-]. by destruct data as [|b|s|n|l|e].
Qed.

(** The send that ends a turn fails exactly on an empty reply. *)
Lemma turn_send (self : ZMQServer) (request d : pyval) :
  bind (handler self request)
    (fun response_data =>
       _typecheck_or_convert_data PY2 response_data (server_type self)) = Ok d ->
  send_raises (server_type self) d =
  if empty_reply self request then Some IndexError else None.
Proof.
  unfold empty_reply. destruct (handler self request) as [v|]; [|done].
  cbn [bind]. intros T. by rewrite (validated_frames _ _ _ T).
Qed.

(** What is sent in answer to one request. *)
Lemma mainloop_turn (self : ZMQServer) (request : pyval)
    (rest : list (result pyval)) :
  empty_reply self request = false ->
  exists signalled response,
    loop self (Ok request :: rest) =
      (SRecv request :: (signalled ++ SSend response :: (loop self rest).1)%list,
       (loop self rest).2)
    /\ (signalled = [] \/ exists e, signalled = [SRaiseInThread e])
    /\ (known_type (server_type self) = true ->
        _typecheck_or_convert_data PY2 response (server_type self)
        = Ok response).
Proof.
  intros N. cbn [mainloop].
  destruct (bind (handler self request) _) as [d|e] eqn:A.
  - rewrite (turn_send _ _ _ A), N.
    destruct (loop self rest) as [later status]; cbn.
    exists [], d. repeat split; [by left|]. intros _.
    destruct (handler self request) as [v|]; [|done]. cbn in A.
    by eapply validated_payload_stays_valid.
  - rewrite error_response_sendable.
    destruct (loop self rest) as [later status]; cbn.
    exists [SRaiseInThread e], (error_response format_exc repr_other
                                  (server_type self) e).
    repeat split; [right; by exists e|]. intros K.
    destruct (known_type_kind _ K) as [k ->]. apply error_response_valid.
Qed.

(** A turn whose reply is empty: the request is received and the send
    raises out of the loop. *)
Lemma mainloop_empty_reply (self : ZMQServer) (request : pyval)
    (rest : list (result pyval)) :
  empty_reply self request = true ->
  loop self (Ok request :: rest) = ([SRecv request], Died IndexError).
Proof.
  intros E. cbn [mainloop].
  destruct (bind (handler self request) _) as [d|e] eqn:A.
  - by rewrite (turn_send _ _ _ A), E.
  - unfold empty_reply in E. destruct (handler self request) as [v|] eqn:H.
    + cbn [bind] in A. apply andb_prop in E as [M F].
      apply String.eqb_eq in M. rewrite M in A.
      by destruct v as [| | [|] | | [|] |].
    + by rewrite andb_false_r in E.
Qed.

Lemma mainloop_app (self : ZMQServer) (requests : list pyval)
    (more : list (result pyval)) :
  Forall (fun request => empty_reply self request = false) requests ->
  loop self ((Ok <$> requests) ++ more) =
  (((loop self (Ok <$> requests)).1 ++ (loop self more).1)%list,
   (loop self more).2).
Proof.
  induction 1 as [|request rest N _ IH].
  - cbn. by destruct (loop self more).
  - cbn [fmap list_fmap app mainloop]. rewrite IH.
    destruct (bind (handler self request) _) as [d|e] eqn:A;
      rewrite ?(turn_send _ _ _ A), ?N, ?error_response_sendable;
      destruct (loop self (Ok <$> rest)) as [later status];
      destruct (loop self more) as [later2 status2];
      cbn; by rewrite <- ?app_assoc.
Qed.

(** X2: a server of one of the four protocols answers each request, whatever
    its handler does with it, as long as no reply is a sequence without
    frames on the multipart protocol: the trace of the accept loop is a
    sequence of turns of one receive and one send, the requests received
    are the ones that came, in their order, every reply sent is a valid
    payload of the server's protocol, and the loop is left waiting in
    [recv].  On the first request the handler answers with the empty list
    or the empty text on a multipart server, the send raises [IndexError]
    out of the loop: the request was received, no reply is sent, and
    nothing that comes later is received.  A server of another protocol
    has no such reply. *)
Theorem server_answers_every_request (port : Z) (type : string)
    (handle : pyval -> result pyval) (self : ZMQServer)
    (requests : list pyval) :
  ZMQServer_init port type handle = Ok self ->
  Forall (fun request => empty_reply self request = false) requests ->
  ((loop self (Ok <$> requests)).2 = InRecv
   /\ alternates (loop self (Ok <$> requests)).1 = true
   /\ received (loop self (Ok <$> requests)).1 = requests
   /\ length (replied (loop self (Ok <$> requests)).1) = length requests
   /\ Forall (fun r => _typecheck_or_convert_data PY2 r type = Ok r)
        (replied (loop self (Ok <$> requests)).1))
  /\ (forall request later,
        empty_reply self request = true ->
        loop self ((Ok <$> requests) ++ Ok request :: later) =
        (((loop self (Ok <$> requests)).1 ++ [SRecv request])%list,
         Died IndexError))
  /\ (type <> "multipart" -> forall request, empty_reply self request = false).
Proof.
  unfold ZMQServer_init. destruct (known_type type) eqn:K; [|done].
  intros [= <-] F. split; [|split].
  - induction F as [|request rest N _ IH]; [done|].
    destruct IH as (S & A & R & L & V).
    cbn [fmap list_fmap].
    destruct (mainloop_turn
                {| server_type := type; server_port := port; handler := handle |}
                request (Ok <$> rest) N) as (signalled & response & -> & Sg & Vr).
    cbn [fst snd]. split; [done|].
    destruct Sg as [->|[e ->]]; cbn; rewrite ?bind_cons; cbn;
      (split; [done|]); (split; [by f_equal|]); (split; [by f_equal|]);
      constructor; auto.
  - intros request later E. rewrite (mainloop_app _ _ _ F).
    by rewrite (mainloop_empty_reply _ _ _ E).
  - intros M request. unfold empty_reply. cbn.
    by apply String.eqb_neq in M as ->.
Qed.

(** X3: when the context is terminated the accept loop closes its socket
    and returns, having answered every request received before (none of
    them with a reply without frames, on which the loop would have ended
    already); nothing that would come after is received.  Any other
    exception out of [recv] ends the loop without closing the socket. *)
Theorem server_stops_when_context_terminates (self : ZMQServer)
    (requests : list pyval) (later : list (result pyval)) :
  Forall (fun request => empty_reply self request = false) requests ->
  loop self ((Ok <$> requests) ++ Raise ContextTerminated :: later) =
    (((loop self (Ok <$> requests)).1 ++ [SClose])%list, Returned)
  /\ forall e, e <> ContextTerminated ->
       loop self ((Ok <$> requests) ++ Raise e :: later) =
       ((loop self (Ok <$> requests)).1, Died e).
Proof.
  intros F. split.
  - by rewrite mainloop_app.
  - intros e Ne. rewrite mainloop_app by done. cbn.
    destruct e; try done; by rewrite app_nil_r.
Qed.

End Server.

Lemma server_answers_every_request_witness :
  alternates
    (mainloop false (fun _ => "tb") (fun _ => "")
       {| server_type := "multipart"; server_port := 7000;
          handler := fun r => Ok r |} (Ok <$> [PBytes "a"; PInt 3])).1
  = true
  /\ mainloop false (fun _ => "tb") (fun _ => "")
       {| server_type := "multipart"; server_port := 7000;
          handler := fun r => Ok r |}
       ((Ok <$> [PBytes "a"; PInt 3]) ++ [Ok (PList []); Ok (PBytes "b")])
     = ((mainloop false (fun _ => "tb") (fun _ => "")
           {| server_type := "multipart"; server_port := 7000;
              handler := fun r => Ok r |} (Ok <$> [PBytes "a"; PInt 3])).1
          ++ [SRecv (PList [])], Died IndexError)%list.
Proof.
  destruct (server_answers_every_request false (fun _ => "tb") (fun _ => "")
              7000 "multipart" (fun r => Ok r) _ [PBytes "a"; PInt 3] eq_refl)
    as ((_ & A & _) & D & _).
  - by repeat constructor.
  - split; [exact A|]. by apply D.
Defined.

Lemma server_stops_when_context_terminates_witness :
  mainloop false (fun _ => "tb") (fun _ => "")
    {| server_type := "multipart"; server_port := 7000;
       handler := fun r => Ok r |}
    ((Ok <$> [PBytes "a"]) ++ [Raise ContextTerminated; Ok (PBytes "b")])
  = ([SRecv (PBytes "a"); SSend (PList [PBytes "a"]); SClose], Returned).
Proof.
  refine (proj1 (server_stops_when_context_terminates false (fun _ => "tb")
                   (fun _ => "")
                   {| server_type := "multipart"; server_port := 7000;
                      handler := fun r => Ok r |}
                   [PBytes "a"] [Ok (PBytes "b")] _)).
  by repeat constructor.
Defined.

(** ** Request/reply client: the cached sockets *)

Lemma utf8_chars_nonempty (a : ascii) (r : string) (cs : list string) :
  utf8_chars (String a r) = Some cs -> cs <> [].
Proof.
  cbn [utf8_chars].
  repeat case_match; try done;
    intros E; apply fmap_Some in E as (? & _ & ->); done.
Qed.

Lemma text_is_not_frames (PY2 : bool) (s : string) :
  String.eqb s "" = false -> right_type PY2 Multipart (PStr s) = false.
Proof.
  destruct s as [|a r]; [done|]. intros _. unfold right_type, py_iter.
  destruct (utf8_chars (String a r)) as [[|c cs]|] eqn:E; try done.
  by apply utf8_chars_nonempty in E.
Qed.

(** X4: with the handler of the class as it stands, a server of the text
    or of the object protocol answers a request with the example text,
    and a server of the raw or of the multipart protocol answers it with
    the error reply, the type error being raised in a thread: the text
    the handler returns is not a payload of these protocols. *)
Theorem example_handler_serves_text_only (PY2 : bool)
    (format_exc : exn -> string) (repr_other : pyval -> string)
    (k : wire_kind) (port : Z) (request : pyval)
    (rest : list (result pyval)) :
  let self := {| server_type := kind_name k; server_port := port;
                 handler := ZMQServer_handler repr_other |} in
  let text :=
    PStr (String.append "This is an example ZMQServer. Your request was "
            (String.append (py_str repr_other request) ".")) in
  let later := mainloop PY2 format_exc repr_other self rest in
  mainloop PY2 format_exc repr_other self (Ok request :: rest) =
  match k with
  | Text | Pyobj => (SRecv request :: SSend text :: later.1, later.2)
  | Raw | Multipart =>
      (SRecv request :: SRaiseInThread TypeError
         :: SSend (error_response format_exc repr_other (kind_name k) TypeError)
         :: later.1, later.2)
  end.
Proof.
  intros self text later. cbn [mainloop]. fold later.
  clearbody later. destruct later as [events status].
  unfold self, text. cbn [handler server_type fst snd].
  unfold ZMQServer_handler. cbn [bind].
  destruct k; cbn [kind_name].
  - reflexivity.
  - by destruct PY2.
  - rewrite typecheck_multipart. unfold validate.
    cbn [documented_conversion String.append].
    by rewrite text_is_not_frames by reflexivity.
  - by rewrite typecheck_pyobj.
Qed.

Section Sockets.

Variable PY2 : bool.
Variable gethostbyname : string -> string.

Local Abbreviation call := (ZMQGet_call PY2 gethostbyname).
Local Abbreviation fresh := (fresh_local gethostbyname).

(** A call that has to make a socket. *)
Lemma call_new_socket (k : wire_kind) (locals : gmap nat local) (tid : nat)
    (p : Z) (h : string) (data d : pyval) (timeout : Z) (x : exchange)
    (w : sockets) :
  needs_new_socket gethostbyname (default no_attributes (locals !! tid)) h p
  = true ->
  _typecheck_or_convert_data PY2 data (kind_name k) = Ok d ->
  send_error x = None ->
  call {| get_type := kind_name k; get_local := locals |} tid p h data timeout
    x w =
  (await_reply timeout x,
   store_local k locals tid
     (match await_reply timeout x with
      | Ok _ => fresh h p (created w)
      | Raise _ => del_sock (fresh h p (created w))
      end),
   reconnected gethostbyname h p w [(created w, d)]).
Proof.
  intros N T S. unfold ZMQGet_call, new_socket, store_local, reconnected.
  cbn [get_type get_local]. rewrite N.
  assert (known_type (kind_name k) = true) as -> by by destruct k.
  rewrite T, S. cbn. by destruct (await_reply timeout x).
Qed.

(** A call that finds the socket of the thread right for its target. *)
Lemma call_cached_socket (k : wire_kind) (locals : gmap nat local) (tid : nat)
    (l : local) (s : nat) (p : Z) (h : string) (data d : pyval) (timeout : Z)
    (x : exchange) (w : sockets) :
  locals !! tid = Some l ->
  needs_new_socket gethostbyname l h p = false ->
  send l = Some s ->
  _typecheck_or_convert_data PY2 data (kind_name k) = Ok d ->
  send_error x = None ->
  call {| get_type := kind_name k; get_local := locals |} tid p h data timeout
    x w =
  (await_reply timeout x,
   store_local k locals tid
     (match await_reply timeout x with
      | Ok _ => l
      | Raise _ => del_sock l
      end),
   with_sent w [(s, d)]).
Proof.
  intros L N B T S. unfold ZMQGet_call, store_local, with_sent.
  cbn [get_type get_local]. rewrite L.
  change (default no_attributes (Some l)) with l. rewrite N, T, S, B.
  by destruct (await_reply timeout x).
Qed.

Lemma fresh_needs_no_socket (h : string) (p : Z) (s : nat) :
  needs_new_socket gethostbyname (fresh h p s) h p = false.
Proof.
  unfold needs_new_socket, fresh_local. cbn.
  by rewrite !bool_decide_eq_true_2.
Qed.

(** X5: a thread without socket makes one for its first request and, the
    request answered, uses the same one for its next request to that host
    and port: one connection is opened and both payloads go out on it, in
    their order. *)
Theorem get_reuses_connection (k : wire_kind) (locals : gmap nat local)
    (tid : nat) (p : Z) (h : string) (data1 d1 data2 d2 : pyval)
    (timeout1 timeout2 : Z) (x1 x2 : exchange) (v1 v2 : pyval)
    (w : sockets) :
  cached_sock {| get_type := kind_name k; get_local := locals |} tid = None ->
  _typecheck_or_convert_data PY2 data1 (kind_name k) = Ok d1 ->
  _typecheck_or_convert_data PY2 data2 (kind_name k) = Ok d2 ->
  send_error x1 = None -> send_error x2 = None ->
  await_reply timeout1 x1 = Ok v1 -> await_reply timeout2 x2 = Ok v2 ->
  exists self1 w1 self2,
    call {| get_type := kind_name k; get_local := locals |} tid p h data1
      timeout1 x1 w = (Ok v1, self1, w1)
    /\ call self1 tid p h data2 timeout2 x2 w1 =
       (Ok v2, self2,
        reconnected gethostbyname h p w
          [(created w, d1); (created w, d2)])
    /\ cached_sock self2 tid = Some (created w).
Proof.
  intros C T1 T2 S1 S2 R1 R2.
  assert (needs_new_socket gethostbyname
            (default no_attributes (locals !! tid)) h p = true) as N.
  { unfold cached_sock, needs_new_socket in *. cbn in C.
    destruct (locals !! tid) as [l|]; cbn in *; by rewrite ?C. }
  eexists _, _, _. split; [|split].
  - rewrite (call_new_socket k locals tid p h data1 d1 timeout1 x1 w N T1 S1).
    rewrite R1. reflexivity.
  - unfold store_local.
    rewrite (call_cached_socket k _ tid (fresh h p (created w)) (created w)
               p h data2 d2 timeout2 x2 _ (lookup_insert_eq _ _ _)
               (fresh_needs_no_socket _ _ _) eq_refl T2 S2).
    rewrite R2. unfold with_sent, reconnected. cbn.
    by rewrite <- app_assoc.
  - unfold cached_sock, store_local. cbn. by rewrite lookup_insert_eq.
Qed.

(** X6: a request to another host or port than the one of the socket the
    thread has opens a connection to the new target and goes out on it;
    the thread then has the new socket (none when the request failed). *)
Theorem get_new_target_new_connection (k : wire_kind)
    (locals : gmap nat local) (tid : nat) (l : local) (p : Z) (h : string)
    (data d : pyval) (timeout : Z) (x : exchange) (w : sockets) :
  locals !! tid = Some l ->
  host l <> Some (gethostbyname h) \/ port l <> Some p ->
  _typecheck_or_convert_data PY2 data (kind_name k) = Ok d ->
  send_error x = None ->
  call {| get_type := kind_name k; get_local := locals |} tid p h data timeout
    x w =
  (await_reply timeout x,
   store_local k locals tid
     (match await_reply timeout x with
      | Ok _ => fresh h p (created w)
      | Raise _ => del_sock (fresh h p (created w))
      end),
   reconnected gethostbyname h p w [(created w, d)]).
Proof.
  intros L D T S. apply call_new_socket; [|done|done].
  rewrite L. cbn. unfold needs_new_socket.
  destruct (sock l); [|done].
  destruct D as [D|D]; rewrite (bool_decide_eq_false_2 _ D); cbn;
    [done|by rewrite orb_true_r].
Qed.

Lemma call_shape (k : wire_kind) (locals : gmap nat local) (tid : nat)
    (p : Z) (h : string) (data : pyval) (timeout : Z) (x : exchange)
    (w : sockets) :
  exists r l' w',
    call {| get_type := kind_name k; get_local := locals |} tid p h data
      timeout x w = (r, store_local k locals tid l', w')
    /\ ((exists l0, locals !! tid = Some l0
                    /\ needs_new_socket gethostbyname l0 h p = false
                    /\ (l' = l0 \/ l' = del_sock l0)
                    /\ created w' = created w
                    /\ connected w' = connected w)
        \/ ((l' = fresh h p (created w) \/ l' = del_sock (fresh h p (created w)))
            /\ created w' = S (created w)
            /\ connected w' =
               <[created w := (gethostbyname h, p)]> (connected w))).
Proof.
  unfold ZMQGet_call, new_socket, store_local, fresh_local.
  cbn [get_type get_local].
  assert (known_type (kind_name k) = true) as -> by by destruct k.
  destruct (locals !! tid) as [l0|] eqn:L; cbn [default from_option id];
    [destruct (needs_new_socket gethostbyname l0 h p) eqn:N|];
    repeat case_match; simplify_eq/=;
    eexists _, _, _; (split; [reflexivity|]); cbn;
    first [ right; split; [by eauto|done]
          | left; exists l0; repeat split; by eauto ].
Qed.

Lemma del_sock_sock (l : local) : sock (del_sock l) = None.
Proof. done. Qed.

(** X7: the cached sockets stay one per thread.  If every cached socket
    is the one its thread sends on, was created, is connected to the host
    and port recorded with it and belongs to one thread only, this is so
    again after any call of any thread; the call creates sockets and
    closes none, and it leaves the attributes of the other threads as
    they were. *)
Theorem get_keeps_sockets_per_thread (k : wire_kind)
    (locals : gmap nat local) (tid : nat) (p : Z) (h : string) (data : pyval)
    (timeout : Z) (x : exchange) (w : sockets) :
  let self := {| get_type := kind_name k; get_local := locals |} in
  per_thread_sockets self w ->
  per_thread_sockets (call self tid p h data timeout x w).1.2
                     (call self tid p h data timeout x w).2
  /\ get_type (call self tid p h data timeout x w).1.2 = kind_name k
  /\ (created w <= created (call self tid p h data timeout x w).2)%nat
  /\ forall tid', tid' <> tid ->
       get_local (call self tid p h data timeout x w).1.2 !! tid'
       = locals !! tid'.
Proof.
  intros self Inv.
  destruct (call_shape k locals tid p h data timeout x w)
    as (r & l' & w' & E & Sh).
  unfold self. rewrite E. cbn [fst snd store_local get_type get_local].
  assert (created w <= created w')%nat as Hc
    by (destruct Sh as [(? & _ & _ & _ & -> & _)|(_ & -> & _)]; lia).
  assert (forall s, (s < created w)%nat -> connected w' !! s = connected w !! s)
    as Hk.
  { intros s Hs.
    destruct Sh as [(? & _ & _ & _ & _ & ->)|(_ & _ & ->)]; [done|].
    rewrite lookup_insert_ne; [done|lia]. }
  assert (forall s, sock l' = Some s ->
            (exists l0, locals !! tid = Some l0 /\ l' = l0)
            \/ (s = created w /\ l' = fresh h p (created w)
                /\ created w' = S (created w)
                /\ connected w' !! s = Some (gethostbyname h, p))) as Hl.
  { intros s Hs.
    destruct Sh as [(l0 & L0 & _ & [->| ->] & _)|([->| ->] & Cr & Co)];
      try (by rewrite del_sock_sock in Hs).
    - left. by exists l0.
    - right. cbn in Hs. injection Hs as <-. rewrite Co.
      by rewrite lookup_insert_eq. }
  split; [|split; [done|split; [done|]]].
  - unfold per_thread_sockets, store_local. cbn [get_local].
    intros t l s L Sk.
    destruct (decide (t = tid)) as [->|Ne].
    + rewrite lookup_insert_eq in L. injection L as <-.
      destruct (Hl s Sk) as [(l0 & L0 & ->)|(-> & -> & Cr & Co)].
      * destruct (Inv tid l0 s L0 Sk) as (B & Lt & (h0 & p0 & Hh & Hp & Hco) & D).
        split; [done|]. split; [lia|]. split.
        { exists h0, p0. by rewrite Hk. }
        intros t' l2 Ne' L2. rewrite lookup_insert_ne in L2 by done.
        by eapply D.
      * split; [done|]. split; [lia|]. split.
        { by exists (gethostbyname h), p. }
        intros t' l2 Ne' L2 Sk2. rewrite lookup_insert_ne in L2 by done.
        destruct (Inv t' l2 (created w) L2 Sk2) as (_ & Lt & _). lia.
    + rewrite lookup_insert_ne in L by done.
      destruct (Inv t l s L Sk) as (B & Lt & (h0 & p0 & Hh & Hp & Hco) & D).
      split; [done|]. split; [lia|]. split.
      { exists h0, p0. by rewrite Hk. }
      intros t' l2 Ne' L2 Sk2.
      destruct (decide (t' = tid)) as [->|Ne2].
      * rewrite lookup_insert_eq in L2. injection L2 as <-.
        destruct (Hl s Sk2) as [(l0 & L0 & ->)|(-> & _)]; [|lia].
        by eapply (D tid l0).
      * rewrite lookup_insert_ne in L2 by done. by eapply (D t' l2).
  - intros t Ne. by rewrite lookup_insert_ne.
Qed.

Lemma per_thread_sockets_initially (type : string) (w : sockets) :
  per_thread_sockets {| get_type := type; get_local := ∅ |} w.
Proof. intros tid l s L. cbn in L. by rewrite lookup_empty in L. Qed.

(** X8: a payload of the wrong type costs no connection: the call raises
    the error of the validation, nothing is sent, and the thread has a
    socket afterwards; it is the very state of before when the thread had
    a socket for this host and port. *)
Theorem get_invalid_payload_keeps_socket (k : wire_kind)
    (locals : gmap nat local) (tid : nat) (p : Z) (h : string) (data : pyval)
    (timeout : Z) (x : exchange) (w : sockets) (e : exn) :
  let self := {| get_type := kind_name k; get_local := locals |} in
  _typecheck_or_convert_data PY2 data (kind_name k) = Raise e ->
  exists self1 w1,
    call self tid p h data timeout x w = (Raise e, self1, w1)
    /\ is_Some (cached_sock self1 tid)
    /\ sent w1 = sent w
    /\ forall l, locals !! tid = Some l ->
         needs_new_socket gethostbyname l h p = false ->
         self1 = self /\ w1 = w.
Proof.
  intros self T. unfold ZMQGet_call, new_socket, cached_sock, self.
  cbn [get_type get_local].
  assert (known_type (kind_name k) = true) as -> by by destruct k.
  rewrite T.
  destruct (locals !! tid) as [l0|] eqn:L; cbn [default from_option id];
    [destruct (needs_new_socket gethostbyname l0 h p) eqn:N|];
    eexists _, _; (split; [reflexivity|]); cbn; rewrite lookup_insert_eq; cbn.
  - split; [by eexists|split; [done|]]. intros l [= <-]. by rewrite N.
  - unfold needs_new_socket in N. destruct (sock l0) eqn:Sk; [|done].
    split; [by eexists|split; [done|]]. intros l [= <-] _.
    rewrite insert_id by done. split; [done|by destruct w].
  - split; [by eexists|split; [done|]]. by intros l [=].
Qed.

Lemma unknown_protocol_cached (type : string) (locals : gmap nat local)
    (tid : nat) (l : local) (p : Z) (h : string) (data : pyval) (timeout : Z)
    (x : exchange) (w : sockets) :
  known_type type = false ->
  locals !! tid = Some l ->
  needs_new_socket gethostbyname l h p = false ->
  call {| get_type := type; get_local := locals |} tid p h data timeout x w
  = (Raise ValueError,
     {| get_type := type; get_local := <[tid := l]> locals |}, w).
Proof.
  intros K L N. unfold ZMQGet_call. cbn [get_type get_local]. rewrite L.
  change (default no_attributes (Some l)) with l.
  by rewrite N, (typecheck_unknown_type _ _ _ K).
Qed.

Lemma unknown_protocol_new (type : string) (locals : gmap nat local)
    (tid : nat) (p : Z) (h : string) (data : pyval) (timeout : Z)
    (x : exchange) (w : sockets) :
  known_type type = false ->
  needs_new_socket gethostbyname (default no_attributes (locals !! tid)) h p
  = true ->
  call {| get_type := type; get_local := locals |} tid p h data timeout x w
  = (Raise ValueError,
     {| get_type := type;
        get_local :=
          <[tid := {| host := Some (gethostbyname h); port := Some p;
                      sock := Some (created w); poller := Some (created w);
                      send := None; recv := None |}]> locals |},
     reconnected gethostbyname h p w []).
Proof.
  intros K N. unfold ZMQGet_call, new_socket, reconnected.
  cbn [get_type get_local]. rewrite N, K. cbn. by rewrite app_nil_r.
Qed.

(** X9: a client made with a protocol that is none of the four never
    sends: every call raises [ValueError], the first one out of
    [new_socket], with the socket already made and kept, the later ones
    to the same host and port out of the validation. *)
Theorem get_unknown_protocol_never_sends (type : string)
    (locals : gmap nat local) (tid : nat) (p : Z) (h : string) (data : pyval)
    (timeout : Z) (x : exchange) (w : sockets) :
  known_type type = false ->
  exists self1 w1,
    call {| get_type := type; get_local := locals |} tid p h data timeout x w
    = (Raise ValueError, self1, w1)
    /\ get_type self1 = type
    /\ sent w1 = sent w
    /\ is_Some (cached_sock self1 tid)
    /\ exists self2,
         call self1 tid p h data timeout x w1 = (Raise ValueError, self2, w1).
Proof.
  intros K.
  destruct (needs_new_socket gethostbyname
              (default no_attributes (locals !! tid)) h p) eqn:N.
  - rewrite (unknown_protocol_new type locals tid p h data timeout x w K N).
    eexists _, _. split; [reflexivity|]. unfold cached_sock. cbn.
    rewrite lookup_insert_eq, app_nil_r. cbn.
    split; [done|split; [done|split; [by eexists|]]].
    eexists. apply unknown_protocol_cached; [done|apply lookup_insert_eq|].
    unfold needs_new_socket. cbn. by rewrite !bool_decide_eq_true_2.
  - destruct (locals !! tid) as [l|] eqn:L; [|done].
    change (default no_attributes (Some l)) with l in N.
    rewrite (unknown_protocol_cached type locals tid l p h data timeout x w
               K L N).
    eexists _, _. split; [reflexivity|]. unfold cached_sock. cbn.
    rewrite lookup_insert_eq. cbn.
    split; [done|split; [done|split]].
    + unfold needs_new_socket in N. by destruct (sock l).
    + eexists. by apply unknown_protocol_cached; [|apply lookup_insert_eq|].
Qed.

End Sockets.

Lemma cached_sock_initially (type : string) (tid : nat) :
  cached_sock {| get_type := type; get_local := ∅ |} tid = None.
Proof. unfold cached_sock. cbn. by rewrite lookup_empty. Qed.

Lemma get_reuses_connection_witness :
  exists self1 w1 self2,
    ZMQGet_call false (fun h => h) {| get_type := "raw"; get_local := ∅ |}
      0%nat 5555 "localhost" (PBytes "a") 1000
      {| send_error := None; reply := Some (1, Ok (PBytes "A")) |} no_sockets
    = (Ok (PBytes "A"), self1, w1)
    /\ ZMQGet_call false (fun h => h) self1 0%nat 5555 "localhost"
         (PBytes "b") 1000
         {| send_error := None; reply := Some (1, Ok (PBytes "B")) |} w1
       = (Ok (PBytes "B"), self2,
          reconnected (fun h => h) "localhost" 5555 no_sockets
            [(0%nat, PBytes "a"); (0%nat, PBytes "b")]).
Proof.
  destruct (get_reuses_connection false (fun h => h) Raw ∅ 0%nat 5555
              "localhost" (PBytes "a") (PBytes "a") (PBytes "b") (PBytes "b")
              1000 1000
              {| send_error := None; reply := Some (1, Ok (PBytes "A")) |}
              {| send_error := None; reply := Some (1, Ok (PBytes "B")) |}
              (PBytes "A") (PBytes "B") no_sockets
              (cached_sock_initially _ _) eq_refl eq_refl eq_refl eq_refl
              eq_refl eq_refl)
    as (self1 & w1 & self2 & E1 & E2 & _).
  by exists self1, w1, self2.
Defined.

Lemma get_new_target_new_connection_witness :
  let locals : gmap nat local :=
    {[ 0%nat := fresh_local (fun h => h) "localhost" 5555 0 ]} in
  let w := {| created := 1; connected := {[ 0%nat := ("localhost", 5555) ]};
              sent := [] |} in
  let x := {| send_error := None; reply := Some (1, Ok (PBytes "A")) |} in
  ZMQGet_call false (fun h => h)
    {| get_type := kind_name Raw; get_local := locals |}
    0%nat 6666 "localhost" (PBytes "a") 1000 x w
  = (await_reply 1000 x,
     store_local Raw locals 0
       (match await_reply 1000 x with
        | Ok _ => fresh_local (fun h => h) "localhost" 6666 (created w)
        | Raise _ =>
            del_sock (fresh_local (fun h => h) "localhost" 6666 (created w))
        end),
     reconnected (fun h => h) "localhost" 6666 w [(created w, PBytes "a")]).
Proof.
  intros locals w x.
  apply (get_new_target_new_connection false (fun h => h) Raw locals 0%nat
           (fresh_local (fun h => h) "localhost" 5555 0) 6666 "localhost"
           (PBytes "a") (PBytes "a") 1000 x w).
  - apply lookup_singleton_eq.
  - right. discriminate.
  - reflexivity.
  - reflexivity.
Defined.

Lemma get_keeps_sockets_per_thread_witness :
  per_thread_sockets
    (ZMQGet_call false (fun h => h) {| get_type := "raw"; get_local := ∅ |}
       0%nat 5555 "localhost" (PBytes "a") 1000
       {| send_error := None; reply := Some (1, Ok (PBytes "A")) |}
       no_sockets).1.2
    (ZMQGet_call false (fun h => h) {| get_type := "raw"; get_local := ∅ |}
       0%nat 5555 "localhost" (PBytes "a") 1000
       {| send_error := None; reply := Some (1, Ok (PBytes "A")) |}
       no_sockets).2.
Proof.
  exact (proj1 (get_keeps_sockets_per_thread false (fun h => h) Raw ∅ 0%nat
                  5555 "localhost" (PBytes "a") 1000
                  {| send_error := None; reply := Some (1, Ok (PBytes "A")) |}
                  no_sockets (per_thread_sockets_initially _ _))).
Defined.

Lemma get_invalid_payload_keeps_socket_witness :
  exists self1 w1,
    ZMQGet_call false (fun h => h) {| get_type := "raw"; get_local := ∅ |}
      0%nat 5555 "localhost" (PStr "text") 1000
      {| send_error := None; reply := None |} no_sockets
    = (Raise TypeError, self1, w1)
    /\ is_Some (cached_sock self1 0).
Proof.
  destruct (get_invalid_payload_keeps_socket false (fun h => h) Raw ∅ 0%nat
              5555 "localhost" (PStr "text") 1000
              {| send_error := None; reply := None |} no_sockets TypeError
              eq_refl) as (self1 & w1 & E & C & _).
  by exists self1, w1.
Defined.

Lemma get_unknown_protocol_never_sends_witness :
  exists self1 w1,
    ZMQGet_call false (fun h => h) {| get_type := "json"; get_local := ∅ |}
      0%nat 5555 "localhost" (PStr "text") 1000
      {| send_error := None; reply := None |} no_sockets
    = (Raise ValueError, self1, w1)
    /\ sent w1 = [].
Proof.
  destruct (get_unknown_protocol_never_sends false (fun h => h) "json" ∅
              0%nat 5555 "localhost" (PStr "text") 1000
              {| send_error := None; reply := None |} no_sockets eq_refl)
    as (self1 & w1 & E & _ & S & _).
  by exists self1, w1.
Defined.

(** ** Push client *)

Section Push.

Variable PY2 : bool.
Variable gethostbyname : string -> string.

Local Abbreviation push := (ZMQPush_call PY2 gethostbyname).

Lemma push_new_socket_kind (k : wire_kind) (h : string) (p : Z) (w : sockets) :
  push_kind k = true ->
  push_new_socket gethostbyname (kind_name k) h p w =
  (fresh_push_local gethostbyname h p (created w),
   reconnected gethostbyname h p w []).
Proof.
  intros K. unfold push_new_socket, fresh_push_local, reconnected.
  rewrite app_nil_r. by destruct k.
Qed.

Lemma push_without_socket (k : wire_kind) (locals : gmap nat local)
    (tid : nat) (p : Z) (h : string) (data d : pyval) (w : sockets) :
  push_kind k = true ->
  push_sock {| push_type := kind_name k; push_local := locals |} tid = None ->
  _typecheck_or_convert_data PY2 data (kind_name k) = Ok d ->
  push {| push_type := kind_name k; push_local := locals |} tid p h data None w
  = (Ok tt,
     {| push_type := kind_name k;
        push_local :=
          <[tid := fresh_push_local gethostbyname h p (created w)]> locals |},
     reconnected gethostbyname h p w [(created w, d)]).
Proof.
  intros K C T. unfold ZMQPush_call. cbn [push_type push_local].
  assert (needs_new_socket gethostbyname
            (default no_attributes (locals !! tid)) h p = true) as ->.
  { unfold push_sock, needs_new_socket in *. cbn in C.
    destruct (locals !! tid) as [l|]; cbn in *; by rewrite ?C. }
  rewrite (push_new_socket_kind k h p w K), T. cbn.
  by rewrite app_nil_r.
Qed.

Lemma push_with_socket (type : string) (locals : gmap nat local) (tid : nat)
    (l : local) (s : nat) (p : Z) (h : string) (data d : pyval)
    (failure : option exn) (w : sockets) :
  locals !! tid = Some l ->
  needs_new_socket gethostbyname l h p = false ->
  send l = Some s ->
  _typecheck_or_convert_data PY2 data type = Ok d ->
  push {| push_type := type; push_local := locals |} tid p h data failure w =
  match failure with
  | None =>
      (Ok tt, {| push_type := type; push_local := <[tid := l]> locals |},
       with_sent w [(s, d)])
  | Some e =>
      (Raise e,
       {| push_type := type; push_local := <[tid := del_sock l]> locals |}, w)
  end.
Proof.
  intros L N B T. unfold ZMQPush_call, with_sent. cbn [push_type push_local].
  rewrite L. change (default no_attributes (Some l)) with l.
  rewrite N, T, B. by destruct failure.
Qed.

Lemma fresh_push_needs_no_socket (h : string) (p : Z) (s : nat) :
  needs_new_socket gethostbyname (fresh_push_local gethostbyname h p s) h p
  = false.
Proof.
  unfold needs_new_socket, fresh_push_local. cbn.
  by rewrite !bool_decide_eq_true_2.
Qed.

(** X10: for the object, multipart and raw protocols, a thread without
    socket opens a connection for its first push and sends the next push
    to that host and port on the same socket; when the send of a later
    push raises, the exception goes to the caller, nothing is recorded as
    sent, the thread is left without socket, and the push after that one
    opens a new connection. *)
Theorem push_caches_and_discards (k : wire_kind) (locals : gmap nat local)
    (tid : nat) (p : Z) (h : string) (data1 d1 data2 d2 data3 d3 : pyval)
    (e : exn) (w : sockets) :
  push_kind k = true ->
  push_sock {| push_type := kind_name k; push_local := locals |} tid = None ->
  _typecheck_or_convert_data PY2 data1 (kind_name k) = Ok d1 ->
  _typecheck_or_convert_data PY2 data2 (kind_name k) = Ok d2 ->
  _typecheck_or_convert_data PY2 data3 (kind_name k) = Ok d3 ->
  exists self1 self2 self3 self4,
    let w2 := reconnected gethostbyname h p w
                [(created w, d1); (created w, d2)] in
    push {| push_type := kind_name k; push_local := locals |} tid p h data1
      None w
    = (Ok tt, self1, reconnected gethostbyname h p w [(created w, d1)])
    /\ push self1 tid p h data2 None
         (reconnected gethostbyname h p w [(created w, d1)])
       = (Ok tt, self2, w2)
    /\ push self2 tid p h data3 (Some e) w2 = (Raise e, self3, w2)
    /\ push_sock self3 tid = None
    /\ push self3 tid p h data3 None w2
       = (Ok tt, self4,
          reconnected gethostbyname h p w2 [(S (created w), d3)]).
Proof.
  intros K C T1 T2 T3.
  eexists _, _, _, _. cbn zeta.
  split; [by apply push_without_socket|].
  split.
  { rewrite (push_with_socket (kind_name k) _ tid
               (fresh_push_local gethostbyname h p (created w)) (created w)
               p h data2 d2 None _ (lookup_insert_eq _ _ _)
               (fresh_push_needs_no_socket _ _ _) eq_refl T2).
    unfold with_sent, reconnected. cbn. rewrite <- app_assoc. reflexivity. }
  rewrite insert_insert_eq.
  split.
  { by rewrite (push_with_socket (kind_name k) _ tid
                  (fresh_push_local gethostbyname h p (created w)) (created w)
                  p h data3 d3 (Some e) _ (lookup_insert_eq _ _ _)
                  (fresh_push_needs_no_socket _ _ _) eq_refl T3). }
  rewrite insert_insert_eq.
  split.
  { unfold push_sock. cbn. by rewrite lookup_insert_eq. }
  rewrite (push_without_socket k _ tid p h data3 d3 _ K); [|by
    unfold push_sock; cbn; rewrite lookup_insert_eq|done].
  by rewrite insert_insert_eq.
Qed.

(** X11: a push client made for the text protocol cannot send:
    [new_socket] binds no [send] for it, so a push of a text payload makes
    a socket, raises [AttributeError], and leaves the thread without
    socket, ready to make the next one. *)
Theorem push_text_protocol_never_sends (locals : gmap nat local) (tid : nat)
    (p : Z) (h : string) (data d : pyval) (w : sockets) :
  push_sock {| push_type := "string"; push_local := locals |} tid = None ->
  _typecheck_or_convert_data PY2 data "string" = Ok d ->
  exists self1,
    push {| push_type := "string"; push_local := locals |} tid p h data None w
    = (Raise AttributeError, self1, reconnected gethostbyname h p w [])
    /\ push_type self1 = "string"
    /\ push_sock self1 tid = None.
Proof.
  intros C T. unfold ZMQPush_call, push_new_socket, reconnected.
  cbn [push_type push_local].
  assert (needs_new_socket gethostbyname
            (default no_attributes (locals !! tid)) h p = true) as ->.
  { unfold push_sock, needs_new_socket in *. cbn in C.
    destruct (locals !! tid) as [l|]; cbn in *; by rewrite ?C. }
  rewrite T. cbn. eexists. rewrite app_nil_r. split; [reflexivity|].
  unfold push_sock. cbn. by rewrite lookup_insert_eq.
Qed.

End Push.

Lemma push_sock_initially (type : string) (tid : nat) :
  push_sock {| push_type := type; push_local := ∅ |} tid = None.
Proof. unfold push_sock. cbn. by rewrite lookup_empty. Qed.

Lemma push_caches_and_discards_witness :
  exists self1,
    ZMQPush_call false (fun h => h)
      {| push_type := kind_name Raw; push_local := ∅ |} 0%nat 5555 "localhost"
      (PBytes "a") None no_sockets
    = (Ok tt, self1,
       reconnected (fun h => h) "localhost" 5555 no_sockets
         [(0%nat, PBytes "a")]).
Proof.
  destruct (push_caches_and_discards false (fun h => h) Raw ∅ 0%nat 5555
              "localhost" (PBytes "a") (PBytes "a") (PBytes "b") (PBytes "b")
              (PBytes "c") (PBytes "c") Again no_sockets eq_refl
              (push_sock_initially _ _) eq_refl eq_refl eq_refl)
    as (self1 & _ & _ & _ & E & _).
  by exists self1.
Defined.

Lemma push_text_protocol_never_sends_witness :
  exists self1,
    ZMQPush_call false (fun h => h)
      {| push_type := "string"; push_local := ∅ |} 0%nat 5555 "localhost"
      (PStr "a") None no_sockets
    = (Raise AttributeError, self1,
       reconnected (fun h => h) "localhost" 5555 no_sockets []).
Proof.
  destruct (push_text_protocol_never_sends false (fun h => h) ∅ 0%nat 5555
              "localhost" (PStr "a") (PStr "a") no_sockets
              (push_sock_initially _ _) eq_refl) as (self1 & E & _).
  by exists self1.
Defined.

(** ** Heartbeat client: the signal *)

Lemma beats_cases (pid : string) (beats : list beat) :
  forallb (echoed pid) beats = true
  \/ exists good bad rest,
       beats = (good ++ bad :: rest)%list
       /\ forallb (echoed pid) good = true
       /\ (missed pid bad = true \/ exists e, bad = SendFails e).
Proof.
  induction beats as [|b beats IH]; [by left|].
  destruct (echoed pid b) eqn:E.
  - destruct IH as [IH|(good & bad & rest & -> & G & B)].
    + left. cbn. by rewrite E.
    + right. exists (b :: good), bad, rest. cbn. by rewrite E.
  - right. exists [], b, beats. repeat split.
    destruct b as [e| |delay msg]; [right; by exists e|by left|left].
    cbn in *. by rewrite E.
Qed.

Lemma cycles_without_signal (pid : string) (good : list beat) :
  existsb is_kill (good ≫= fun _ => cycle pid) = false.
Proof. induction good as [|b good IH]; [done|exact IH]. Qed.

Lemma last_cycle_without_signal (pid : string) (bad : beat) :
  existsb is_kill (last_cycle pid bad) = false.
Proof. destruct bad as [e| |delay msg]; cbn; try done. by case_match. Qed.

(** X12: whatever the relay does, the client sends the signal at most
    once and as the last thing it does, after the line on stderr; it has
    sent it only when an echo was missed after echoes that were all right,
    and then no other thread was holding its lock.  In every other case
    no signal is sent. *)
Theorem heartbeat_signals_once (self : HeartbeatClient) (getpid : Z)
    (held : bool) (beats : list beat) :
  let pid := str_of_int getpid in
  let r := heartbeat_mainloop self getpid held beats in
  match r.2 with
  | Killed =>
      exists before good bad rest,
        r.1 = (before
               ++ [HStderr (String.append "Heartbeat failure" (String "010" ""))]
               ++ match hb_lock self with
                  | Some lock => [HAcquire lock]
                  | None => []
                  end
               ++ [HKill getpid SIGTERM])%list
        /\ existsb is_kill before = false
        /\ beats = (good ++ bad :: rest)%list
        /\ forallb (echoed pid) good = true
        /\ missed pid bad = true
        /\ (hb_lock self = None \/ held = false)
  | _ => existsb is_kill r.1 = false
  end.
Proof.
  intros pid r. unfold r, heartbeat_mainloop, encode_utf8. fold pid.
  destruct (beats_cases pid beats)
    as [G|(good & bad & rest & -> & G & [B|[e ->]])].
  - rewrite <- (app_nil_r beats), (heartbeat_loop_echoed _ _ _ G). cbn.
    by rewrite app_nil_r, cycles_without_signal.
  - rewrite (heartbeat_loop_echoed _ _ _ G), (heartbeat_loop_missed _ _ _ B).
    cbn [fst snd].
    destruct (hb_lock self) as [lock|]; [destruct held|]; cbn [fst snd].
    + by rewrite !existsb_app, cycles_without_signal,
        last_cycle_without_signal.
    + exists ((good ≫= fun _ => cycle pid) ++ last_cycle pid bad)%list,
        good, bad, rest.
      rewrite <- !app_assoc. split; [done|].
      rewrite existsb_app, cycles_without_signal, last_cycle_without_signal.
      repeat split; auto.
    + exists ((good ≫= fun _ => cycle pid) ++ last_cycle pid bad)%list,
        good, bad, rest.
      rewrite <- !app_assoc. split; [done|].
      rewrite existsb_app, cycles_without_signal, last_cycle_without_signal.
      repeat split; auto.
  - rewrite (heartbeat_loop_echoed _ _ _ G). cbn.
    by rewrite existsb_app, cycles_without_signal.
Qed.

(** ** Queues: the locks and the objects *)

Lemma pending_update (threads : gmap nat position) (tid : nat)
    (at_ at' : position) :
  threads !! tid = Some at_ ->
  (pending threads ≡ₚ to_send at_ ++ pending (delete tid threads))
  /\ (pending (<[tid := at']> threads)
      ≡ₚ to_send at' ++ pending (delete tid threads)).
Proof.
  intros L. unfold pending. split.
  - by rewrite <- (map_to_list_delete threads tid at_ L).
  - rewrite <- insert_delete_eq.
    by rewrite map_to_list_insert by apply lookup_delete_eq.
Qed.

Lemma putting_step (tid : nat) (at_ at' : position) (q q' : ReadQueue) :
  putting at_ = true ->
  thread_step tid at_ q = Some (at', q') ->
  putting at' = true
  /\ sock_inbox q' = sock_inbox q
  /\ (to_send at' ++ to_self_wire q' ≡ₚ to_send at_ ++ to_self_wire q).
Proof.
  destruct at_; try discriminate; intros _; cbn;
    repeat case_match; simplify_eq/=; intros [= <- <-]; cbn;
    repeat split; try done.
  by rewrite Permutation_app_comm.
Qed.

Lemma carried_first (a rest wire inbox : list pyval) :
  (a ++ rest) ++ wire ++ inbox ≡ₚ rest ++ (a ++ wire) ++ inbox.
Proof.
  rewrite (Permutation_app_comm a rest). by rewrite <- !app_assoc.
Qed.

Lemma act_putting (a : action) (threads threads' : gmap nat position)
    (q q' : ReadQueue) :
  all_putting threads ->
  act a (threads, q) = Some (threads', q') ->
  all_putting threads'
  /\ (pending threads' ++ to_self_wire q' ++ sock_inbox q'
      ≡ₚ pending threads ++ to_self_wire q ++ sock_inbox q ++ from_peer [a]).
Proof.
  intros P. destruct a as [tid|tid| |obj]; cbn.
  - destruct (threads !! tid) as [at_|] eqn:L; [|done]. cbn.
    destruct (thread_step tid at_ q) as [[at' q1]|] eqn:S; [|done]. cbn.
    intros [= <- <-].
    destruct (putting_step tid at_ at' q q1 (P tid at_ L) S) as (P' & I & W).
    split.
    + intros t a. destruct (decide (t = tid)) as [->|Ne].
      * rewrite lookup_insert_eq. by intros [= <-].
      * rewrite lookup_insert_ne by done. apply P.
    + destruct (pending_update threads tid at_ at' L) as [E1 E2].
      rewrite E1, E2, I, app_nil_r.
      rewrite !carried_first. by rewrite W.
  - destruct (threads !! tid) as [at_|] eqn:L; [|done]. cbn.
    specialize (P tid at_ L). unfold poll_expires.
    destruct at_; try discriminate P; done.
  - unfold deliver. destruct (to_self_wire q) as [|obj rest] eqn:W; [done|].
    cbn. intros E. injection E as <- <-. split; [exact P|]. cbn.
    rewrite app_nil_r. f_equiv.
    by rewrite (app_assoc rest), <- Permutation_cons_append.
  - intros E. injection E as <- <-. split; [exact P|]. cbn.
    by rewrite !app_assoc.
Qed.

(** X13: no object put is lost or sent twice.  With threads that are
    inside [put] or have returned, after any schedule that runs, the
    objects still to be sent, those on their way and those waiting in the
    socket are together the ones of before and the ones that came from
    the peer in between. *)
Theorem puts_are_delivered_once (schedule : list action)
    (threads threads' : gmap nat position) (q q' : ReadQueue) :
  (forall tid at_, threads !! tid = Some at_ -> putting at_ = true) ->
  run schedule (threads, q) = Some (threads', q') ->
  pending threads' ++ to_self_wire q' ++ sock_inbox q'
  ≡ₚ pending threads ++ to_self_wire q ++ sock_inbox q ++ from_peer schedule.
Proof.
  revert threads q. induction schedule as [|a schedule IH]; intros threads q P.
  - cbn. intros [= <- <-]. by rewrite app_nil_r.
  - cbn [run]. destruct (act a (threads, q)) as [[threads1 q1]|] eqn:A; [|done].
    cbn [mbind option_bind]. intros R.
    destruct (act_putting a threads threads1 q q1 P A) as [P1 E1].
    rewrite (IH threads1 q1 P1 R).
    assert (from_peer (a :: schedule)
            = (from_peer [a] ++ from_peer schedule)%list) as ->
      by (unfold from_peer; cbn; by rewrite app_nil_r).
    transitivity ((pending threads1 ++ to_self_wire q1 ++ sock_inbox q1)
                    ++ from_peer schedule)%list;
      [by rewrite <- !app_assoc|].
    rewrite E1. by rewrite <- !app_assoc.
Qed.

Lemma puts_are_delivered_once_witness :
  match
    run [Run 1%nat; Run 1%nat; Run 1%nat; Run 2%nat; Deliver; Run 2%nat]
      ({[ 1%nat := Put_enter (PInt 1); 2%nat := Put_enter (PInt 2) ]},
       {| sock_inbox := []; to_self_wire := []; socklock := None;
          to_self_sock_lock := None |})
  with
  | Some (threads', q') =>
      pending threads' ++ to_self_wire q' ++ sock_inbox q'
      ≡ₚ pending {[ 1%nat := Put_enter (PInt 1); 2%nat := Put_enter (PInt 2) ]}
  | None => False
  end.
Proof.
  destruct (run _ _) as [[threads' q']|] eqn:R; [|by vm_compute in R].
  assert (forall tid at_,
            ({[ 1%nat := Put_enter (PInt 1); 2%nat := Put_enter (PInt 2) ]}
               : gmap nat position) !! tid = Some at_ ->
            putting at_ = true) as P.
  { intros tid at_ L.
    apply lookup_insert_Some in L as [[_ <-]|[_ L]]; [done|].
    by apply lookup_singleton_Some in L as [_ <-]. }
  rewrite (puts_are_delivered_once _ _ threads' _ q' P R).
  cbn. by rewrite !app_nil_r.
Defined.

Lemma owned_step (inside : position -> bool) (lock lock' : option nat)
    (threads : gmap nat position) (tid : nat) (at_ at' : position) :
  threads !! tid = Some at_ ->
  (forall t, lock = Some t <->
             exists a, threads !! t = Some a /\ inside a = true) ->
  lock_step inside tid at_ at' lock lock' ->
  forall t, lock' = Some t <->
            exists a, <[tid := at']> threads !! t = Some a /\ inside a = true.
Proof.
  intros L Inv Step t.
  destruct (decide (t = tid)) as [->|Ne];
    [rewrite lookup_insert_eq|rewrite lookup_insert_ne by done].
  - destruct Step as [[I ->]|[(I & I' & -> & ->)|(I & I' & ->)]].
    + rewrite (Inv tid), L. split; intros (a & [= <-] & Ia); eexists;
        (split; [done|congruence]).
    + split; [by exists at'|done].
    + split; [done|]. intros (a & [= <-] & Ia). congruence.
  - destruct Step as [[I ->]|[(I & I' & -> & ->)|(I & I' & ->)]].
    + apply Inv.
    + split; [congruence|]. intros H. by apply Inv in H.
    + split; [done|]. intros H. apply Inv in H.
      assert (lock = Some tid) as E by (apply Inv; by exists at_).
      congruence.
Qed.

Lemma thread_step_locks (tid : nat) (at_ at' : position) (q q' : ReadQueue) :
  thread_step tid at_ q = Some (at', q') ->
  lock_step inside_put tid at_ at' (to_self_sock_lock q) (to_self_sock_lock q')
  /\ lock_step inside_get tid at_ at' (socklock q) (socklock q').
Proof.
  unfold lock_step.
  destruct at_; cbn; repeat case_match; simplify_eq/=; intros [= <- <-]; cbn;
    split; auto 10.
Qed.

Lemma act_locks_owned (a : action) (c c' : queue_state) :
  locks_owned c -> act a c = Some c' -> locks_owned c'.
Proof.
  destruct c as [threads q]. intros Inv.
  assert (forall t, to_self_sock_lock q = Some t <->
            exists a, threads !! t = Some a /\ inside_put a = true) as IP
    by (intros t; apply (Inv t)).
  assert (forall t, socklock q = Some t <->
            exists a, threads !! t = Some a /\ inside_get a = true) as IG
    by (intros t; apply (Inv t)).
  destruct a as [tid|tid| |obj]; cbn.
  - destruct (threads !! tid) as [at_|] eqn:L; [|done]. cbn.
    destruct (thread_step tid at_ q) as [[at' q1]|] eqn:S; [|done]. cbn.
    intros [= <-]. intros t.
    destruct (thread_step_locks tid at_ at' q q1 S) as [SP SG]. cbn. split.
    + by eapply owned_step.
    + by eapply owned_step.
  - destruct (threads !! tid) as [at_|] eqn:L; [|done]. cbn.
    destruct (poll_expires at_ q) as [at'|] eqn:S; [|done]. cbn.
    intros [= <-]. intros t. unfold poll_expires in S.
    destruct at_ as [|timeout| | | | | |]; try discriminate S.
    destruct (sock_inbox q); [|done].
    destruct (0 <=? timeout); [|done]. injection S as <-. cbn. split.
    + eapply owned_step; [done|done|]. by left.
    + eapply owned_step; [done|done|]. by left.
  - destruct (deliver q) as [q1|] eqn:D; [|done]. cbn. intros [= <-].
    unfold deliver in D. destruct (to_self_wire q); [done|].
    injection D as <-. exact Inv.
  - intros [= <-]. exact Inv.
Qed.

Lemma run_locks_owned (schedule : list action) (c c' : queue_state) :
  locks_owned c -> run schedule c = Some c' -> locks_owned c'.
Proof.
  revert c. induction schedule as [|a schedule IH]; intros c Inv; cbn.
  - by intros [= <-].
  - destruct (act a c) as [c1|] eqn:A; [|done]. cbn.
    apply IH. by eapply act_locks_owned.
Qed.

(** X14: the two locks exclude.  From a state in which no thread is
    inside [get] or [put] and both locks are free, whatever the schedule,
    two threads are never inside [put] at the same time, nor inside
    [get], and a lock is held exactly while a thread is inside. *)
Theorem queue_locks_exclude (schedule : list action)
    (threads : gmap nat position) (q : ReadQueue) (c' : queue_state) :
  (forall tid at_, threads !! tid = Some at_ ->
                   inside_put at_ = false /\ inside_get at_ = false) ->
  socklock q = None -> to_self_sock_lock q = None ->
  run schedule (threads, q) = Some c' ->
  locks_owned c'
  /\ forall t1 t2 a1 a2,
       c'.1 !! t1 = Some a1 -> c'.1 !! t2 = Some a2 ->
       (inside_put a1 = true -> inside_put a2 = true -> t1 = t2)
       /\ (inside_get a1 = true -> inside_get a2 = true -> t1 = t2).
Proof.
  intros Out L1 L2 R.
  assert (locks_owned (threads, q)) as Inv.
  { intros t. cbn. rewrite L1, L2. split; split; try done;
      intros (at_ & L & I); destruct (Out t at_ L); congruence. }
  pose proof (run_locks_owned schedule _ _ Inv R) as Inv'.
  split; [done|]. intros t1 t2 a1 a2 H1 H2. split; intros I1 I2.
  - destruct (Inv' t1) as [[_ P1] _]. destruct (Inv' t2) as [[_ P2] _].
    assert (to_self_sock_lock c'.2 = Some t1) as E1 by eauto.
    assert (to_self_sock_lock c'.2 = Some t2) as E2 by eauto.
    congruence.
  - destruct (Inv' t1) as [_ [_ P1]]. destruct (Inv' t2) as [_ [_ P2]].
    assert (socklock c'.2 = Some t1) as E1 by eauto.
    assert (socklock c'.2 = Some t2) as E2 by eauto.
    congruence.
Qed.

Lemma queue_locks_exclude_witness :
  match
    run [Run 1%nat; Run 2%nat; Run 1%nat]
      ({[ 1%nat := Put_enter (PInt 1); 2%nat := Get_enter None ]},
       {| sock_inbox := []; to_self_wire := []; socklock := None;
          to_self_sock_lock := None |})
  with
  | Some c' => locks_owned c'
  | None => False
  end.
Proof.
  destruct (run _ _) as [c'|] eqn:R; [|by vm_compute in R].
  assert (forall tid at_,
            ({[ 1%nat := Put_enter (PInt 1); 2%nat := Get_enter None ]}
               : gmap nat position) !! tid = Some at_ ->
            inside_put at_ = false /\ inside_get at_ = false) as P.
  { intros tid at_ L.
    apply lookup_insert_Some in L as [[_ <-]|[_ L]]; [done|].
    by apply lookup_singleton_Some in L as [_ <-]. }
  exact (proj1 (queue_locks_exclude _ _
                  {| sock_inbox := []; to_self_wire := []; socklock := None;
                     to_self_sock_lock := None |} c' P eq_refl eq_refl R)).
Defined.

(** X15: a [get] with a timeout that is not negative gives the lock of
    [get] back on both ways out.  When nothing is there and the poll runs
    out, it raises the timeout error with the queue as it was and the lock
    free; when an object is there it returns the oldest one, the lock free
    again, and the poll cannot run out.  With a negative timeout the poll
    has no limit: on an empty queue the thread stays in it, holding the
    lock, and neither raises nor returns. *)
Theorem get_with_timeout_releases (getter : nat) (timeout : Z)
    (threads : gmap nat position) (q : ReadQueue) :
  threads !! getter = Some (Get_enter (Some timeout)) ->
  socklock q = None ->
  (0 <= timeout -> sock_inbox q = [] ->
   run [Run getter; Expire getter; Run getter] (threads, q) =
   Some (<[getter := Finished (Raise (TimeoutError ""))]> threads, q))
  /\ (forall obj rest,
        sock_inbox q = obj :: rest ->
        run [Run getter; Run getter; Run getter; Run getter] (threads, q) =
        Some (<[getter := Finished (Ok obj)]> threads,
              with_primary rest None q)
        /\ run [Run getter; Expire getter] (threads, q) = None)
  /\ (timeout < 0 -> sock_inbox q = [] ->
      run [Run getter] (threads, q) =
      Some (<[getter := Get_poll timeout]> threads,
            with_primary [] (Some getter) q)
      /\ run [Run getter; Expire getter] (threads, q) = None
      /\ run [Run getter; Run getter] (threads, q) = None).
Proof.
  intros L F. split; [|split].
  - intros T E. cbn. rewrite L. cbn. rewrite F. cbn.
    rewrite lookup_insert_eq. cbn. rewrite E. cbn.
    rewrite (proj2 (Z.leb_le _ _) T). cbn.
    rewrite lookup_insert_eq. cbn. rewrite !insert_insert_eq.
    destruct q as [inbox wire sl tl]. cbn in *. by subst.
  - intros obj rest E. split.
    + cbn. rewrite L. cbn. rewrite F. cbn.
      rewrite lookup_insert_eq. cbn. rewrite E. cbn.
      rewrite lookup_insert_eq. cbn.
      rewrite lookup_insert_eq. cbn. by rewrite !insert_insert_eq.
    + cbn. rewrite L. cbn. rewrite F. cbn.
      rewrite lookup_insert_eq. cbn. by rewrite E.
  - intros T E. split; [|split].
    + cbn. rewrite L. cbn. rewrite F. cbn. unfold with_primary.
      by rewrite E.
    + cbn. rewrite L. cbn. rewrite F. cbn.
      rewrite lookup_insert_eq. cbn. rewrite E.
      by rewrite (proj2 (Z.leb_gt _ _) T).
    + cbn. rewrite L. cbn. rewrite F. cbn.
      rewrite lookup_insert_eq. cbn. by rewrite E.
Qed.

Lemma get_with_timeout_releases_witness :
  run [Run 1%nat; Expire 1%nat; Run 1%nat]
    ({[ 1%nat := Get_enter (Some 500) ]},
     {| sock_inbox := []; to_self_wire := []; socklock := None;
        to_self_sock_lock := None |})
  = Some (<[1%nat := Finished (Raise (TimeoutError ""))]>
            {[ 1%nat := Get_enter (Some 500) ]},
          {| sock_inbox := []; to_self_wire := []; socklock := None;
             to_self_sock_lock := None |}).
Proof.
  exact (proj1 (get_with_timeout_releases 1%nat 500
                  {[ 1%nat := Get_enter (Some 500) ]}
                  {| sock_inbox := []; to_self_wire := []; socklock := None;
                     to_self_sock_lock := None |}
                  (lookup_singleton_eq _ _) eq_refl) ltac:(lia) eq_refl).
Defined.

(** ** Events: what a wait returns *)

(** X16: a wait returns only the data of a message that carries the name
    of the event (the text it is named with, or under Python 2 the byte
    string of ASCII characters it is named with) and the id waited for,
    the first such message of the stream; what it has taken from the
    stream is this message and the messages for other ids before it, and
    what it leaves is all that follows. *)
Theorem wait_returns_first_match (PY2 : bool) (repr_other : pyval -> string)
    (self : Event) (wid : pyval) (timeout : option Z) (b b' : bus)
    (v : pyval) :
  Event_wait PY2 repr_other self wid timeout b = (Returns v, b') ->
  exists skipped t m,
    arrivals b = (skipped ++ (t, m) :: arrivals b')%list
    /\ Forall (fun tm => id_frame tm.2 <> py_str repr_other wid) skipped
    /\ id_frame m = py_str repr_other wid
    /\ (event_name self = PStr (name_frame m)
        \/ (PY2 = true /\ event_name self = PBytes (name_frame m)
            /\ is_ascii (name_frame m) = true))
    /\ data_frame m = v
    /\ published b' = published b
    /\ now b <= now b'.
Proof.
  intros E. destruct (can_wait self) eqn:W.
  - destruct (wait_taken _ _ _ _ _ _ _ _ W E)
      as ((skipped & F & t & m & A & I & D & N) & P & C).
    apply text_equals_spec in N. by exists skipped, t, m.
  - revert E. unfold Event_wait. by rewrite W.
Qed.

Lemma wait_returns_first_match_witness :
  exists skipped t m,
    [(10, done_message "a" (PInt 5)); (20, done_message "c" (PInt 7))]
    = (skipped ++ [(t, m)])%list
    /\ data_frame m = PInt 7.
Proof.
  destruct (wait_returns_first_match true (fun _ => "") event_done (PStr "c")
              (Some 50)
              {| now := 0;
                 arrivals :=
                   [(10, done_message "a" (PInt 5));
                    (20, done_message "c" (PInt 7))];
                 published := [] |}
              {| now := 20; arrivals := []; published := [] |} (PInt 7)
              eq_refl) as (skipped & t & m & E & _ & _ & _ & D & _).
  by exists skipped, t, m.
Defined.

(** X25: under Python 2, for an event named with a byte string of ASCII
    characters, [wait] first goes through what is already there without
    waiting, returns the data of the first message with the id waited for
    and drops the messages with another id before it; when there is none
    it receives and compares up to the deadline [now + timeout], returns
    the data of a matching message that comes before the deadline, and
    raises the timeout error at the deadline when none does.  A wait that
    finds its message already there returns with the clock where it
    was.  The id waited for is [None], an integer or a text string. *)
Theorem wait_drains_then_awaits (repr_other : pyval -> string) (self : Event)
    (n : string) (wid : pyval) (b : bus) (skipped rest : list (Z * message)) :
  can_wait self = true ->
  event_name self = PBytes n ->
  is_ascii n = true ->
  plain_id wid = true ->
  Forall (passed_over n (py_str repr_other wid)) skipped ->
  (forall t m timeout,
     arrivals b = (skipped ++ (t, m) :: rest)%list ->
     of_event n m = true -> id_frame m = py_str repr_other wid ->
     Forall (fun tm => tm.1 <= now b) skipped -> t <= now b ->
     Event_wait true repr_other self wid timeout b =
     (Returns (data_frame m),
      {| now := now b; arrivals := rest; published := published b |}))
  /\ (forall t m T,
        arrivals b = (skipped ++ (t, m) :: rest)%list ->
        of_event n m = true -> id_frame m = py_str repr_other wid ->
        Forall (fun tm => tm.1 < now b + T) skipped -> t < now b + T ->
        Event_wait true repr_other self wid (Some T) b =
        (Returns (data_frame m),
         {| now := reached (now b) (skipped ++ [(t, m)]); arrivals := rest;
            published := published b |}))
  /\ (forall T,
        0 <= T ->
        arrivals b = (skipped ++ rest)%list ->
        Forall (fun tm => tm.1 < now b + T) skipped ->
        nothing_before (now b + T) rest ->
        Event_wait true repr_other self wid (Some T) b =
        (Raises timed_out,
         {| now := now b + T; arrivals := rest; published := published b |})).
Proof.
  intros Wt Nm As _ P. split; [|split].
  - intros t m timeout A W I B Bt. by eapply wait_buffered.
  - intros t m T A W I B Bt. by eapply wait_in_time.
  - intros T HT A B N. by eapply wait_times_out.
Qed.

(** An instance: id "c" is waited for with "a" and "c" already there. *)
Lemma wait_drains_then_awaits_witness :
  Event_wait true (fun _ => "") event_done (PStr "c") None
    {| now := 100;
       arrivals := [(10, done_message "a" (PInt 5));
                    (20, done_message "c" (PInt 7));
                    (30, done_message "d" (PInt 9))];
       published := [] |}
  = (Returns (PInt 7),
     {| now := 100;
        arrivals := [(30, done_message "d" (PInt 9))];
        published := [] |}).
Proof.
  refine (proj1 (wait_drains_then_awaits (fun _ => "") event_done "done"
                   (PStr "c")
                   {| now := 100; arrivals := _; published := [] |}
                   [(10, done_message "a" (PInt 5))]
                   [(30, done_message "d" (PInt 9))]
                   eq_refl eq_refl eq_refl eq_refl _)
            20 (done_message "c" (PInt 7)) None
            eq_refl eq_refl eq_refl _ _).
  - repeat constructor. discriminate.
  - repeat constructor. cbn. lia.
  - cbn. lia.
Defined.

(** ** Events and the broker *)

Lemma Event_init_globals (name : pyval) (type : string) (fresh : Z * Z)
    (g : process) :
  (Event_init name type fresh g).2 = (Broker_create_instance fresh g).2.
Proof.
  unfold Event_init. destruct (Broker_create_instance fresh g) as [ports g1].
  cbn. destruct (Broker_server_ports g1) as [[s p]|]; [|done].
  destruct (negb _); [done|]. by destruct (_ && _).
Qed.

Lemma Broker_create_instance_again (fresh1 fresh2 : Z * Z) (g : process) :
  broker_known g = true ->
  Broker_create_instance fresh2 (Broker_create_instance fresh1 g).2
  = ((Broker_create_instance fresh1 g).1, (Broker_create_instance fresh1 g).2).
Proof.
  unfold broker_known, Broker_create_instance.
  destruct g as [top inst ports]. cbn.
  by destruct ports, top, inst.
Qed.

(** X18: the events of a process share one broker.  In a process that
    can reach a broker, an event that is made leaves the broker of the
    next event as it has found or made it; each event subscribes, when it
    can wait, on the fan-out port of that broker and publishes, when it
    can post, on its fan-in port, so that what the one posts is what the
    other is sent. *)
Theorem events_share_the_broker (name1 name2 : pyval) (type1 type2 : string)
    (fresh1 fresh2 : Z * Z) (g g1 g2 : process) (e1 e2 : Event) :
  broker_known g = true ->
  Event_init name1 type1 fresh1 g = (Ok e1, g1) ->
  Event_init name2 type2 fresh2 g1 = (Ok e2, g2) ->
  g2 = g1
  /\ exists fan_in fan_out,
       Broker_server_ports g1 = Some (fan_in, fan_out)
       /\ sub e1 = (if can_wait e1 then Some fan_out else None)
       /\ pub e1 = (if can_post e1 then Some fan_in else None)
       /\ sub e2 = (if can_wait e2 then Some fan_out else None)
       /\ pub e2 = (if can_post e2 then Some fan_in else None)
       /\ (Broker_instance g = None -> we_are_the_top_process g = true ->
           Broker_instance g1 = Some fresh1 /\ (fan_in, fan_out) = fresh1).
Proof.
  intros K E1 E2.
  pose proof (Event_init_globals name1 type1 fresh1 g) as G1.
  pose proof (Event_init_globals name2 type2 fresh2 g1) as G2.
  rewrite E1 in G1. rewrite E2 in G2. cbn in G1, G2.
  pose proof (Broker_create_instance_again fresh1 fresh2 g K) as A.
  rewrite <- G1 in A. rewrite A in G2. cbn in G2.
  split; [done|]. subst g2.
  destruct (Event_init_modes name1 type1 fresh1 g K)
    as ([fi fo] & g1' & M1 & P1).
  rewrite E1 in M1.
  destruct (type_in type1 ["wait"; "post"; "both"]); [|done].
  destruct (type_in type1 ["wait"; "both"] && negb (is_bytes name1)); [done|].
  injection M1 as -> <-.
  assert (broker_known g1 = true) as K1 by (unfold broker_known; by rewrite P1).
  destruct (Event_init_modes name2 type2 fresh2 g1 K1)
    as ([fi2 fo2] & g2' & M2 & P2).
  rewrite E2 in M2.
  destruct (type_in type2 ["wait"; "post"; "both"]); [|done].
  destruct (type_in type2 ["wait"; "both"] && negb (is_bytes name2)); [done|].
  injection M2 as -> <-. rewrite P1 in P2. injection P2 as <- <-.
  exists fi, fo. cbn. do 5 (split; [done|]). intros I Tp. split.
  - rewrite G1. unfold Broker_create_instance. by rewrite Tp, I.
  - rewrite G1 in P1. unfold Broker_create_instance in P1.
    rewrite Tp, I in P1. cbn in P1. by injection P1.
Qed.

Lemma events_share_the_broker_witness :
  exists e1 e2 g1,
    Event_init (PBytes "done") "post" (6000, 6001) top_level_process
    = (Ok e1, g1)
    /\ Event_init (PBytes "done") "wait" (7000, 7001) g1 = (Ok e2, g1)
    /\ pub e1 = Some 6000 /\ sub e2 = Some 6001.
Proof.
  eexists _, _, _. split; [reflexivity|]. split; [reflexivity|].
  destruct (events_share_the_broker (PBytes "done") (PBytes "done") "post"
              "wait" (6000, 6001) (7000, 7001) top_level_process _ _ _ _
              eq_refl eq_refl eq_refl)
    as (_ & fi & fo & P & _ & P1 & S2 & _).
  cbn in P. injection P as <- <-. by split.
Defined.

(** ** Output interceptor *)

(** X19: interceptors made for the same port have the same local object,
    so what one thread writes to the two of them, text or bytes, goes out
    on one socket, in the order of the writes, each message being the name
    of the stream and the bytes written (text encoded, bytes as they are);
    the thread's socket is made by its first write and by no later one.  A
    write of something that is neither text nor bytes raises [TypeError]
    and sends nothing. *)
Theorem interceptors_share_sockets (port : Z) (name1 name2 : string)
    (st st1 st2 : interceptors) (i1 i2 : OutputInterceptor) (tid : nat)
    (s1 s2 : pyval) (w : sockets) :
  OutputInterceptor_init port name1 st = (Ok i1, st1) ->
  OutputInterceptor_init port name2 st1 = (Ok i2, st2) ->
  is_str s1 || is_bytes s1 = true ->
  is_str s2 || is_bytes s2 = true ->
  oi_local i1 = oi_local i2
  /\ (exists sk st3 w3 st4 w4,
        OutputInterceptor_write i1 tid s1 st2 w = (Ok tt, st3, w3)
        /\ OutputInterceptor_write i2 tid s2 st3 w3 = (Ok tt, st4, w4)
        /\ sent w4 = (sent w ++ [(sk, PList [PBytes name1; written s1]);
                                 (sk, PList [PBytes name2; written s2])])%list
        /\ created w4 = created w3
        /\ (created w3 <= S (created w))%nat)
  /\ (forall s, is_str s || is_bytes s = false ->
       (OutputInterceptor_write i1 tid s st2 w).1.1 = Raise TypeError
       /\ sent (OutputInterceptor_write i1 tid s st2 w).2 = sent w).
Proof.
  intros I1 I2 T1 T2.
  assert (is_bytes (written s1) = true) as B1 by by destruct s1.
  assert (is_bytes (written s2) = true) as B2 by by destruct s2.
  assert (forall s, is_str s || is_bytes s = false ->
                    is_bytes (written s) = false) as Bn
    by (intros s; by destruct s).
  revert I1 I2. unfold OutputInterceptor_init.
  destruct (sys_streams st !! name1) as [real1|]; [|done].
  destruct (threadlocals_by_port st !! port) as [l|] eqn:L.
  - intros [= <- <-]. destruct (sys_streams st !! name2) as [real2|]; [|done].
    rewrite L. intros [= <- <-]. split; [done|].
    unfold OutputInterceptor_write. cbn [oi_local oi_port streamname].
    destruct (default ∅ (thread_socks st !! l) !! tid) as [sk|] eqn:S.
    + split.
      * rewrite B1. eexists sk, _, _, _, _. split; [reflexivity|].
        cbn [thread_socks]. rewrite S, B2. split; [reflexivity|]. cbn.
        rewrite <- app_assoc. split; [done|]. split; [done|lia].
      * intros s Hs. by rewrite (Bn s Hs).
    + split.
      * rewrite B1. eexists (created w), _, _, _, _. split; [reflexivity|].
        cbn [thread_socks]. rewrite lookup_insert_eq. cbn [from_option id].
        rewrite lookup_insert_eq, B2. split; [reflexivity|]. cbn.
        rewrite <- app_assoc. split; [done|]. split; [done|lia].
      * intros s Hs. by rewrite (Bn s Hs).
  - intros [= <- <-]. cbn [sys_streams threadlocals_by_port].
    destruct (sys_streams st !! name2) as [real2|]; [|done].
    rewrite lookup_insert_eq. intros [= <- <-]. split; [done|].
    unfold OutputInterceptor_write. cbn [oi_local oi_port streamname].
    cbn [thread_socks]. rewrite lookup_insert_eq. cbn [from_option id].
    rewrite lookup_empty. split.
    + rewrite B1. eexists (created w), _, _, _, _. split; [reflexivity|].
      cbn [thread_socks]. rewrite lookup_insert_eq. cbn [from_option id].
      rewrite lookup_insert_eq, B2. split; [reflexivity|]. cbn.
      rewrite <- app_assoc. split; [done|]. split; [done|lia].
    + intros s Hs. by rewrite (Bn s Hs).
Qed.

(** X20: an interceptor keeps the stream it has found under its name:
    once connected it is the stream of that name, and disconnecting it
    puts the former stream back, so that the streams of the process are
    the ones of before. *)
Theorem interceptor_connect_disconnect (port : Z) (name : string)
    (st st1 : interceptors) (i : OutputInterceptor) :
  OutputInterceptor_init port name st = (Ok i, st1) ->
  sys_streams st !! name = Some (real_stream i)
  /\ sys_streams (OutputInterceptor_connect i st1) !! name = Some (as_stream i)
  /\ sys_streams (OutputInterceptor_disconnect i (OutputInterceptor_connect i st1))
     = sys_streams st.
Proof.
  unfold OutputInterceptor_init.
  destruct (sys_streams st !! name) as [real|] eqn:R; [|done].
  destruct (threadlocals_by_port st !! port) as [l|]; intros [= <- <-]; cbn;
    rewrite lookup_insert_eq, insert_insert_eq;
    (split; [done|]); (split; [done|]); by apply insert_id.
Qed.

Lemma interceptor_connect_disconnect_witness :
  exists i st1,
    OutputInterceptor_init 9000 "stdout" real_streams = (Ok i, st1)
    /\ sys_streams (OutputInterceptor_disconnect i
                      (OutputInterceptor_connect i st1))
       = sys_streams real_streams.
Proof.
  destruct (OutputInterceptor_init 9000 "stdout" real_streams)
    as [[i|e] st1] eqn:E; [|by vm_compute in E].
  exists i, st1. split; [done|].
  exact (proj2 (proj2 (interceptor_connect_disconnect _ _ _ _ _ E))).
Defined.

Lemma interceptors_share_sockets_witness :
  exists i1 i2 st1 st2 st3 w3 st4 w4 sk,
    OutputInterceptor_init 9000 "stdout" real_streams = (Ok i1, st1)
    /\ OutputInterceptor_init 9000 "stderr" st1 = (Ok i2, st2)
    /\ OutputInterceptor_write i1 0 (PStr "out") st2 no_sockets
       = (Ok tt, st3, w3)
    /\ OutputInterceptor_write i2 0 (PBytes "err") st3 w3 = (Ok tt, st4, w4)
    /\ sent w4 = [(sk, PList [PBytes "stdout"; PBytes "out"]);
                  (sk, PList [PBytes "stderr"; PBytes "err"])].
Proof.
  destruct (OutputInterceptor_init 9000 "stdout" real_streams)
    as [[i1|e] st1] eqn:E1; [|by vm_compute in E1].
  destruct (OutputInterceptor_init 9000 "stderr" st1)
    as [[i2|e] st2] eqn:E2.
  - destruct (interceptors_share_sockets _ _ _ _ _ _ _ _ 0%nat (PStr "out")
                (PBytes "err") no_sockets E1 E2 eq_refl eq_refl)
      as (_ & (sk & st3 & w3 & st4 & w4 & W1 & W2 & S & _) & _).
    exists i1, i2, st1, st2, st3, w3, st4, w4, sk.
    by do 4 (split; [done|]).
  - vm_compute in E1. injection E1 as <- <-. by vm_compute in E2.
Defined.

(** ** Spawning: the handshake *)

Lemma ends_with_append (s suffix : string) :
  ends_with (String.append s suffix) suffix = true.
Proof.
  induction s as [|a s IH].
  - change (String.append "" suffix) with suffix.
    destruct suffix; cbn [ends_with]; by rewrite String.eqb_refl.
  - change (String.append (String a s) suffix)
      with (String a (String.append s suffix)).
    cbn [ends_with]. by rewrite IH, orb_true_r.
Qed.

(** X21: the lock identifier a child gives itself ends with "sub", is
    the prefix it was given or that prefix with "sub" after it, and is
    given only when the prefix is not empty and the child has none yet;
    a child of that child, given this name as its prefix, takes it as it
    is. *)
Theorem inherited_name_ends_with_sub (prefix current name : string) :
  inherited_process_name prefix current = Some name ->
  ends_with name "sub" = true
  /\ prefix <> "" /\ current = ""
  /\ (name = prefix \/ name = String.append prefix "sub")
  /\ inherited_process_name name "" = Some name.
Proof.
  unfold inherited_process_name.
  destruct (String.eqb_spec prefix ""); cbn [negb]; [done|].
  destruct (String.eqb_spec current ""); [|done].
  assert (forall s, s <> "" -> ends_with s "sub" = true ->
            (if negb (String.eqb s "")
             then if String.eqb "" ""
                  then Some (if negb (ends_with s "sub")
                             then String.append s "sub" else s)
                  else None
             else None) = Some s) as Again.
  { intros s Ns Es. apply String.eqb_neq in Ns. by rewrite Ns, Es. }
  destruct (ends_with prefix "sub") eqn:E; cbn [negb]; intros [= <-].
  - repeat split; auto.
  - repeat split; auto using ends_with_append.
    apply Again; [by destruct prefix|apply ends_with_append].
Qed.

Lemma inherited_name_ends_with_sub_witness :
  inherited_process_name "worker" "" = Some "workersub"
  /\ inherited_process_name "workersub" "" = Some "workersub".
Proof.
  split; [reflexivity|].
  exact (proj2 (proj2 (proj2 (proj2
    (inherited_name_ends_with_sub "worker" "" "workersub" eq_refl))))).
Defined.

Lemma read_child_command (executable path : string)
    (port_from_child heartbeat_port redirection_port sub_port pub_port : Z)
    (prefix : string) :
  read_argv
    (sys_argv
       (child_command executable path port_from_child heartbeat_port
          redirection_port sub_port pub_port prefix))
  = Ok {| port_to_parent := port_from_child;
          port_to_heartbeat_server := heartbeat_port;
          output_redirection_port := redirection_port;
          broker_sub_port := sub_port;
          broker_pub_port := pub_port;
          zlock_process_identifier_prefix := prefix |}.
Proof.
  unfold child_command, sys_argv, read_argv, argv_item. cbn.
  by rewrite !int_of_str_of_int.
Qed.

(** X22: the handshake wires the child to the parent and to the relays of
    the tree.  The child started with the command line of the parent
    reads its arguments, and when its report comes within fifteen seconds
    the parent connects to the port the child has bound and the child to
    the port the parent has bound; the heartbeat client of the child is
    set on the port of the relay the parent has or has made, with a lock;
    and the child is no top-level process and has the ports of the
    broker the parent has or has made, so that asking for the broker in
    the child gives these ports and makes no broker. *)
Theorem handshake_wires_child (executable path : string)
    (redirection_port port_from_child port_from_parent : Z)
    (fresh_broker fresh_broker' : Z * Z) (fresh_heartbeat : Z)
    (zlock : option string) (delay : Z) (g : process) (heartbeat : option Z)
    (fresh_lock : nat) :
  broker_known g = true ->
  delay <= 15000 ->
  exists parent child g1 heartbeat1 g_child relay,
    setup_connection_with_parent (sys_argv (command parent)) port_from_parent
      "" None fresh_lock top_level_process = (Ok child, g_child)
    /\ subprocess_with_queues executable path redirection_port
         port_from_child fresh_broker fresh_heartbeat zlock
         (Some (delay, reported child)) g heartbeat
       = (Ok parent, g1, heartbeat1)
    /\ to_child parent = local_address (str_of_int (from_parent child))
    /\ to_parent child = local_address (str_of_int (from_child parent))
    /\ heartbeat1 = Some relay
    /\ (forall port, heartbeat = Some port -> relay = port)
    /\ hb_server_port (heartbeat_client child) = relay
    /\ hb_lock (heartbeat_client child) = Some fresh_lock
    /\ output_redirection_port (arguments child) = redirection_port
    /\ process_name child = inherited_process_name (default "" zlock) ""
    /\ we_are_the_top_process g_child = false
    /\ Broker_server_ports g_child = Broker_server_ports g1
    /\ Broker_create_instance fresh_broker' g_child
       = (Broker_server_ports g1, g_child)
    /\ Broker_instance g_child = None.
Proof.
  intros K D.
  destruct (Broker_create_instance fresh_broker g) as [ports g1] eqn:B.
  assert (ports = Broker_server_ports g1 /\ is_Some ports) as [Ep [[fi fo] ->]].
  { revert B. unfold Broker_create_instance, broker_known in *.
    destruct g as [top inst sp]. cbn in *.
    destruct sp, top, inst; try done; intros [= <- <-]; by eauto. }
  destruct (HeartbeatServer_create_instance fresh_heartbeat heartbeat)
    as [relay heartbeat1] eqn:H.
  assert (heartbeat1 = Some relay
          /\ forall port, heartbeat = Some port -> relay = port) as [-> Hr].
  { revert H. unfold HeartbeatServer_create_instance.
    destruct heartbeat; intros [= <- <-]; split; try done; by intros ? [= ->]. }
  pose (cmd := child_command executable path port_from_child relay
                 redirection_port fi fo (default "" zlock)).
  destruct (setup_connection_with_parent (sys_argv cmd) port_from_parent ""
              None fresh_lock top_level_process) as [r g_child] eqn:S.
  unfold setup_connection_with_parent, cmd in S.
  rewrite read_child_command in S. injection S as <- <-.
  eexists {| command := cmd;
             to_child := local_address (str_of_int port_from_parent);
             from_child := port_from_child |}, _, g1, (Some relay), _, relay.
  split.
  { unfold setup_connection_with_parent. cbn [command]. unfold cmd.
    by rewrite read_child_command. }
  split.
  { unfold subprocess_with_queues. rewrite B, H. cbn [reported encode_utf8].
    rewrite (proj2 (Z.leb_le _ _) D). cbn [negb]. unfold encode_utf8.
    by rewrite str_of_int_text. }
  cbn. rewrite <- Ep. repeat split; try done.
Qed.

Lemma handshake_wires_child_witness :
  exists parent child g1 heartbeat1 g_child,
    setup_connection_with_parent (sys_argv (command parent)) 41000 "" None
      0%nat top_level_process = (Ok child, g_child)
    /\ subprocess_with_queues "python" "worker.py" 0 40000 (6000, 6001) 5000
         None (Some (120, reported child)) top_level_process None
       = (Ok parent, g1, heartbeat1)
    /\ to_child parent = local_address (str_of_int 41000).
Proof.
  destruct (handshake_wires_child "python" "worker.py" 0 40000 41000
              (6000, 6001) (7000, 7001) 5000 None 120 top_level_process None
              0%nat eq_refl ltac:(lia))
    as (parent & child & g1 & h1 & gc & relay & E1 & E2 & E3 & _).
  exists parent, child, g1, h1, gc. split; [done|]. split; [done|].
  rewrite E3. revert E1. unfold setup_connection_with_parent.
  destruct (read_argv _); [|done]. by intros [= <- _].
Defined.

(** X23: a spawn whose child does not report within fifteen seconds, or
    not at all, fails with a runtime error; the broker and the heartbeat
    relay the parent has made for it are kept for the next spawn. *)
Theorem spawn_fails_without_report (executable path : string)
    (output_redirection_port port_from_child : Z) (fresh_broker : Z * Z)
    (fresh_heartbeat : Z) (zlock : option string)
    (report : option (Z * string)) (g : process) (heartbeat : option Z) :
  broker_known g = true ->
  match report with
  | Some (delay, _) => 15000 < delay
  | None => True
  end ->
  subprocess_with_queues executable path output_redirection_port
    port_from_child fresh_broker fresh_heartbeat zlock report g heartbeat
  = (Raise (RuntimeError "child process did not connect within the timeout."),
     (Broker_create_instance fresh_broker g).2,
     (HeartbeatServer_create_instance fresh_heartbeat heartbeat).2)
  /\ is_Some (Broker_server_ports (Broker_create_instance fresh_broker g).2)
  /\ is_Some (HeartbeatServer_create_instance fresh_heartbeat heartbeat).2.
Proof.
  intros K R. unfold subprocess_with_queues.
  destruct (Broker_create_instance fresh_broker g) as [ports g1] eqn:B.
  assert (ports = Broker_server_ports g1 /\ is_Some ports) as [Ep [[fi fo] ->]].
  { revert B. unfold Broker_create_instance, broker_known in *.
    destruct g as [top inst sp]. cbn in *.
    destruct sp, top, inst; try done; intros [= <- <-]; by eauto. }
  destruct (HeartbeatServer_create_instance fresh_heartbeat heartbeat)
    as [relay heartbeat1] eqn:H.
  cbn [snd]. rewrite <- Ep.
  split; [|split; [by eexists|]].
  - destruct report as [[delay bytes]|]; [|done].
    by rewrite (proj2 (Z.leb_gt _ _) R).
  - revert H. unfold HeartbeatServer_create_instance.
    destruct heartbeat; intros [= <- <-]; by eexists.
Qed.

Lemma spawn_fails_without_report_witness :
  (subprocess_with_queues "python" "worker.py" 0 40000 (6000, 6001) 5000 None
     None top_level_process None).1.1
  = Raise (RuntimeError "child process did not connect within the timeout.").
Proof.
  by rewrite (proj1 (spawn_fails_without_report "python" "worker.py" 0 40000
                       (6000, 6001) 5000 None None top_level_process None
                       eq_refl I)).
Defined.

(** ** Starting a process class *)

(** X24: the module file named to the child exists and is no compiled
    file: it is the file of the module, or the source beside a compiled
    module, or the [.pyw] of the same base when the first choice is not
    there; when that one is not there either, [start] raises instead of
    naming a file. *)
Theorem module_file_exists (file_exists : string -> bool)
    (basepath extension : string) :
  match module_file_for_child file_exists basepath extension with
  | Ok file =>
      file_exists file = true
      /\ ((extension <> ".pyc" /\ file = String.append basepath extension)
          \/ (extension = ".pyc" /\ file = String.append basepath ".py")
          \/ file = String.append basepath ".pyw")
  | Raise e =>
      e = UserException "NotImplementedError"
      /\ file_exists (String.append basepath ".pyw") = false
      /\ file_exists (if String.eqb extension ".pyc"
                      then String.append basepath ".py"
                      else String.append basepath extension) = false
  end.
Proof.
  unfold module_file_for_child.
  destruct (String.eqb_spec extension ".pyc") as [->|Ne].
  - destruct (file_exists (String.append basepath ".py")) eqn:E1; cbn [negb].
    + rewrite E1. cbn. auto.
    + destruct (file_exists (String.append basepath ".pyw")) eqn:E2; cbn; auto.
  - destruct (file_exists (String.append basepath extension)) eqn:E1;
      cbn [negb].
    + rewrite E1. cbn. auto.
    + destruct (file_exists (String.append basepath ".pyw")) eqn:E2; cbn; auto.
Qed.
